(** * nextcloud-media-bridge: media reference codec, path rendering and
    media lifecycle, embedded from the Go sources.

  Go strings are byte strings: they are modelled by [string], whose
  characters are the 256 [ascii] values.  Functions of the Go standard
  library that the program calls are modelled in their own modules
  ([Utf8], [GoStrings], [GoPath], ...); the program's packages are the
  modules [Utils] and [Handlers]. *)

From Stdlib Require Import ZArith Ascii String List Lia Bool.
From stdpp Require Import prelude gmap strings.

Set Warnings "-register-all".

Local Open Scope string_scope.
Local Open Scope Z_scope.

(** ** Bytes *)

Definition byteZ (c : ascii) : Z := Z.of_N (N_of_ascii c).
Definition ascii_of_Z (z : Z) : ascii := ascii_of_N (Z.to_N (z mod 256)).

Definition ascii_eqb (a b : ascii) : bool := Ascii.eqb a b.

Fixpoint drop_str (n : nat) (s : string) : string :=
match n, s with
| O, _ => s
| S n', String _ s' => drop_str n' s'
| S _, EmptyString => EmptyString
end.

Fixpoint take_str (n : nat) (s : string) : string :=
match n, s with
| O, _ => EmptyString
| S n', String c s' => String c (take_str n' s')
| S _, EmptyString => EmptyString
end.

Fixpoint rev_str_onto (s acc : string) : string :=
match s with
| EmptyString => acc
| String c s' => rev_str_onto s' (String c acc)
end.

Definition rev_str (s : string) : string := rev_str_onto s EmptyString.

(** ** unicode/utf8 *)

Module Utf8.

Definition RuneError : Z := 65533.

Definition is_cont (c : ascii) : bool :=
  (128 <=? byteZ c) && (byteZ c <=? 191).

Definition in_range (lo hi : Z) (c : ascii) : bool :=
  (lo <=? byteZ c) && (byteZ c <=? hi).

(** The size and the accepted range of the second byte, by first byte
    (the tables [first] and [acceptRanges]); [None] for ASCII and for
    bytes that never start a sequence. *)
Definition lead (c : ascii) : option (nat * Z * Z) :=
  let b := byteZ c in
  if (194 <=? b) && (b <=? 223) then Some (2%nat, 128, 191)
  else if b =? 224 then Some (3%nat, 160, 191)
  else if (225 <=? b) && (b <=? 236) then Some (3%nat, 128, 191)
  else if b =? 237 then Some (3%nat, 128, 159)
  else if (238 <=? b) && (b <=? 239) then Some (3%nat, 128, 191)
  else if b =? 240 then Some (4%nat, 144, 191)
  else if (241 <=? b) && (b <=? 243) then Some (4%nat, 128, 191)
  else if b =? 244 then Some (4%nat, 128, 143)
  else None.

(** [DecodeRuneInString]: the rune and its width in bytes; an invalid
    or truncated sequence decodes as ([RuneError], 1), the empty string
    as ([RuneError], 0). *)
Definition DecodeRuneInString (s : string) : Z * nat :=
  match s with
  | EmptyString => (RuneError, 0%nat)
  | String s0 r0 =>
    if byteZ s0 <? 128 then (byteZ s0, 1%nat)
    else match lead s0 with
    | None => (RuneError, 1%nat)
    | Some (sz, lo, hi) =>
      match r0 with
      | EmptyString => (RuneError, 1%nat)
      | String s1 r1 =>
        if negb (in_range lo hi s1) then (RuneError, 1%nat)
        else if (sz <=? 2)%nat
        then (Z.lor (Z.shiftl (Z.land (byteZ s0) 31) 6) (Z.land (byteZ s1) 63), 2%nat)
        else match r1 with
        | EmptyString => (RuneError, 1%nat)
        | String s2 r2 =>
          if negb (is_cont s2) then (RuneError, 1%nat)
          else if (sz <=? 3)%nat
          then (Z.lor (Z.shiftl (Z.land (byteZ s0) 15) 12)
                  (Z.lor (Z.shiftl (Z.land (byteZ s1) 63) 6) (Z.land (byteZ s2) 63)), 3%nat)
          else match r2 with
          | EmptyString => (RuneError, 1%nat)
          | String s3 _ =>
            if negb (is_cont s3) then (RuneError, 1%nat)
            else (Z.lor (Z.shiftl (Z.land (byteZ s0) 7) 18)
                   (Z.lor (Z.shiftl (Z.land (byteZ s1) 63) 12)
                      (Z.lor (Z.shiftl (Z.land (byteZ s2) 63) 6) (Z.land (byteZ s3) 63))), 4%nat)
          end
        end
      end
    end
  end.

(** [EncodeRune] (surrogates and out-of-range runes encode [RuneError]). *)
Definition EncodeRune (r : Z) : string :=
  let r := if (r <? 0) || (1114111 <? r) || ((55296 <=? r) && (r <=? 57343))
           then RuneError else r in
  if r <=? 127 then String (ascii_of_Z r) ""
  else if r <=? 2047 then
    String (ascii_of_Z (Z.lor 192 (Z.shiftr r 6)))
      (String (ascii_of_Z (Z.lor 128 (Z.land r 63))) "")
  else if r <=? 65535 then
    String (ascii_of_Z (Z.lor 224 (Z.shiftr r 12)))
      (String (ascii_of_Z (Z.lor 128 (Z.land (Z.shiftr r 6) 63)))
         (String (ascii_of_Z (Z.lor 128 (Z.land r 63))) ""))
  else
    String (ascii_of_Z (Z.lor 240 (Z.shiftr r 18)))
      (String (ascii_of_Z (Z.lor 128 (Z.land (Z.shiftr r 12) 63)))
         (String (ascii_of_Z (Z.lor 128 (Z.land (Z.shiftr r 6) 63)))
            (String (ascii_of_Z (Z.lor 128 (Z.land r 63))) ""))).

(** [DecodeLastRuneInString]: looks back over at most [UTFMax] bytes for
    the start of the last sequence. *)
Definition RuneStart (c : ascii) : bool := negb (is_cont c).

Fixpoint last_start (fuel : nat) (rs : string) (n : nat) : nat :=
  (* [rs] is the reversed string without its last byte, [n] counts the
     bytes already stepped over *)
  match fuel, rs with
  | S f, String c rs' => if RuneStart c then S n else last_start f rs' (S n)
  | _, _ => n
  end.

Definition DecodeLastRuneInString (s : string) : Z * nat :=
  match rev_str s with
  | EmptyString => (RuneError, 0%nat)
  | String c rs =>
    if byteZ c <? 128 then (byteZ c, 1%nat)
    else
      let back := last_start 3 rs 1 in
      let start := (String.length s - back)%nat in
      let '(r, size) := DecodeRuneInString (drop_str start s) in
      if (size =? back)%nat then (r, size) else (RuneError, 1%nat)
  end.

End Utf8.

(** ** unicode *)

Module Unicode.
(** [unicode.IsSpace]: the White_Space property. *)
Definition IsSpace (r : Z) : bool :=
  ((9 <=? r) && (r <=? 13)) || (r =? 32) || (r =? 133) || (r =? 160)
  || (r =? 5760) || ((8192 <=? r) && (r <=? 8202)) || (r =? 8232)
  || (r =? 8233) || (r =? 8239) || (r =? 8287) || (r =? 12288).
End Unicode.

(** ** strings *)

Module GoStrings.

Definition HasPrefix (s pre : string) : bool := String.prefix pre s.

Definition HasSuffix (s suf : string) : bool :=
  String.prefix (rev_str suf) (rev_str s).

Definition TrimPrefix (s pre : string) : string :=
  if HasPrefix s pre then drop_str (String.length pre) s else s.

Definition TrimSuffix (s suf : string) : string :=
  if HasSuffix s suf then take_str (String.length s - String.length suf) s else s.

(** [Index]: position of the first occurrence of [sep] in [s]. *)
Fixpoint Index (s sep : string) : option nat :=
  if String.prefix sep s then Some 0%nat
  else match s with
       | EmptyString => None
       | String _ s' => S <$> Index s' sep
       end.

Definition Contains (s sub : string) : bool :=
  match Index s sub with Some _ => true | None => false end.

Fixpoint mem_byte (c : ascii) (set : string) : bool :=
  match set with
  | EmptyString => false
  | String d set' => ascii_eqb c d || mem_byte c set'
  end.

(** [TrimLeft] and [TrimRight] for a cutset of ASCII bytes, which is what
    every call of the program passes ("/"). *)
Fixpoint TrimLeft (s cutset : string) : string :=
  match s with
  | EmptyString => EmptyString
  | String c s' => if mem_byte c cutset then TrimLeft s' cutset else s
  end.

Definition TrimRight (s cutset : string) : string :=
  rev_str (TrimLeft (rev_str s) cutset).

(** [TrimSpace]: leading, then trailing white space runes are removed
    (the ASCII fast path of the library computes the same string). *)
Fixpoint trim_left_space (fuel : nat) (s : string) : string :=
  match fuel with
  | O => s
  | S f =>
    let '(r, n) := Utf8.DecodeRuneInString s in
    if (0 <? n)%nat && Unicode.IsSpace r
    then trim_left_space f (drop_str n s) else s
  end.

Fixpoint trim_right_space (fuel : nat) (s : string) : string :=
  match fuel with
  | O => s
  | S f =>
    let '(r, n) := Utf8.DecodeLastRuneInString s in
    if (0 <? n)%nat && Unicode.IsSpace r
    then trim_right_space f (take_str (String.length s - n) s) else s
  end.

Definition TrimSpace (s : string) : string :=
  let l := trim_left_space (String.length s) s in
  trim_right_space (String.length l) l.

(** [ReplaceAll] for a non-empty [old]: occurrences are found left to
    right and do not overlap.  [skip] counts the bytes of a matched
    occurrence that are still to be passed over. *)
Fixpoint replace_from (skip : nat) (s old new : string) : string :=
  match s with
  | EmptyString => EmptyString
  | String c s' =>
    match skip with
    | S k => replace_from k s' old new
    | O => if String.prefix old s
           then new +:+ replace_from (Nat.pred (String.length old)) s' old new
           else String c (replace_from 0 s' old new)
    end
  end.

(** With an empty [old] the library inserts [new] before every UTF-8
    sequence and at the end. *)
Fixpoint insert_between (skip : nat) (s new : string) : string :=
  match s with
  | EmptyString => new
  | String c s' =>
    match skip with
    | S k => String c (insert_between k s' new)
    | O => new +:+ String c
             (insert_between (Nat.pred (snd (Utf8.DecodeRuneInString s))) s' new)
    end
  end.

Definition ReplaceAll (s old new : string) : string :=
  match old with
  | EmptyString => insert_between 0 s new
  | _ => replace_from 0 s old new
  end.

(** [SplitN] and [Split] for a non-empty separator. *)
Fixpoint split_upto (pieces : nat) (s sep : string) : list string :=
  match pieces with
  | O => [s]
  | S k =>
    match Index s sep with
    | None => [s]
    | Some m => take_str m s :: split_upto k (drop_str (m + String.length sep) s) sep
    end
  end.

Definition SplitN (s sep : string) (n : Z) : list string :=
  if n =? 0 then []
  else
    let most := S (String.length s) in
    let n' := if n <? 0 then most else Nat.min (Z.to_nat n) most in
    split_upto (Nat.pred n') s sep.

Definition Split (s sep : string) : list string := SplitN s sep (-1).

Fixpoint Join (elems : list string) (sep : string) : string :=
  match elems with
  | [] => EmptyString
  | [e] => e
  | e :: rest => e +:+ sep +:+ Join rest sep
  end.

End GoStrings.


(** ** path *)

Module GoPath.
Import GoStrings.

Definition slash : ascii := "/"%char.
Definition dot : ascii := "."%char.

Definition is_empty (s : string) : bool :=
  match s with EmptyString => true | _ => false end.

Definition rooted (p : string) : bool :=
  match p with String c _ => ascii_eqb c slash | EmptyString => false end.

(** One step of [Clean] on a path element; [out] holds the elements
    written so far, the last one first. *)
Definition clean_step (root : bool) (out : list string) (elem : string) : list string :=
  if String.eqb elem "" then out
  else if String.eqb elem "." then out
  else if String.eqb elem ".." then
    match out with
    | top :: below => if String.eqb top ".." then elem :: out else below
    | [] => if root then out else [elem]
    end
  else elem :: out.

Definition Clean (p : string) : string :=
  if is_empty p then "."
  else
    let root := rooted p in
    let out := fold_left (clean_step root) (Split p "/") [] in
    let body := Join (rev out) "/" in
    if root then "/" +:+ body
    else if is_empty body then "." else body.

(** [Split]: the directory part up to and with the final slash, and the
    file part after it. *)
Fixpoint SplitPath (p : string) : string * string :=
  match p with
  | EmptyString => (EmptyString, EmptyString)
  | String c p' =>
    let '(d, f) := SplitPath p' in
    if negb (is_empty d) then (String c d, f)
    else if ascii_eqb c slash then (String c EmptyString, f)
    else (EmptyString, String c f)
  end.

Definition Dir (p : string) : string := Clean (fst (SplitPath p)).

Definition Base (p : string) : string :=
  if is_empty p then "."
  else
    let p1 := TrimRight p "/" in
    let p2 := snd (SplitPath p1) in
    if is_empty p2 then "/" else p2.

(** [Ext]: the suffix from the final dot of the final element. *)
Fixpoint ext_rev (rs : string) (acc : string) : string :=
  match rs with
  | EmptyString => EmptyString
  | String c rs' =>
    if ascii_eqb c slash then EmptyString
    else if ascii_eqb c dot then String c acc
    else ext_rev rs' (String c acc)
  end.

Definition Ext (p : string) : string := ext_rev (rev_str p) EmptyString.

Definition Join (elems : list string) : string :=
  let parts := filter (fun e => e ≠ EmptyString) elems in
  match parts with
  | [] => EmptyString
  | _ => Clean (GoStrings.Join parts "/")
  end.

End GoPath.



(** ** fmt and strconv *)

Module Fmt.

Definition digit (d : Z) : ascii := ascii_of_Z (48 + d).

Fixpoint digits_onto (fuel : nat) (n : Z) (acc : string) : string :=
  match fuel with
  | O => acc
  | S f =>
    let acc' := String (digit (n mod 10)) acc in
    if n <? 10 then acc' else digits_onto f (n / 10) acc'
  end.

(** The decimal digits of a natural number. *)
Definition digits (n : Z) : string :=
  digits_onto (S (Z.to_nat (Z.log2 n))) n EmptyString.

(** The verb [%d]. *)
Definition itoa (n : Z) : string :=
  if n <? 0 then String "-"%char (digits (- n)) else digits n.

(** The verb [%02d]: zeros are written after the sign up to width 2. *)
Definition itoa02 (n : Z) : string :=
  if (0 <=? n) && (n <? 10) then String "0"%char (digits n) else itoa n.

(** [strconv.ParseInt(s, 10, 64)]: an optional sign, then decimal digits
    only, and a value in the range of int64. *)
Fixpoint parse_digits (s : string) (acc : Z) : option Z :=
  match s with
  | EmptyString => Some acc
  | String c s' =>
    let d := byteZ c - 48 in
    if (0 <=? d) && (d <=? 9) then parse_digits s' (10 * acc + d) else None
  end.

Definition ParseInt64 (s : string) : option Z :=
  let '(neg, body) :=
    match s with
    | String c r =>
      if ascii_eqb c "-" then (true, r)
      else if ascii_eqb c "+" then (false, r)
      else (false, s)
    | EmptyString => (false, s)
    end in
  match body with
  | EmptyString => None
  | _ =>
    match parse_digits body 0 with
    | None => None
    | Some v =>
      let v' := if neg then - v else v in
      if (- 2 ^ 63 <=? v') && (v' <? 2 ^ 63) then Some v' else None
    end
  end.

End Fmt.

(** ** time *)

Module GoTime.

(** A [time.Time]: the instant in seconds and nanoseconds since the Unix
    epoch, and the offset of its location east of UTC in seconds. *)
Record Time := mkTime { unixSec : Z; nanos : Z; zoneOffset : Z }.

(** Seconds from 1 January of year 1 to the Unix epoch. *)
Definition unixToInternal : Z := 62135596800.

Definition IsZero (t : Time) : bool :=
  (unixSec t + unixToInternal =? 0) && (nanos t =? 0).

Definition UnixMilli (ms : Z) : Time :=
  mkTime (ms / 1000) ((ms mod 1000) * 1000000) 0.

Definition UTC (t : Time) : Time := mkTime (unixSec t) (nanos t) 0.

(** The civil date of a day count from 1970-01-01 in the proleptic
    Gregorian calendar. *)
Definition civil (days : Z) : Z * Z * Z :=
  let z := days + 719468 in
  let era := z / 146097 in
  let doe := z - era * 146097 in
  let yoe := (doe - doe / 1460 + doe / 36524 - doe / 146096) / 365 in
  let doy := doe - (365 * yoe + yoe / 4 - yoe / 100) in
  let mp := (5 * doy + 2) / 153 in
  let d := doy - (153 * mp + 2) / 5 + 1 in
  let m := if mp <? 10 then mp + 3 else mp - 9 in
  let y := yoe + era * 400 + (if m <=? 2 then 1 else 0) in
  (y, m, d).

Definition date (t : Time) : Z * Z * Z := civil ((unixSec t + zoneOffset t) / 86400).

Definition Year (t : Time) : Z := fst (fst (date t)).
Definition Month (t : Time) : Z := snd (fst (date t)).
Definition Day (t : Time) : Z := snd (date t).

(** [time.Date(y, m, d, hh, mm, ss, 0, time.UTC)] for a date in range. *)
Definition days_from_civil (y m d : Z) : Z :=
  let y' := if m <=? 2 then y - 1 else y in
  let era := y' / 400 in
  let yoe := y' - era * 400 in
  let doy := (153 * (if 2 <? m then m - 3 else m + 9) + 2) / 5 + d - 1 in
  let doe := yoe * 365 + yoe / 4 - yoe / 100 + doy in
  era * 146097 + doe - 719468.

Definition Date (y m d hh mm ss : Z) : Time :=
  mkTime (days_from_civil y m d * 86400 + hh * 3600 + mm * 60 + ss) 0 0.

Definition UnixMilliOf (t : Time) : Z := unixSec t * 1000 + nanos t / 1000000.

End GoTime.



(** ** crypto/sha256 and crypto/hmac *)

Module Sha256.

Definition w32 (x : Z) : Z := x mod 4294967296.
Definition add32 (x y : Z) : Z := w32 (x + y).
Definition rotr (n x : Z) : Z := Z.lor (Z.shiftr x n) (w32 (Z.shiftl x (32 - n))).

Definition Ch (x y z : Z) : Z := Z.lxor z (Z.land x (Z.lxor y z)).
Definition Maj (x y z : Z) : Z := Z.lxor (Z.lxor (Z.land x y) (Z.land x z)) (Z.land y z).
Definition bsig0 (x : Z) : Z := Z.lxor (Z.lxor (rotr 2 x) (rotr 13 x)) (rotr 22 x).
Definition bsig1 (x : Z) : Z := Z.lxor (Z.lxor (rotr 6 x) (rotr 11 x)) (rotr 25 x).
Definition ssig0 (x : Z) : Z := Z.lxor (Z.lxor (rotr 7 x) (rotr 18 x)) (Z.shiftr x 3).
Definition ssig1 (x : Z) : Z := Z.lxor (Z.lxor (rotr 17 x) (rotr 19 x)) (Z.shiftr x 10).

Definition K : list Z :=
  [
   1116352408; 1899447441; 3049323471; 3921009573; 961987163; 1508970993;
   2453635748; 2870763221; 3624381080; 310598401; 607225278; 1426881987;
   1925078388; 2162078206; 2614888103; 3248222580; 3835390401; 4022224774;
   264347078; 604807628; 770255983; 1249150122; 1555081692; 1996064986;
   2554220882; 2821834349; 2952996808; 3210313671; 3336571891; 3584528711;
   113926993; 338241895; 666307205; 773529912; 1294757372; 1396182291;
   1695183700; 1986661051; 2177026350; 2456956037; 2730485921; 2820302411;
   3259730800; 3345764771; 3516065817; 3600352804; 4094571909; 275423344;
   430227734; 506948616; 659060556; 883997877; 958139571; 1322822218;
   1537002063; 1747873779; 1955562222; 2024104815; 2227730452; 2361852424;
   2428436474; 2756734187; 3204031479; 3329325298 ].

Definition H0 : list Z :=
  [
   1779033703; 3144134277; 1013904242; 2773480762;
   1359893119; 2600822924; 528734635; 1541459225 ].

Fixpoint bytes_of (s : string) : list Z :=
  match s with
  | EmptyString => []
  | String c s' => byteZ c :: bytes_of s'
  end.

Fixpoint string_of_bytes (bs : list Z) : string :=
  match bs with
  | [] => EmptyString
  | b :: bs' => String (ascii_of_Z b) (string_of_bytes bs')
  end.

(** Big-endian bytes of a word of [n] bytes. *)
Fixpoint be_bytes (n : nat) (x : Z) : list Z :=
  match n with
  | O => []
  | S k => (Z.shiftr x (8 * Z.of_nat k)) mod 256 :: be_bytes k x
  end.

Definition pad (msg : list Z) : list Z :=
  let len := Z.of_nat (length msg) in
  let zeros := Z.to_nat ((55 - len) mod 64) in
  msg ++ 128 :: repeat 0 zeros ++ be_bytes 8 (8 * len).

Fixpoint words_of (fuel : nat) (bs : list Z) : list Z :=
  match fuel, bs with
  | S f, b0 :: b1 :: b2 :: b3 :: rest =>
    (b0 * 16777216 + b1 * 65536 + b2 * 256 + b3) :: words_of f rest
  | _, _ => []
  end.

(** The message schedule; [recent] holds the words computed so far, the
    latest first. *)
Fixpoint schedule (n : nat) (recent : list Z) : list Z :=
  match n with
  | O => recent
  | S k =>
    match recent with
    | w1 :: w2 :: _ :: _ :: _ :: _ :: w7 :: _ :: _ :: _ :: _ :: _ :: _ :: _ :: w15 :: w16 :: _ =>
      schedule k (add32 (add32 (ssig1 w2) w7) (add32 (ssig0 w15) w16) :: recent)
    | _ => recent
    end
  end.

Definition round (st : list Z) (kw : Z * Z) : list Z :=
  match st with
  | [a; b; c; d; e; f; g; h] =>
    let t1 := add32 (add32 (add32 h (bsig1 e)) (add32 (Ch e f g) (fst kw))) (snd kw) in
    let t2 := add32 (bsig0 a) (Maj a b c) in
    [add32 t1 t2; a; b; c; add32 d t1; e; f; g]
  | _ => st
  end.

Definition compress (st : list Z) (block : list Z) : list Z :=
  let w := rev (schedule 48 (rev block)) in
  let st' := fold_left round (combine K w) st in
  map (fun p => add32 (fst p) (snd p)) (combine st st').

Fixpoint blocks (fuel : nat) (st : list Z) (ws : list Z) : list Z :=
  match fuel with
  | O => st
  | S f =>
    match ws with
    | [] => st
    | _ => blocks f (compress st (take 16 ws)) (drop 16 ws)
    end
  end.

Definition digest_words (msg : list Z) : list Z :=
  let ws := words_of (length msg + 72) (pad msg) in
  blocks (length ws) H0 ws.

Definition word_at (i : nat) (ws : list Z) : Z := nth i ws 0.

(** [sha256.Sum256]: the 32 bytes of the eight state words. *)
Definition Sum256 (msg : string) : string :=
  let ws := digest_words (bytes_of msg) in
  string_of_bytes
    (be_bytes 4 (word_at 0 ws) ++ be_bytes 4 (word_at 1 ws) ++ be_bytes 4 (word_at 2 ws)
     ++ be_bytes 4 (word_at 3 ws) ++ be_bytes 4 (word_at 4 ws) ++ be_bytes 4 (word_at 5 ws)
     ++ be_bytes 4 (word_at 6 ws) ++ be_bytes 4 (word_at 7 ws)).

Fixpoint xor_pad (fuel : nat) (key : list Z) (p : Z) : list Z :=
  match fuel with
  | O => []
  | S f =>
    match key with
    | [] => p :: xor_pad f [] p
    | k :: key' => Z.lxor k p :: xor_pad f key' p
    end
  end.

(** [hmac.New(sha256.New, key)], [Write(msg)], [Sum(nil)]. *)
Definition HMAC (key msg : string) : string :=
  let key := if (64 <? String.length key)%nat then Sum256 key else key in
  let kb := bytes_of key in
  let inner := Sum256 (string_of_bytes (xor_pad 64 kb 54) +:+ msg) in
  Sum256 (string_of_bytes (xor_pad 64 kb 92) +:+ inner).

(** [hmac.Equal]: a constant-time comparison; equal lengths and bytes. *)
Definition Equal (mac1 mac2 : string) : bool := String.eqb mac1 mac2.

Definition hex_digit (d : Z) : ascii :=
  if d <? 10 then ascii_of_Z (48 + d) else ascii_of_Z (87 + d).

Fixpoint hex (s : string) : string :=
  match s with
  | EmptyString => EmptyString
  | String c s' =>
    String (hex_digit (byteZ c / 16)) (String (hex_digit (byteZ c mod 16)) (hex s'))
  end.

End Sha256.


(** ** encoding/base64: RawURLEncoding *)

Module Base64.

(** The URL alphabet: A-Z, a-z, 0-9, '-' and '_'. *)
Definition enc6 (v : Z) : ascii :=
  if v <? 26 then ascii_of_Z (65 + v)
  else if v <? 52 then ascii_of_Z (97 + (v - 26))
  else if v <? 62 then ascii_of_Z (48 + (v - 52))
  else if v =? 62 then "-"%char
  else "_"%char.

Definition dec6 (c : ascii) : option Z :=
  let b := byteZ c in
  if (65 <=? b) && (b <=? 90) then Some (b - 65)
  else if (97 <=? b) && (b <=? 122) then Some (b - 97 + 26)
  else if (48 <=? b) && (b <=? 57) then Some (b - 48 + 52)
  else if b =? 45 then Some 62
  else if b =? 95 then Some 63
  else None.

(** [EncodeToString] without padding: three bytes give four characters,
    a final group of two gives three, of one gives two. *)
Fixpoint EncodeToString (src : string) : string :=
  match src with
  | EmptyString => EmptyString
  | String a EmptyString =>
    String (enc6 (byteZ a / 4)) (String (enc6 ((byteZ a mod 4) * 16)) EmptyString)
  | String a (String b EmptyString) =>
    String (enc6 (byteZ a / 4))
      (String (enc6 ((byteZ a mod 4) * 16 + byteZ b / 16))
         (String (enc6 ((byteZ b mod 16) * 4)) EmptyString))
  | String a (String b (String c rest)) =>
    String (enc6 (byteZ a / 4))
      (String (enc6 ((byteZ a mod 4) * 16 + byteZ b / 16))
         (String (enc6 ((byteZ b mod 16) * 4 + byteZ c / 64))
            (String (enc6 (byteZ c mod 64)) (EncodeToString rest))))
  end.

(** The decoder passes over carriage returns and line feeds. *)
Fixpoint strip_newlines (s : string) : string :=
  match s with
  | EmptyString => EmptyString
  | String c s' =>
    if (byteZ c =? 10) || (byteZ c =? 13) then strip_newlines s'
    else String c (strip_newlines s')
  end.

Fixpoint sextets (s : string) : option (list Z) :=
  match s with
  | EmptyString => Some []
  | String c s' =>
    match dec6 c, sextets s' with
    | Some v, Some vs => Some (v :: vs)
    | _, _ => None
    end
  end.

(** Four characters give three bytes; a final group of three gives two,
    of two gives one, and a single left-over character is an error.  The
    unused low bits of a final group are not checked (no strict mode). *)
Fixpoint bytes_of_sextets (vs : list Z) : option string :=
  match vs with
  | [] => Some EmptyString
  | [_] => None
  | [a; b] => Some (String (ascii_of_Z (a * 4 + b / 16)) EmptyString)
  | [a; b; c] =>
    Some (String (ascii_of_Z (a * 4 + b / 16))
            (String (ascii_of_Z ((b mod 16) * 16 + c / 4)) EmptyString))
  | a :: b :: c :: d :: rest =>
    match bytes_of_sextets rest with
    | None => None
    | Some tl =>
      Some (String (ascii_of_Z (a * 4 + b / 16))
              (String (ascii_of_Z ((b mod 16) * 16 + c / 4))
                 (String (ascii_of_Z ((c mod 4) * 64 + d)) tl)))
    end
  end.

Definition DecodeString (s : string) : option string :=
  match sextets (strip_newlines s) with
  | None => None
  | Some vs => bytes_of_sextets vs
  end.

End Base64.


(** ** encoding/json *)

Module Json.

Definition dq : ascii := "034"%char.
Definition backslash : ascii := "\"%char.

Definition hex_lower (d : Z) : ascii :=
  if d <? 10 then ascii_of_Z (48 + d) else ascii_of_Z (87 + d).

(** The table [htmlSafeSet]: printable ASCII without the quote, the
    backslash and the characters the encoder escapes for HTML. *)
Definition htmlSafe (b : Z) : bool :=
  (32 <=? b) && (b <? 128)
  && negb ((b =? 34) || (b =? 38) || (b =? 60) || (b =? 62) || (b =? 92)).

Definition escape_ascii (c : ascii) : string :=
  let b := byteZ c in
  if (b =? 92) || (b =? 34) then String backslash (String c "")
  else if b =? 8 then "\b"
  else if b =? 12 then "\f"
  else if b =? 10 then "\n"
  else if b =? 13 then "\r"
  else if b =? 9 then "\t"
  else "\u00" +:+ String (hex_lower (b / 16)) (String (hex_lower (b mod 16)) "").

(** The body of an encoded string.  [copy] counts the remaining bytes of a
    multi-byte sequence that are written unchanged, [skip] those of a
    sequence that was written as an escape. *)
Fixpoint quote_body (copy skip : nat) (s : string) : string :=
  match s with
  | EmptyString => EmptyString
  | String c s' =>
    match copy, skip with
    | S k, _ => String c (quote_body k skip s')
    | O, S k => quote_body 0 k s'
    | O, O =>
      let b := byteZ c in
      if b <? 128 then
        if htmlSafe b then String c (quote_body 0 0 s')
        else escape_ascii c +:+ quote_body 0 0 s'
      else
        let '(r, size) := Utf8.DecodeRuneInString s in
        if (r =? Utf8.RuneError) && (size =? 1)%nat then "\u" +:+ "fffd" +:+ quote_body 0 0 s'
        else if (r =? 8232) || (r =? 8233)
        then "\u202" +:+ String (hex_lower (Z.land r 15)) (quote_body 0 (Nat.pred size) s')
        else String c (quote_body (Nat.pred size) 0 s')
    end
  end.

(** A Go string as a JSON string (HTML escaping is on in [Marshal]). *)
Definition quote (s : string) : string :=
  String dq (quote_body 0 0 s +:+ String dq "").

(** A JSON object key as the encoder writes it for a struct field. *)
Definition key (name : string) : string :=
  String dq (name +:+ String dq ":").

(** *** Decoding *)

Inductive Value :=
| Null
| Bool (b : bool)
| Number (literal : string)
| Str (s : string)
| Array (elements : list Value)
| Object (members : list (string * Value)).

Definition is_ws (c : ascii) : bool :=
  let b := byteZ c in (b =? 32) || (b =? 9) || (b =? 13) || (b =? 10).

Fixpoint skip_ws (s : string) : string :=
  match s with
  | String c s' => if is_ws c then skip_ws s' else s
  | EmptyString => s
  end.

Definition hexval (c : ascii) : option Z :=
  let b := byteZ c in
  if (48 <=? b) && (b <=? 57) then Some (b - 48)
  else if (97 <=? b) && (b <=? 102) then Some (b - 87)
  else if (65 <=? b) && (b <=? 70) then Some (b - 55)
  else None.

(** [getu4]: the code unit of a leading backslash-u escape. *)
Definition getu4 (s : string) : option Z :=
  match s with
  | String e (String u (String h1 (String h2 (String h3 (String h4 _))))) =>
    if ascii_eqb e backslash && ascii_eqb u "u"%char then
      match hexval h1, hexval h2, hexval h3, hexval h4 with
      | Some a, Some b, Some c, Some d => Some (a * 4096 + b * 256 + c * 16 + d)
      | _, _, _, _ => None
      end
    else None
  | _ => None
  end.

Definition is_surrogate (r : Z) : bool := (55296 <=? r) && (r <? 57344).

(** [utf16.DecodeRune]. *)
Definition utf16_decode (r1 r2 : Z) : Z :=
  if (55296 <=? r1) && (r1 <? 56320) && (56320 <=? r2) && (r2 <? 57344)
  then (r1 - 55296) * 1024 + (r2 - 56320) + 65536
  else Utf8.RuneError.

(** What an escape that starts at the backslash [s] stands for, and how
    many bytes follow the backslash. *)
Definition escape (s : string) : option (string * nat) :=
  match s with
  | String _ (String e _) =>
    let b := byteZ e in
    if (b =? 34) || (b =? 92) || (b =? 47) then Some (String e "", 1%nat)
    else if b =? 98 then Some (String (ascii_of_Z 8) "", 1%nat)
    else if b =? 102 then Some (String (ascii_of_Z 12) "", 1%nat)
    else if b =? 110 then Some (String (ascii_of_Z 10) "", 1%nat)
    else if b =? 114 then Some (String (ascii_of_Z 13) "", 1%nat)
    else if b =? 116 then Some (String (ascii_of_Z 9) "", 1%nat)
    else if b =? 117 then
      match getu4 s with
      | None => None
      | Some rr =>
        if is_surrogate rr then
          match getu4 (drop_str 6 s) with
          | Some rr1 =>
            let dec := utf16_decode rr rr1 in
            if dec =? Utf8.RuneError then Some (Utf8.EncodeRune Utf8.RuneError, 5%nat)
            else Some (Utf8.EncodeRune dec, 11%nat)
          | None => Some (Utf8.EncodeRune Utf8.RuneError, 5%nat)
          end
        else Some (Utf8.EncodeRune rr, 5%nat)
      end
    else None
  | _ => None
  end.

(** The text after an opening quote: the string it stands for and the
    input after the closing quote.  Bytes that are not valid UTF-8 are
    read as U+FFFD. *)
Fixpoint unquote (skip : nat) (s : string) : option (string * string) :=
  match s with
  | EmptyString => None
  | String c s' =>
    match skip with
    | S k => unquote k s'
    | O =>
      let b := byteZ c in
      if b =? 34 then Some (EmptyString, s')
      else if b <? 32 then None
      else if b =? 92 then
        match escape s with
        | None => None
        | Some (out, n) =>
          match unquote n s' with
          | None => None
          | Some (d, r) => Some (out +:+ d, r)
          end
        end
      else if b <? 128 then
        match unquote 0 s' with
        | None => None
        | Some (d, r) => Some (String c d, r)
        end
      else
        let '(r, size) := Utf8.DecodeRuneInString s in
        match unquote (Nat.pred size) s' with
        | None => None
        | Some (d, rest) => Some (Utf8.EncodeRune r +:+ d, rest)
        end
    end
  end.

Definition is_digit (c : ascii) : bool := (48 <=? byteZ c) && (byteZ c <=? 57).

Fixpoint span_digits (s : string) : string * string :=
  match s with
  | String c s' =>
    if is_digit c then let '(d, r) := span_digits s' in (String c d, r)
    else (EmptyString, s)
  | EmptyString => (EmptyString, EmptyString)
  end.

(** A number literal: sign, integer part without leading zeros, fraction,
    exponent. *)
Definition number (s : string) : option (string * string) :=
  let '(sign, s1) :=
    match s with
    | String "-"%char r => ("-", r)
    | _ => ("", s)
    end in
  let '(int, s2) := span_digits s1 in
  let int_ok :=
    match int with
    | EmptyString => false
    | String "0"%char (String _ _) => false
    | _ => true
    end in
  if negb int_ok then None
  else
    let frac :=
      match s2 with
      | String "."%char r =>
        let '(f, r') := span_digits r in
        if GoPath.is_empty f then None else Some ("." +:+ f, r')
      | _ => Some ("", s2)
      end in
    match frac with
    | None => None
    | Some (f, s3) =>
      let with_exp (e : ascii) (r : string) :=
        let '(sg, r1) :=
          match r with
          | String "+"%char r1 => ("+", r1)
          | String "-"%char r1 => ("-", r1)
          | _ => ("", r)
          end in
        let '(ds, r2) := span_digits r1 in
        if GoPath.is_empty ds then None
        else Some (sign +:+ int +:+ f +:+ String e sg +:+ ds, r2) in
      match s3 with
      | String "e"%char r => with_exp "e"%char r
      | String "E"%char r => with_exp "E"%char r
      | _ => Some (sign +:+ int +:+ f, s3)
      end
    end.

(** The scanner's bound on nesting. *)
Definition maxNestingDepth : Z := 10000.

(** The members of an object after the opening brace and white space,
    and the elements of an array, with [value] reading one value; the
    loops are bounded by the length of the input. *)
Definition members_of (value : string -> option (Value * string))
  : nat -> string -> option (list (string * Value) * string) :=
  fix members (n : nat) (s : string) : option (list (string * Value) * string) :=
    match n with
    | O => None
    | S n' =>
      match s with
      | String q s2 =>
        if ascii_eqb q dq then
          match unquote 0 s2 with
          | None => None
          | Some (k, r1) =>
            match skip_ws r1 with
            | String ":"%char r2 =>
              match value (skip_ws r2) with
              | None => None
              | Some (v, r3) =>
                match skip_ws r3 with
                | String ","%char r4 =>
                  match members n' (skip_ws r4) with
                  | None => None
                  | Some (ms, r5) => Some ((k, v) :: ms, r5)
                  end
                | String "}"%char r4 => Some ([(k, v)], r4)
                | _ => None
                end
              end
            | _ => None
            end
          end
        else None
      | EmptyString => None
      end
    end.

Definition elements_of (value : string -> option (Value * string))
  : nat -> string -> option (list Value * string) :=
  fix elements (n : nat) (s : string) : option (list Value * string) :=
    match n with
    | O => None
    | S n' =>
      match value s with
      | None => None
      | Some (v, r1) =>
        match skip_ws r1 with
        | String ","%char r2 =>
          match elements n' (skip_ws r2) with
          | None => None
          | Some (vs, r3) => Some (v :: vs, r3)
          end
        | String "]"%char r2 => Some ([v], r2)
        | _ => None
        end
      end
    end.

(** A value at the head of [s].  A value inside [depth - 1] arrays or
    objects is read with [depth]. *)
Fixpoint value (depth : nat) (s : string) : option (Value * string) :=
  match depth with
  | O => None
  | S d =>
    match s with
    | EmptyString => None
    | String c s' =>
      let b := byteZ c in
      if b =? 34 then
        match unquote 0 s' with
        | Some (str, r) => Some (Str str, r)
        | None => None
        end
      else if b =? 123 then
        match d with
        | O => None
        | S _ =>
          match skip_ws s' with
          | String "}"%char r => Some (Object [], r)
          | s1 =>
            match members_of (value d) (String.length s1) s1 with
            | Some (ms, r) => Some (Object ms, r)
            | None => None
            end
          end
        end
      else if b =? 91 then
        match d with
        | O => None
        | S _ =>
          match skip_ws s' with
          | String "]"%char r => Some (Array [], r)
          | s1 =>
            match elements_of (value d) (String.length s1) s1 with
            | Some (vs, r) => Some (Array vs, r)
            | None => None
            end
          end
        end
      else if String.prefix "true" s then Some (Bool true, drop_str 4 s)
      else if String.prefix "false" s then Some (Bool false, drop_str 5 s)
      else if String.prefix "null" s then Some (Null, drop_str 4 s)
      else
        match number s with
        | Some (lit, r) => Some (Number lit, r)
        | None => None
        end
    end
  end.

(** A whole document: one value between white space. *)
Definition parse (data : string) : option Value :=
  match value (S (Z.to_nat maxNestingDepth)) (skip_ws data) with
  | Some (v, r) => if GoPath.is_empty (skip_ws r) then Some v else None
  | None => None
  end.

(** Field names are matched exactly or under case folding.  Besides the
    ASCII letters only U+017F and U+212A fold to ASCII (to S and K). *)
Fixpoint fold_name (s : string) : string :=
  match s with
  | EmptyString => EmptyString
  | String c s' =>
    let b := byteZ c in
    if (97 <=? b) && (b <=? 122) then String (ascii_of_Z (b - 32)) (fold_name s')
    else
      match s with
      | String "197"%char (String "191"%char r) => String "S"%char (fold_name r)
      | String "226"%char (String "132"%char (String "170"%char r)) => String "K"%char (fold_name r)
      | _ => String c (fold_name s')
      end
  end.

Definition find_field (fields : list string) (name : string) : option string :=
  match filter (fun f => f = name) fields with
  | f :: _ => Some f
  | [] => head (filter (fun f => fold_name f = fold_name name) fields)
  end.

(** The members of an object read into a struct whose fields are all
    strings: the assignments made, the latest first, and whether every
    value had a fitting type (a string, or null, which assigns nothing). *)
Fixpoint assign_strings (fields : list string) (members : list (string * Value))
    (acc : list (string * string)) (ok : bool) : list (string * string) * bool :=
  match members with
  | [] => (acc, ok)
  | (k, v) :: rest =>
    match find_field fields k with
    | None => assign_strings fields rest acc ok
    | Some f =>
      match v with
      | Str s => assign_strings fields rest ((f, s) :: acc) ok
      | Null => assign_strings fields rest acc ok
      | _ => assign_strings fields rest acc false
      end
    end
  end.

Fixpoint field (name : string) (acc : list (string * string)) : string :=
  match acc with
  | [] => EmptyString
  | (f, s) :: rest => if String.eqb f name then s else field name rest
  end.

(** [Unmarshal] into a zero struct of string fields: the field values by
    name, or [None] for a syntax or type error. *)
Definition unmarshal_strings (fields : list string) (data : string)
  : option (list (string * string)) :=
  match parse data with
  | None => None
  | Some Null => Some []
  | Some (Object members) =>
    let '(acc, ok) := assign_strings fields members [] true in
    if ok then Some acc else None
  | Some _ => None
  end.

End Json.


(** * Package utils *)

Module Utils.
Import GoStrings GoTime.

(** The map literal of [RenderPathTemplate], in the order it is written. *)
Definition replacements (roomName user filename : string) (eventTime : Time)
  : list (string * string) :=
  [ ("${year}", Fmt.itoa (Year eventTime));
    ("${month}", Fmt.itoa02 (Month eventTime));
    ("${day}", Fmt.itoa02 (Day eventTime));
    ("${room}", roomName);
    ("${user}", user);
    ("${file}", filename) ].

Definition replace_entry (result : string) (kv : string * string) : string :=
  ReplaceAll result (fst kv) (snd kv).

(** [RenderPathTemplate].  The loop ranges over a Go map, whose iteration
    order is not specified: [range_order] is the order in which the run
    time visits the entries (a permutation of them), and [now] is what
    [time.Now()] returns. *)
Definition RenderPathTemplate
    (range_order : list (string * string) -> list (string * string)) (now : Time)
    (template roomName user filename : string) (eventTime : Time) : string :=
  let eventTime := if IsZero eventTime then now else eventTime in
  let result :=
    fold_left replace_entry
      (range_order (replacements roomName user filename eventTime)) template in
  GoPath.Clean result.

(** An iteration order of a Go map: every entry once. *)
Definition is_range_order (range_order : list (string * string) -> list (string * string)) : Prop :=
  forall entries, Permutation (range_order entries) entries.

Definition SanitizePathSegment (value : string) : string :=
  let value := TrimSpace value in
  let value := ReplaceAll value "/" "_" in
  let value := ReplaceAll value "\" "_" in
  let value := ReplaceAll value ":" "_" in
  let value := ReplaceAll value ".." "_" in
  if String.eqb value "" then "unknown" else value.

Definition MatrixUserLocalpart (userID : string) : string :=
  let userID := TrimSpace userID in
  let userID := TrimPrefix userID "@" in
  match SplitN userID ":" 2 with
  | p0 :: _ => if negb (String.eqb p0 "") then p0 else userID
  | [] => userID
  end.

Definition GenerateNextcloudWebLink (webURL filePath : string) : string :=
  if String.eqb webURL "" then ""
  else
    let cleanPath := GoPath.Clean filePath in
    let dir := GoPath.Dir cleanPath in
    let filename := GoPath.Base cleanPath in
    let webURL := TrimRight webURL "/" in
    webURL +:+ "/apps/files/?dir=" +:+ dir +:+ "&scrollto=" +:+ filename.

(** media_id.go *)

Record MediaRef := mkMediaRef { Path : string; FileName : string; MimeType : string }.

Inductive error := ErrInvalidMediaID.

(** [json.Marshal(ref)]: the fields in declaration order under their tags.
    The encoder returns no error for a struct of strings. *)
Definition marshal_MediaRef (ref : MediaRef) : string :=
  "{" +:+ Json.key "path" +:+ Json.quote (Path ref)
  +:+ "," +:+ Json.key "file_name" +:+ Json.quote (FileName ref)
  +:+ "," +:+ Json.key "mime_type" +:+ Json.quote (MimeType ref) +:+ "}".

(** [json.Unmarshal(payload, &ref)] on a zero [MediaRef]. *)
Definition unmarshal_MediaRef (payload : string) : option MediaRef :=
  match Json.unmarshal_strings ["path"; "file_name"; "mime_type"] payload with
  | None => None
  | Some fs =>
    Some (mkMediaRef (Json.field "path" fs) (Json.field "file_name" fs)
            (Json.field "mime_type" fs))
  end.

Definition signMediaID (secret payload : string) : string :=
  Base64.EncodeToString (Sha256.HMAC secret payload).

Definition EncodeMediaID (secret : string) (ref : MediaRef) : string :=
  let payload := marshal_MediaRef ref in
  let encoded := Base64.EncodeToString payload in
  let signature := signMediaID secret encoded in
  encoded +:+ "_" +:+ signature.

Definition DecodeMediaID (secret mediaID : string) : error + MediaRef :=
  match SplitN mediaID "_" 2 with
  | [part0; part1] =>
    if negb (Sha256.Equal (signMediaID secret part0) part1) then inl ErrInvalidMediaID
    else
      match Base64.DecodeString part0 with
      | None => inl ErrInvalidMediaID
      | Some payload =>
        match unmarshal_MediaRef payload with
        | None => inl ErrInvalidMediaID
        | Some ref =>
          if String.eqb (Path ref) "" then inl ErrInvalidMediaID else inr ref
        end
      end
  | _ => inl ErrInvalidMediaID
  end.

(** [SignBytes] returns a base64url-encoded HMAC-SHA256 signature for the
    payload; [VerifyBytes] verifies one. *)
Definition SignBytes (secret payload : string) : string :=
  Base64.EncodeToString (Sha256.HMAC secret payload).

Definition VerifyBytes (secret payload signature : string) : bool :=
  Sha256.Equal (SignBytes secret payload) signature.

End Utils.


(** * Package handlers *)

Module Handlers.
Import GoStrings.

(** ** The data of the transport library that the handlers touch *)

(** [event.FileInfo]: the fields the handler reads or writes. *)
Record FileInfo := mkFileInfo { fiMimeType : string; fiSize : Z }.

(** [event.EncryptedFileInfo]: its URL; the key material stays with the
    decryption of the library. *)
Record EncryptedFileInfo := mkEncryptedFileInfo { efURL : string; efKey : string }.

Record RelatesTo := mkRelatesTo { relType : string; relEventID : string }.

Definition RelReplace : string := "m.replace".

Inductive MessageEventContent :=
| mkContent (MsgType Body FileName URL : string) (Info : option FileInfo)
    (File : option EncryptedFileInfo) (Relates : option RelatesTo)
    (NewContent : option MessageEventContent).

Definition MsgType (m : MessageEventContent) : string := let 'mkContent t _ _ _ _ _ _ _ := m in t.
Definition Body (m : MessageEventContent) : string := let 'mkContent _ b _ _ _ _ _ _ := m in b.
Definition FileName (m : MessageEventContent) : string := let 'mkContent _ _ f _ _ _ _ _ := m in f.
Definition URL (m : MessageEventContent) : string := let 'mkContent _ _ _ u _ _ _ _ := m in u.
Definition Info (m : MessageEventContent) : option FileInfo := let 'mkContent _ _ _ _ i _ _ _ := m in i.
Definition File (m : MessageEventContent) : option EncryptedFileInfo := let 'mkContent _ _ _ _ _ f _ _ := m in f.
Definition Relates (m : MessageEventContent) : option RelatesTo := let 'mkContent _ _ _ _ _ _ r _ := m in r.
Definition NewContent (m : MessageEventContent) : option MessageEventContent :=
  let 'mkContent _ _ _ _ _ _ _ n := m in n.

(** [GetFileName]: the file name, or the body when there is none. *)
Definition GetFileName (m : MessageEventContent) : string :=
  if negb (String.eqb (FileName m) "") then FileName m else Body m.

Inductive EventType := EventRedaction | EventMessage | EventOther (name : string).

(** What [Content.ParseRaw] leaves in the content of an event. *)
Inductive Content :=
| Unparsed                                   (* ParseRaw returned an error *)
| Message (m : MessageEventContent)
| Redaction (redacts : string)
| OtherContent.

Definition AsMessage (c : Content) : option MessageEventContent :=
  match c with Message m => Some m | _ => None end.

Definition AsRedaction (c : Content) : option string :=
  match c with Redaction r => Some r | _ => None end.

Record Event := mkEvent {
  evType : EventType;
  evSender : string;
  evRoomID : string;
  evID : string;
  evTimestamp : Z;
  evRedacts : string;
  evContent : Content }.

(** [id.ContentURI] and its [String] method. *)
Record ContentURI := mkContentURI { Homeserver : string; FileID : string }.

Definition ContentURI_String (u : ContentURI) : string :=
  "mxc://" +:+ Homeserver u +:+ "/" +:+ FileID u.

(** The state event of the bridge. *)
Record mediaState := mkMediaState {
  msPath : string; msFileName : string; msMXC : string; msSignature : string }.

(** ** Errors *)

Inductive goerror :=
| RequestFailed                       (* the error of a failed request *)
| LibraryError                        (* the error of a call into the transport library *)
| UnexpectedStatus (code : Z)         (* "unexpected status code: %d" *)
| NoFreeName (path : string)          (* "failed to find available filename for %s" *)
| Wrapped (context : string) (cause : goerror).   (* fmt.Errorf("...: %w", err) *)

(** ** The outside world *)

(** The requests the handlers send: to the storage server and to the
    homeserver. *)
Inductive Call :=
| MKCOL (remotePath : string)
| PUT (remotePath body : string) (contentLength : Z)
| HEAD (remotePath : string)
| DELETE (remotePath : string)
| Download (uri : ContentURI)
| SendMessageEvent (sender roomID : string) (content : MessageEventContent)
| SendStateEvent (roomID stateKey : string) (content : mediaState)
| StateEvent (roomID stateKey : string)
| AdminDeleteMedia (url : string).

(** What comes back: whether the request failed, and for one that did not
    the status, the headers and the body the handlers read, or the decoded
    state event. *)
Record Response := mkResponse {
  failed : bool;
  status : Z;
  hdrContentLength : string;
  hdrContentType : string;
  body : string;
  bodyFailed : bool;                  (* reading the body returns an error *)
  state : mediaState }.

(** The world answers a request knowing all requests made before. *)
Definition Env : Type := list Call -> Call -> Response.

(** The state the handlers thread: the requests made so far, and the
    directory cache of the storage client. *)
Record World := mkWorld { trace : list Call; dirCache : gset string }.

(** A computation with a result. *)
Definition Run (A : Type) : Type := World -> A * World.

(** The body of a function that returns an [R]: it either returns early
    with its [R], or goes on with an [A]. *)
Definition Code (R A : Type) : Type := World -> (R + A) * World.

Definition ret {R A} (a : A) : Code R A := fun w => (inr a, w).

Definition Return {R A} (r : R) : Code R A := fun w => (inl r, w).

Definition bind {R A B} (m : Code R A) (k : A -> Code R B) : Code R B :=
  fun w =>
    match m w with
    | (inl r, w') => (inl r, w')
    | (inr a, w') => k a w'
    end.

Definition lift {R A} (m : Run A) : Code R A :=
  fun w => let '(a, w') := m w in (inr a, w').

(** A function: its body run to the value it returns. *)
Definition func {R} (b : Code R R) : Run R :=
  fun w =>
    match b w with
    | (inl r, w') => (r, w')
    | (inr r, w') => (r, w')
    end.

Definition when {R} (c : bool) (m : Code R unit) : Code R unit :=
  if c then m else ret tt.

Declare Scope go_scope.
Delimit Scope go_scope with go.
Notation "x <- m ;; k" := (bind m (fun x => k))
  (at level 100, m at next level, right associativity) : go_scope.
Notation "m ;;; k" := (bind m (fun _ => k))
  (at level 100, right associativity) : go_scope.
Local Open Scope go_scope.

Section Handlers.

Variable env : Env.

(** One request: the answer of the world, and the request recorded. *)
Definition request (c : Call) : Run Response :=
  fun w => (env (trace w) c, mkWorld (trace w ++ [c]) (dirCache w)).

(** ** nextcloud_client.go

    Requests are recorded with the remote path they are made for;
    [buildURL] maps it to the URL (the path without leading slashes, each
    segment escaped). *)

Definition StatusOK : Z := 200.
Definition StatusCreated : Z := 201.
Definition StatusNoContent : Z := 204.
Definition StatusNotFound : Z := 404.
Definition StatusMethodNotAllowed : Z := 405.
Definition StatusConflict : Z := 409.

Definition CreateDirectory (remotePath : string) : Run (option goerror) :=
  func (
    cached <- (fun w => (inr (bool_decide (remotePath ∈ dirCache w)), w)) ;;
    when cached (Return None) ;;;
    resp <- lift (request (MKCOL remotePath)) ;;
    when (failed resp) (Return (Some (Wrapped "failed to create directory" RequestFailed))) ;;;
    when (negb (status resp =? StatusCreated) && negb (status resp =? StatusConflict)
          && negb (status resp =? StatusMethodNotAllowed))
      (Return (Some (UnexpectedStatus (status resp)))) ;;;
    (fun w => (inr tt, mkWorld (trace w) ({[remotePath]} ∪ dirCache w))) ;;;
    Return None).

Definition UploadReader (remotePath body : string) (contentLength : Z) : Run (option goerror) :=
  func (
    resp <- lift (request (PUT remotePath body contentLength)) ;;
    when (failed resp) (Return (Some (Wrapped "failed to upload file" RequestFailed))) ;;;
    when (negb (status resp =? StatusCreated) && negb (status resp =? StatusNoContent))
      (Return (Some (UnexpectedStatus (status resp)))) ;;;
    Return None).

Definition Stat (remotePath : string) : Run (bool * Z * option goerror) :=
  func (
    resp <- lift (request (HEAD remotePath)) ;;
    when (failed resp) (Return (false, 0, Some (Wrapped "failed to stat file" RequestFailed))) ;;;
    when (status resp =? StatusNotFound) (Return (false, 0, None)) ;;;
    when (negb (status resp =? StatusOK) && negb (status resp =? StatusNoContent))
      (Return (false, 0, Some (UnexpectedStatus (status resp)))) ;;;
    let contentLength :=
      if negb (String.eqb (hdrContentLength resp) "") then
        match Fmt.ParseInt64 (hdrContentLength resp) with
        | Some parsed => parsed
        | None => -1
        end
      else -1 in
    Return (true, contentLength, None)).

Definition DeleteFile (remotePath : string) : Run (option goerror) :=
  func (
    resp <- lift (request (DELETE remotePath)) ;;
    when (failed resp) (Return (Some (Wrapped "failed to delete file" RequestFailed))) ;;;
    when (status resp =? StatusNotFound) (Return None) ;;;
    when (negb (status resp =? StatusOK) && negb (status resp =? StatusNoContent))
      (Return (Some (UnexpectedStatus (status resp)))) ;;;
    Return None).

(** The loop of [EnsureDirectories] over the remaining segments. *)
Fixpoint ensure_dirs (dirs : list string) (current : string) : Code (option goerror) unit :=
  match dirs with
  | [] => ret tt
  | dir :: rest =>
    if String.eqb dir "." || String.eqb dir "" then ensure_dirs rest current
    else
      let current := if String.eqb current "" then dir else current +:+ "/" +:+ dir in
      err <- lift (CreateDirectory current) ;;
      match err with
      | Some e => Return (Some e)
      | None => ensure_dirs rest current
      end
  end.

Definition EnsureDirectories (remotePath : string) : Run (option goerror) :=
  func (
    let trimmed := TrimLeft remotePath "/" in
    let dirs := Split (GoPath.Dir trimmed) "/" in
    ensure_dirs dirs "" ;;;
    Return None).

(** ** media_handler.go *)

Record Config := mkConfig {
  NextcloudWebURL : string;
  NextcloudDisableWebLink : bool;
  MatrixHomeserverURL : string;
  MatrixRoomPathTemplate : gmap string string;
  MatrixAdminEnabled : bool;
  MatrixAdminAccessToken : string;
  MediaProxyServerName : string }.

(** The handler: its configuration, the secret, the identity of the bot of
    the appservice, and whether a crypto helper is set.  Its storage client
    is the world's storage server with the directory cache. *)
Record MediaHandler := mkMediaHandler {
  config : Config;
  mediaIDSecret : string;
  BotMXID : string;
  cryptoHelper : bool }.

(** Functions of the transport library and of the run time that the
    handler calls: which message types are media, the parsing of a content
    URI, the decryption of an attachment, the clock, and the order in which
    a map is ranged over. *)
Variable IsMedia : string -> bool.
Variable ParseContentURI : string -> option ContentURI.
Variable PrepareForDecryption : EncryptedFileInfo -> bool.
Variable DecryptFile : EncryptedFileInfo -> string -> option string.
Variable now : GoTime.Time.
Variable range_order : list (string * string) -> list (string * string).

(** [json.Marshal(state)]: the file name and the pointer are left out when
    empty. *)
Definition marshal_mediaState (st : mediaState) : string :=
  "{" +:+ Json.key "path" +:+ Json.quote (msPath st)
  +:+ (if String.eqb (msFileName st) "" then ""
       else "," +:+ Json.key "filename" +:+ Json.quote (msFileName st))
  +:+ (if String.eqb (msMXC st) "" then ""
       else "," +:+ Json.key "mxc" +:+ Json.quote (msMXC st))
  +:+ "," +:+ Json.key "signature" +:+ Json.quote (msSignature st) +:+ "}".

Definition clear_signature (st : mediaState) : mediaState :=
  mkMediaState (msPath st) (msFileName st) (msMXC st) "".

(** The encoder returns no error for this struct: the error results of
    [signMediaState] and [verifyMediaState] are always nil. *)
Definition signMediaState (h : MediaHandler) (st : mediaState) : string :=
  let st := clear_signature st in
  let payload := marshal_mediaState st in
  Utils.SignBytes (mediaIDSecret h) payload.

Definition verifyMediaState (h : MediaHandler) (st : mediaState) : bool :=
  if String.eqb (msSignature st) "" then false
  else
    let signature := msSignature st in
    let st := clear_signature st in
    let payload := marshal_mediaState st in
    Utils.VerifyBytes (mediaIDSecret h) payload signature.

Definition getRoomName (roomID : string) : string := TrimPrefix roomID "!".

Definition addCounterSuffix (remotePath : string) (counter : Z) : string * string :=
  let dir := GoPath.Dir remotePath in
  let base := GoPath.Base remotePath in
  let ext := GoPath.Ext base in
  let name := TrimSuffix base ext in
  let newBase := name +:+ "_" +:+ Fmt.itoa counter +:+ ext in
  if String.eqb dir "." then (newBase, newBase)
  else
    let newPath := GoPath.Join [dir; newBase] in
    let newPath :=
      if HasPrefix remotePath "/" && negb (HasPrefix newPath "/")
      then "/" +:+ newPath else newPath in
    (newPath, newBase).

Definition storeMediaState (h : MediaHandler) (roomID eventID filePath filename mxc : string)
  : Run unit :=
  func (
    let content := mkMediaState filePath filename mxc "" in
    let signature := signMediaState h content in
    let content := mkMediaState filePath filename mxc signature in
    _ <- lift (request (SendStateEvent roomID eventID content)) ;;
    Return tt).

Definition deleteFromStateEvent (h : MediaHandler) (roomID eventID : string)
  : Run (option goerror) :=
  func (
    resp <- lift (request (StateEvent roomID eventID)) ;;
    when (failed resp) (Return None) ;;;
    let st := state resp in
    when (String.eqb (msPath st) "") (Return None) ;;;
    when (String.eqb (msSignature st) "") (Return None) ;;;
    when (negb (verifyMediaState h st)) (Return None) ;;;
    err <- lift (DeleteFile (msPath st)) ;;
    match err with
    | Some e => Return (Some (Wrapped ("failed to delete Nextcloud file " +:+ msPath st) e))
    | None => Return None
    end).

Definition handleRedactionEvent (h : MediaHandler) (evt : Event) : Run (option goerror) :=
  func (
    when (match evContent evt with Unparsed => true | _ => false end) (Return None) ;;;
    let redacts := evRedacts evt in
    let redacts :=
      match AsRedaction (evContent evt) with
      | Some r => if negb (String.eqb r "") then r else redacts
      | None => redacts
      end in
    when (String.eqb redacts "") (Return None) ;;;
    lift (deleteFromStateEvent h (evRoomID evt) redacts)).

(** [deleteLocalMedia] deletes media from the homeserver with the admin
    API. *)
Definition deleteLocalMedia (h : MediaHandler) (serverName mediaID : string)
  : Run (option goerror) :=
  func (
    when (negb (MatrixAdminEnabled (config h))) (Return None) ;;;
    when (String.eqb (MatrixAdminAccessToken (config h)) "") (Return None) ;;;
    let deleteURL :=
      TrimRight (MatrixHomeserverURL (config h)) "/" +:+ "/_synapse/admin/v1/media/"
      +:+ serverName +:+ "/" +:+ mediaID in
    resp <- lift (request (AdminDeleteMedia deleteURL)) ;;
    when (failed resp) (Return (Some (Wrapped "failed to delete media" RequestFailed))) ;;;
    when (negb (status resp =? StatusOK)) (Return (Some (UnexpectedStatus (status resp)))) ;;;
    Return None).

(** *** The steps of [HandleMatrixEvent] *)

Definition info_mime (msg : MessageEventContent) (fallback : string) : string :=
  match Info msg with
  | Some i => if negb (String.eqb (fiMimeType i) "") then fiMimeType i else fallback
  | None => fallback
  end.

(** Acquiring the bytes: the media data, the parsed URL and the MIME type,
    for encrypted and for unencrypted media. *)
Definition acquire (h : MediaHandler) (evt : Event) (msg : MessageEventContent)
  : Code (option goerror) (string * ContentURI * string) :=
  match File msg with
  | Some file =>
    when (negb (cryptoHelper h)) (Return None) ;;;
    match ParseContentURI (efURL file) with
    | None => Return (Some (Wrapped "failed to parse encrypted media URL" LibraryError))
    | Some parsedURL =>
      encryptedResp <- lift (request (Download parsedURL)) ;;
      when (failed encryptedResp)
        (Return (Some (Wrapped "failed to download encrypted media" RequestFailed))) ;;;
      when (bodyFailed encryptedResp)
        (Return (Some (Wrapped "failed to read encrypted media" RequestFailed))) ;;;
      let encryptedData := body encryptedResp in
      when (negb (PrepareForDecryption file))
        (Return (Some (Wrapped "failed to prepare for decryption" LibraryError))) ;;;
      match DecryptFile file encryptedData with
      | None => Return (Some (Wrapped "failed to decrypt media file" LibraryError))
      | Some mediaData => ret (mediaData, parsedURL, info_mime msg "")
      end
    end
  | None =>
    when (String.eqb (URL msg) "") (Return None) ;;;
    match ParseContentURI (URL msg) with
    | None => Return (Some (Wrapped "failed to parse media URL" LibraryError))
    | Some parsedURL =>
      when (String.eqb (Homeserver parsedURL) (MediaProxyServerName (config h))
            && match Utils.DecodeMediaID (mediaIDSecret h) (FileID parsedURL) with
               | inr _ => true
               | inl _ => false
               end)
        (Return None) ;;;
      resp <- lift (request (Download parsedURL)) ;;
      when (failed resp) (Return (Some (Wrapped "failed to download media" RequestFailed))) ;;;
      when (bodyFailed resp) (Return (Some (Wrapped "failed to read media" RequestFailed))) ;;;
      let mediaData := body resp in
      ret (mediaData, parsedURL, info_mime msg (hdrContentType resp))
    end
  end.

(** The loop over the counters [i], [i + 1], ... of the candidates, with
    [remaining] iterations to go: the first candidate that is not there, or
    the path and name left unchanged when the loop runs out. *)
Fixpoint find_free (remaining : nat) (i : Z) (nextcloudPath filename : string)
  : Code (option goerror) (string * string) :=
  match remaining with
  | O => ret (nextcloudPath, filename)
  | S k =>
    let '(candidatePath, candidateName) := addCounterSuffix nextcloudPath i in
    st <- lift (Stat candidatePath) ;;
    let '(exists_, _, err) := st in
    match err with
    | Some e => Return (Some (Wrapped "failed to check existing file" e))
    | None =>
      if negb exists_ then ret (candidatePath, candidateName)
      else find_free k (i + 1) nextcloudPath filename
    end
  end.

(** Placement: the final path and file name, and whether an upload is
    needed. *)
Definition place (nextcloudPath filename : string) (contentLength : Z)
  : Code (option goerror) (string * string * bool) :=
  st <- lift (Stat nextcloudPath) ;;
  let '(exists_, size, err) := st in
  match err with
  | Some e => Return (Some (Wrapped "failed to check existing file" e))
  | None =>
    if exists_ then
      if (0 <? contentLength) && (size =? contentLength)
      then ret (nextcloudPath, filename, false)
      else
        found <- find_free 1000 1 nextcloudPath filename ;;
        let '(finalPath, finalFilename) := found in
        when (String.eqb finalPath nextcloudPath) (Return (Some (NoFreeName nextcloudPath))) ;;;
        ret (finalPath, finalFilename, true)
    else ret (nextcloudPath, filename, true)
  end.

(** Placement and the upload to the final path, unless it is skipped. *)
Definition place_and_upload (nextcloudPath filename mediaData : string)
  : Code (option goerror) (string * string) :=
  let contentLength := Z.of_nat (String.length mediaData) in
  placed <- place nextcloudPath filename contentLength ;;
  let '(finalPath, finalFilename, uploadNeeded) := placed in
  when uploadNeeded
    (err <- lift (UploadReader finalPath mediaData contentLength) ;;
     match err with
     | Some e => Return (Some (Wrapped "failed to upload to nextcloud" e))
     | None => ret tt
     end) ;;;
  ret (finalPath, finalFilename).

(** The edit of the original message and what follows it. *)
Definition rewrite (h : MediaHandler) (evt : Event) (msg : MessageEventContent)
    (filename finalPath finalFilename mimeType : string) (contentLength : Z)
    (parsedURL : ContentURI) : Code (option goerror) unit :=
  let mediaID :=
    Utils.EncodeMediaID (mediaIDSecret h)
      (Utils.mkMediaRef (TrimLeft finalPath "/") finalFilename mimeType) in
  let mxc := ContentURI_String (mkContentURI (MediaProxyServerName (config h)) mediaID) in
  let newInfo := match Info msg with Some i => i | None => mkFileInfo "" 0 end in
  let newInfo := mkFileInfo mimeType (fiSize newInfo) in
  let newInfo :=
    if 0 <? contentLength then mkFileInfo (fiMimeType newInfo) contentLength else newInfo in
  let nextcloudLink :=
    if negb (String.eqb (NextcloudWebURL (config h)) "")
       && negb (NextcloudDisableWebLink (config h))
    then Utils.GenerateNextcloudWebLink (NextcloudWebURL (config h)) finalPath
    else "" in
  let editedBody := Body msg in
  let editedBody := if String.eqb editedBody filename then "" else editedBody in
  let editedBody :=
    if negb (String.eqb nextcloudLink "")
    then editedBody +:+ String "010"%char (String "010"%char "View in Nextcloud: ") +:+ nextcloudLink
    else editedBody in
  let editContent :=
    mkContent (MsgType msg) ("* " +:+ editedBody) finalFilename mxc (Some newInfo) None
      (Some (mkRelatesTo RelReplace (evID evt)))
      (Some (mkContent (MsgType msg) editedBody finalFilename mxc (Some newInfo) None None None)) in
  resp <- lift (request (SendMessageEvent (evSender evt) (evRoomID evt) editContent)) ;;
  when (failed resp) (Return None) ;;;
  lift (storeMediaState h (evRoomID evt) (evID evt) finalPath finalFilename mxc) ;;;
  when (MatrixAdminEnabled (config h))
    (_ <- lift (deleteLocalMedia h (Homeserver parsedURL) (FileID parsedURL)) ;; ret tt) ;;;
  ret tt.

Definition HandleMatrixEvent (h : MediaHandler) (evt : Event) : Run (option goerror) :=
  func (
    when (match evType evt with EventRedaction => true | _ => false end)
      (r <- lift (handleRedactionEvent h evt) ;; Return r) ;;;
    when (match evType evt with EventMessage => false | _ => true end) (Return None) ;;;
    when (String.eqb (evSender evt) (BotMXID h)) (Return None) ;;;
    match MatrixRoomPathTemplate (config h) !! evRoomID evt with
    | None => Return None
    | Some pathTemplate =>
      when (match evContent evt with Unparsed => true | _ => false end) (Return None) ;;;
      match AsMessage (evContent evt) with
      | None => Return None
      | Some msg =>
        when (negb (IsMedia (MsgType msg))) (Return None) ;;;
        when (match Relates msg with
              | Some r => String.eqb (relType r) RelReplace
              | None => false
              end) (Return None) ;;;
        acquired <- acquire h evt msg ;;
        let '(mediaData, parsedURL, mimeType) := acquired in
        let filename := GetFileName msg in
        let filename :=
          if String.eqb filename "" then "file_" +:+ Fmt.itoa (GoTime.unixSec now)
          else filename in
        let roomName := getRoomName (evRoomID evt) in
        let roomSegment := Utils.SanitizePathSegment roomName in
        let userSegment := Utils.SanitizePathSegment (Utils.MatrixUserLocalpart (evSender evt)) in
        let fileSegment := Utils.SanitizePathSegment filename in
        let eventTime := GoTime.UTC (GoTime.UnixMilli (evTimestamp evt)) in
        let nextcloudPath :=
          Utils.RenderPathTemplate range_order now pathTemplate roomSegment userSegment
            fileSegment eventTime in
        err <- lift (EnsureDirectories nextcloudPath) ;;
        match err with
        | Some e => Return (Some (Wrapped "failed to create directories" e))
        | None =>
          let contentLength := Z.of_nat (String.length mediaData) in
          placed <- place_and_upload nextcloudPath filename mediaData ;;
          let '(finalPath, finalFilename) := placed in
          rewrite h evt msg filename finalPath finalFilename mimeType contentLength parsedURL ;;;
          Return None
        end
      end
    end).

End Handlers.

End Handlers.


(** * Predicates and reference functions used in the statements *)

Module Props.
Import GoStrings.

(** [s] starts with a decimal digit. *)
Definition head_is_digit (s : string) : Prop :=
  match s with
  | String c _ => 48 <= byteZ c <= 57
  | EmptyString => False
  end.

(** Every byte of [s] satisfies [P]. *)
Fixpoint all_bytes (P : ascii -> bool) (s : string) : bool :=
  match s with
  | EmptyString => true
  | String c s' => P c && all_bytes P s'
  end.

(** Every byte [c] of [s] replaced by [d]. *)
Fixpoint subst_byte (c d : ascii) (s : string) : string :=
  match s with
  | EmptyString => EmptyString
  | String a s' => String (if ascii_eqb a c then d else a) (subst_byte c d s')
  end.

(** No byte of [s] is a slash. *)
Definition no_slash (s : string) : bool :=
  all_bytes (fun a => negb (ascii_eqb a GoPath.slash)) s.

(** A path prefix that a final element can follow: empty, or ending in a
    slash. *)
Definition dir_prefix (X : string) : Prop := X = "" \/ exists Y, X = Y +:+ "/".

(** The pieces of [s] between the separator bytes. *)
Fixpoint split_on (sep : ascii) (s : string) : list string :=
  match s with
  | EmptyString => [EmptyString]
  | String c s' =>
    if ascii_eqb c sep then EmptyString :: split_on sep s'
    else match split_on sep s' with
         | h :: t => String c h :: t
         | [] => [String c EmptyString]
         end
  end.

Definition starts_dot (s : string) : bool :=
  match s with String "."%char _ => true | _ => false end.

(** An iteration order that visits the last entry of the map first. *)
Definition last_first (entries : list (string * string)) : list (string * string) :=
  match rev entries with
  | [] => []
  | e :: before => e :: rev before
  end.

(** What a response to a HEAD request tells [Stat]. *)
Definition is_present (r : Handlers.Response) : bool :=
  negb (Handlers.failed r)
  && ((Handlers.status r =? 200) || (Handlers.status r =? 204)).

Definition is_absent (r : Handlers.Response) : bool :=
  negb (Handlers.failed r) && (Handlers.status r =? 404).

(** The size [Stat] reports for a file that is there. *)
Definition reported_size (r : Handlers.Response) : Z :=
  match Fmt.ParseInt64 (Handlers.hdrContentLength r) with
  | Some n => n
  | None => -1
  end.

(** The candidate paths of a rendered path, for the counters from [i]. *)
Definition candidate (p : string) (i : Z) : string := fst (Handlers.addCounterSuffix p i).
Definition candidate_name (p : string) (i : Z) : string := snd (Handlers.addCounterSuffix p i).

Fixpoint candidates (p : string) (i : Z) (n : nat) : list string :=
  match n with
  | O => []
  | S k => candidate p i :: candidates p (i + 1) k
  end.

(** The world after further requests. *)
Definition after (w : Handlers.World) (added : list Handlers.Call) : Handlers.World :=
  Handlers.mkWorld (Handlers.trace w ++ added) (Handlers.dirCache w).

(** The history when the candidate with offset [j] is asked for. *)
Definition probing (w : Handlers.World) (p : string) (i : Z) (j : nat) : list Handlers.Call :=
  Handlers.trace w ++ map Handlers.HEAD (candidates p i j).

(** What [UploadReader] makes of the answer to its request. *)
Definition upload_outcome (r : Handlers.Response) : option Handlers.goerror :=
  if Handlers.failed r then Some (Handlers.Wrapped "failed to upload file" Handlers.RequestFailed)
  else if (Handlers.status r =? 201) || (Handlers.status r =? 204) then None
  else Some (Handlers.UnexpectedStatus (Handlers.status r)).

Definition is_PUT (c : Handlers.Call) : bool :=
  match c with Handlers.PUT _ _ _ => true | _ => false end.

Definition is_storage_call (c : Handlers.Call) : bool :=
  match c with
  | Handlers.MKCOL _ | Handlers.PUT _ _ _ | Handlers.HEAD _ | Handlers.DELETE _ => true
  | _ => false
  end.

(** The requests that change what is stored or recorded for an event
    after its upload. *)
Definition is_cleanup_or_record (c : Handlers.Call) : bool :=
  match c with
  | Handlers.DELETE _ | Handlers.SendStateEvent _ _ _ | Handlers.AdminDeleteMedia _ => true
  | _ => false
  end.

Definition is_SendMessageEvent (c : Handlers.Call) : bool :=
  match c with Handlers.SendMessageEvent _ _ _ => true | _ => false end.

Definition is_placement_call (c : Handlers.Call) : bool :=
  match c with
  | Handlers.MKCOL _ | Handlers.PUT _ _ _ | Handlers.HEAD _ => true
  | _ => false
  end.

(** The requests before the edit of the message: fetching the media and
    placing it. *)
Definition is_fetch_or_place (c : Handlers.Call) : bool :=
  match c with Handlers.Download _ => true | _ => is_placement_call c end.

(** Every request a computation makes satisfies [P]. *)
Definition emits {X} (P : Handlers.Call -> Prop) (m : Handlers.World -> X * Handlers.World)
  : Prop :=
  forall w, exists added,
    Handlers.trace (snd (m w)) = (Handlers.trace w ++ added)%list /\ Forall P added.

Abbreviation fetching := (fun c => is_fetch_or_place c = true).
Abbreviation not_sending := (fun c => is_SendMessageEvent c = false).

(** The requests of a run that edits the message at most once: no edit
    at all, or fetching and placing, then the edit, then requests that are
    no edits; and when the edit fails nothing follows it and the run has
    [stopped]. *)
Definition edits_once (env : Handlers.Env) (w : Handlers.World) (stopped : Prop)
    (added : list Handlers.Call) : Prop :=
  Forall not_sending added
  \/ exists pre c post,
       added = (pre ++ c :: post)%list /\ is_SendMessageEvent c = true
       /\ Forall fetching pre /\ Forall not_sending post
       /\ (Handlers.failed (env (Handlers.trace w ++ pre)%list c) = true ->
           post = [] /\ stopped).

Definition shaped (env : Handlers.Env) {A} (m : Handlers.Code (option Handlers.goerror) A)
  : Prop :=
  forall w, exists added,
    Handlers.trace (snd (m w)) = (Handlers.trace w ++ added)%list
    /\ edits_once env w (fst (m w) = inl None) added.

(** What [DeleteFile] makes of the answer to its request. *)
Definition delete_outcome (r : Handlers.Response) : option Handlers.goerror :=
  if Handlers.failed r then Some (Handlers.Wrapped "failed to delete file" Handlers.RequestFailed)
  else if (Handlers.status r =? 404) || (Handlers.status r =? 200)
          || (Handlers.status r =? 204) then None
  else Some (Handlers.UnexpectedStatus (Handlers.status r)).

(** The answer to the lookup of the state event holds a record that passes
    the checks of [deleteFromStateEvent]. *)
Definition record_verifies (h : Handlers.MediaHandler) (answer : Handlers.Response) : bool :=
  negb (Handlers.failed answer)
  && negb (String.eqb (Handlers.msPath (Handlers.state answer)) "")
  && negb (String.eqb (Handlers.msSignature (Handlers.state answer)) "")
  && Handlers.verifyMediaState h (Handlers.state answer).

(** The same as a proposition: the lookup succeeded, path and signature are
    not empty, and the signature is the HMAC of the record's other fields. *)
Definition valid_record (h : Handlers.MediaHandler) (answer : Handlers.Response) : Prop :=
  Handlers.failed answer = false
  /\ Handlers.msPath (Handlers.state answer) <> ""
  /\ Handlers.msSignature (Handlers.state answer) <> ""
  /\ Handlers.msSignature (Handlers.state answer)
     = Utils.SignBytes (Handlers.mediaIDSecret h)
         (Handlers.marshal_mediaState
            (Handlers.mkMediaState (Handlers.msPath (Handlers.state answer)) (Handlers.msFileName (Handlers.state answer))
               (Handlers.msMXC (Handlers.state answer)) "")).

(** The event a redaction targets, when there is one: the [redacts] of the
    content when it is set, else that of the event. *)
Definition redaction_target (evt : Handlers.Event) : option string :=
  match Handlers.evContent evt with
  | Handlers.Unparsed => None
  | content =>
    let redacts :=
      match Handlers.AsRedaction content with
      | Some r => if negb (String.eqb r "") then r else Handlers.evRedacts evt
      | None => Handlers.evRedacts evt
      end in
    if String.eqb redacts "" then None else Some redacts
  end.

(** *** A storage server that keeps what it is sent

    The files of the server after a history of requests, by URL path (the
    remote path without leading slashes), and the server's answers. *)
Definition storage_key (remotePath : string) : string := TrimLeft remotePath "/".

Definition dav_step (files : gmap string string) (c : Handlers.Call) : gmap string string :=
  match c with
  | Handlers.PUT p b _ => <[storage_key p := b]> files
  | Handlers.DELETE p => delete (storage_key p) files
  | _ => files
  end.

Definition dav_files (history : list Handlers.Call) : gmap string string :=
  fold_left dav_step history ∅.

Definition http (code : Z) (contentLength : string) : Handlers.Response :=
  Handlers.mkResponse false code contentLength "" "" false
    (Handlers.mkMediaState "" "" "" "").

(** The answers of the server; requests to the homeserver are answered by
    [other]. *)
Definition dav (other : Handlers.Env) : Handlers.Env :=
  fun history c =>
    match c with
    | Handlers.HEAD p =>
      match dav_files history !! storage_key p with
      | Some b => http 200 (Fmt.itoa (Z.of_nat (String.length b)))
      | None => http 404 ""
      end
    | Handlers.PUT p _ _ =>
      match dav_files history !! storage_key p with
      | Some _ => http 204 ""
      | None => http 201 ""
      end
    | Handlers.MKCOL _ => http 201 ""
    | Handlers.DELETE p =>
      match dav_files history !! storage_key p with
      | Some _ => http 204 ""
      | None => http 404 ""
      end
    | _ => other history c
    end.

(** The tokens handed to the room: the media part of the pointer of each
    edit, as the test of the repository takes it from the message it
    receives. *)
Definition minted (server : string) (history : list Handlers.Call) : list string :=
  omap (fun c => match c with
                 | Handlers.SendMessageEvent _ _ content =>
                   Some (TrimPrefix (Handlers.URL content) ("mxc://" +:+ server +:+ "/"))
                 | _ => None
                 end) history.

(** A string that begins, or ends, with a white space rune. *)
Definition leads_space (s : string) : bool :=
  let '(r, n) := Utf8.DecodeRuneInString s in (0 <? n)%nat && Unicode.IsSpace r.

Definition trails_space (s : string) : bool :=
  let '(r, n) := Utf8.DecodeLastRuneInString s in (0 <? n)%nat && Unicode.IsSpace r.

(** A string that is a sequence of white space runes. *)
Inductive white : string -> Prop :=
| white_nil : white ""
| white_rune s : leads_space s = true ->
    white (drop_str (snd (Utf8.DecodeRuneInString s)) s) -> white s.

(** Strings that the encoder writes as they are: printable ASCII without
    the quote, the backslash, and '<', '>' and '&'. *)
Definition plain (s : string) : bool := all_bytes (fun c => Json.htmlSafe (byteZ c)) s.

(** Strings whose bytes never give the sextet 63: plain strings without
    '?' and DEL. *)
Definition safe_byte (c : ascii) : bool :=
  Json.htmlSafe (byteZ c) && negb (byteZ c =? 63) && negb (byteZ c =? 127).

Definition safe (s : string) : bool := all_bytes safe_byte s.

(** Bytes that never give the sextet 63. *)
Definition low_byte (c : ascii) : bool := (byteZ c <? 127) && negb (byteZ c =? 63).

End Props.


(** * A concrete setting: the values of the repository's test

    Stand-ins for the functions of the transport library, a homeserver
    that serves one attachment and accepts every request, the
    configuration with the room template of the specification, and the
    event of the test. *)

Module Scenario.
Import GoStrings Handlers Props.
Definition IsMedia (t : string) : bool :=
  String.eqb t "m.image" || String.eqb t "m.video" || String.eqb t "m.audio"
  || String.eqb t "m.file".

Definition ParseContentURI (uri : string) : option ContentURI :=
  if HasPrefix uri "mxc://" then
    match SplitN (drop_str 6 uri) "/" 2 with
    | [hs; fid] =>
      if String.eqb hs "" || String.eqb fid "" then None else Some (mkContentURI hs fid)
    | _ => None
    end
  else None.

Definition no_state : mediaState := mkMediaState "" "" "" "".

Definition homeserver (media contentType : string) : Env :=
  fun _ c =>
    match c with
    | Download _ => mkResponse false 200 "" contentType media false no_state
    | _ => mkResponse false 200 "" "" "" false no_state
    end.

Definition room : string := "!roomid:example.com".

Definition template : string := "/media/${year}/${room}/${user}/${file}".

Definition config : Config :=
  mkConfig "" false "https://matrix.example.com" {[ room := template ]}
    false "" "media.example.com".

Definition handler : MediaHandler := mkMediaHandler config "secret" "@bridge:example.com" false.

Definition image_event (name : string) : Event :=
  mkEvent EventMessage "@alice:example.com" room "$original"
    (GoTime.UnixMilliOf (GoTime.Date 2024 5 20 12 0 0)) ""
    (Message (mkContent "m.image" name "" "mxc://example.com/abc"
                (Some (mkFileInfo "image/jpeg" 0)) None None None)).

Definition clock : GoTime.Time := GoTime.Date 2026 1 1 0 0 0.

Definition handle (env : Env) (h : MediaHandler) (evt : Event) : Run (option goerror) :=
  HandleMatrixEvent env IsMedia ParseContentURI (fun _ => true) (fun _ data => Some data)
    clock (fun entries => entries) h evt.

Definition start : World := mkWorld [] ∅.

(** A homeserver that refuses the edit of a message. *)
Definition refusing_edits (inner : Env) : Env :=
  fun history c =>
    match c with
    | SendMessageEvent _ _ _ => mkResponse true 403 "" "" "" false no_state
    | _ => inner history c
    end.

(** The redaction of the event, and a homeserver that holds the state
    record [st] for it. *)
Definition redaction_event : Event :=
  mkEvent EventRedaction "@alice:example.com" room "$redaction"
    (GoTime.UnixMilliOf (GoTime.Date 2024 5 21 9 0 0)) "$original" (Redaction "$original").

Definition holding_state (st : mediaState) (inner : Env) : Env :=
  fun history c =>
    match c with
    | StateEvent _ _ => mkResponse false 200 "" "" "" false st
    | _ => inner history c
    end.

Definition stored_path : string := "/media/2024/roomid_example.com/alice/image.jpg".

Definition signed_record : mediaState :=
  let unsigned := mkMediaState stored_path "image.jpg" "mxc://media.example.com/token" "" in
  mkMediaState stored_path "image.jpg" "mxc://media.example.com/token"
    (signMediaState handler unsigned).

(** The scenario in a room [r], with a secret and a declared type of
    one's choice. *)
Definition config_of (r : string) : Config :=
  mkConfig "" false "https://matrix.example.com" {[ r := template ]}
    false "" "media.example.com".

Definition handler_of (secret r : string) : MediaHandler :=
  mkMediaHandler (config_of r) secret "@bridge:example.com" false.

Definition attachment (r name mime : string) : Event :=
  mkEvent EventMessage "@alice:example.com" r "$original"
    (GoTime.UnixMilliOf (GoTime.Date 2024 5 20 12 0 0)) ""
    (Message (mkContent "m.image" name "" "mxc://example.com/abc"
                (Some (mkFileInfo mime 0)) None None None)).

(** A room whose label holds a question mark. *)
Definition odd_room : string := "!roo?:example.com".
End Scenario.

(** * Further parts of the program *)

(** ** net/url: [PathEscape] *)
Module Url.
Local Open Scope Z_scope.

Definition is_alnum (b : Z) : bool :=
  ((97 <=? b) && (b <=? 122)) || ((65 <=? b) && (b <=? 90)) || ((48 <=? b) && (b <=? 57)).

(** [shouldEscape(c, encodePathSegment)]: letters, digits and "-_.~" are
    written as they are, and of the reserved characters "$&+:=@"; the
    reserved "/;,?" and every other byte are escaped. *)
Definition shouldEscape (c : ascii) : bool :=
  let b := byteZ c in
  if is_alnum b then false
  else if (b =? 45) || (b =? 95) || (b =? 46) || (b =? 126) then false
  else if (b =? 36) || (b =? 38) || (b =? 43) || (b =? 44) || (b =? 47) || (b =? 58)
          || (b =? 59) || (b =? 61) || (b =? 63) || (b =? 64)
  then (b =? 47) || (b =? 59) || (b =? 44) || (b =? 63)
  else true.

Definition upperhex (d : Z) : ascii :=
  if d <? 10 then ascii_of_Z (48 + d) else ascii_of_Z (55 + d).

Definition escape_byte (c : ascii) : string :=
  if shouldEscape c
  then String "%" (String (upperhex (Z.shiftr (byteZ c) 4))
                     (String (upperhex (Z.land (byteZ c) 15)) ""))
  else String c "".

(** [PathEscape]. *)
Fixpoint PathEscape (s : string) : string :=
  match s with
  | EmptyString => EmptyString
  | String c s' => escape_byte c +:+ PathEscape s'
  end.

End Url.

(** ** nextcloud_client.go: the URL of a remote path *)

Module NextcloudClient.
Import GoStrings.

(** [buildURL]. *)
Definition buildURL (BaseURL remotePath : string) : string :=
  let base := TrimRight BaseURL "/" in
  let trimmed := TrimLeft remotePath "/" in
  if String.eqb trimmed "" then base
  else
    let parts := Split trimmed "/" in
    let parts := map Url.PathEscape parts in
    base +:+ "/" +:+ GoStrings.Join parts "/".

End NextcloudClient.

(** * media_proxy.go *)
Module MediaProxy.
Import GoStrings Utils Handlers NextcloudClient.
Local Open Scope Z_scope.

(** The answer of the storage server to a GET: the transport failed, or
    a status with the Content-Type header, the length of the content
    and the body. *)
Record Answer := mkAnswer {
  transportFailed : bool;
  StatusCode : Z;
  HeaderContentType : string;
  ContentLength : Z;
  Body : string
}.

(** The storage server: its answer to a GET of a URL. *)
Definition Server := string -> Answer.

(** [DownloadFile], with the URLs it asks for. *)
Definition DownloadFile (BaseURL : string) (GET : Server) (remotePath : string)
  : list string * (goerror + Answer) :=
  let url := buildURL BaseURL remotePath in
  let resp := GET url in
  if transportFailed resp then ([url], inl (Wrapped "failed to download file" RequestFailed))
  else if negb (StatusCode resp =? 200) then ([url], inl (UnexpectedStatus (StatusCode resp)))
  else ([url], inr resp).

Inductive proxyerror :=
| ErrInvalidMediaIDSyntax
| StorageError (err : goerror).

Record GetMediaResponseData := mkGetMediaResponseData {
  Reader : string;
  ContentType : string;
  dataContentLength : Z
}.

(** The callback that [NewMediaProxy] hands to the proxy library, with
    the URLs it asks the storage server for. *)
Definition getMedia (secretKey BaseURL : string) (GET : Server) (mediaID : string)
  : list string * (proxyerror + GetMediaResponseData) :=
  match DecodeMediaID secretKey mediaID with
  | inl _ => ([], inl ErrInvalidMediaIDSyntax)
  | inr ref =>
    match DownloadFile BaseURL GET (Path ref) with
    | (asked, inl err) => (asked, inl (StorageError err))
    | (asked, inr resp) =>
      let contentType := MimeType ref in
      let contentType :=
        if String.eqb contentType "" then HeaderContentType resp else contentType in
      (asked, inr (mkGetMediaResponseData (Body resp) contentType (ContentLength resp)))
    end
  end.

End MediaProxy.

(** ** os: [Expand] *)
Module GoOs.
Import GoStrings.
Local Open Scope Z_scope.

Definition isShellSpecialVar (c : ascii) : bool := mem_byte c "*#$@!?-0123456789".

Definition isAlphaNum (c : ascii) : bool :=
  let b := byteZ c in
  (b =? 95) || ((48 <=? b) && (b <=? 57)) || ((97 <=? b) && (b <=? 122))
  || ((65 <=? b) && (b <=? 90)).

(** The index of the first '}' of [s], counted from [i]. *)
Fixpoint scan_brace (s : string) (i : nat) : option nat :=
  match s with
  | EmptyString => None
  | String c s' => if ascii_eqb c "}" then Some i else scan_brace s' (S i)
  end.

Fixpoint scan_alnum (s : string) : nat :=
  match s with
  | String c s' => if isAlphaNum c then S (scan_alnum s') else O
  | EmptyString => O
  end.

(** [getShellName]: the name that begins [s] and the number of bytes it
    takes.  The caller passes what follows a '$', which is not empty. *)
Definition getShellName (s : string) : string * nat :=
  match s with
  | EmptyString => (EmptyString, O)
  | String c r =>
    if ascii_eqb c "{" then
      if match r with
         | String c1 (String c2 _) => isShellSpecialVar c1 && ascii_eqb c2 "}"
         | _ => false
         end
      then (take_str 1 r, 3%nat)
      else
        match scan_brace r 1 with
        | Some i => if (i =? 1)%nat then (EmptyString, 2%nat) else (take_str (i - 1) r, S i)
        | None => (EmptyString, 1%nat)
        end
    else if isShellSpecialVar c then (String c EmptyString, 1%nat)
    else let i := scan_alnum s in (take_str i s, i)
  end.

(** [Expand]: [skip] counts the bytes of a name that are still to be
    passed over. *)
Fixpoint expand_from (skip : nat) (s : string) (mapping : string -> string) : string :=
  match s with
  | EmptyString => EmptyString
  | String c s' =>
    match skip with
    | S k => expand_from k s' mapping
    | O =>
      if ascii_eqb c "$" && negb (String.eqb s' "") then
        let '(name, w) := getShellName s' in
        (if String.eqb name "" then (if (0 <? w)%nat then EmptyString else String c EmptyString)
         else mapping name)
        +:+ expand_from w s' mapping
      else String c (expand_from 0 s' mapping)
    end
  end.

Definition Expand (s : string) (mapping : string -> string) : string :=
  expand_from 0 s mapping.

End GoOs.

(** * Package config *)
Module ConfigPkg.
Import GoStrings GoOs.

(** [expandEnvPreserveUnknown], for the environment [LookupEnv]. *)
Definition expandEnvPreserveUnknown (LookupEnv : string -> option string) (value : string)
  : string :=
  Expand value (fun key =>
    match LookupEnv key with
    | Some envValue => envValue
    | None => "${" +:+ key +:+ "}"
    end).

(** [parseRoomPathTemplate]. *)
Definition parseRoomPathTemplate (value : string) : gmap string string :=
  if String.eqb value "" then ∅
  else
    fold_left (fun result pair =>
                 match SplitN pair "=" 2 with
                 | [k; v] => <[TrimSpace k := TrimSpace v]> result
                 | _ => result
                 end)
      (Split value ",") ∅.

End ConfigPkg.

(** * Properties of the orchestrator's and the storage client's requests *)

Module HandlerProps.
Import GoStrings Handlers Props.
Local Open Scope Z_scope.

(** The requests a message event may lead to: no deletion from storage
    and no lookup of a state record, and the deletion of media on the
    homeserver only when the admin API is enabled with a token. *)
Definition message_call (h : MediaHandler) (c : Call) : bool :=
  match c with
  | DELETE _ | StateEvent _ _ => false
  | AdminDeleteMedia _ =>
    MatrixAdminEnabled (config h) && negb (String.eqb (MatrixAdminAccessToken (config h)) "")
  | _ => true
  end.

(** The requests a redaction may lead to. *)
Definition redaction_call (c : Call) : bool :=
  match c with
  | StateEvent _ _ | DELETE _ => true
  | _ => false
  end.

Definition permitted (h : MediaHandler) (evt : Event) (c : Call) : bool :=
  match evType evt with
  | EventRedaction => redaction_call c
  | EventMessage => message_call h c
  | EventOther _ => false
  end.

(** The messages a request sends are edits of the event, sent as its
    sender to its room, whose URL points to the media proxy; the state
    records it sends are stored for the event and verify under the
    secret of [h]. *)
Definition well_formed_send (h : MediaHandler) (evt : Event) (c : Call) : Prop :=
  match c with
  | SendMessageEvent sender roomID content =>
    sender = evSender evt /\ roomID = evRoomID evt
    /\ Relates content = Some (mkRelatesTo RelReplace (evID evt))
    /\ HasPrefix (URL content) ("mxc://" +:+ MediaProxyServerName (config h) +:+ "/") = true
  | SendStateEvent roomID stateKey st =>
    roomID = evRoomID evt /\ stateKey = evID evt /\ verifyMediaState h st = true
  | _ => True
  end.

(** A message that replaces the event, or a request that is no message. *)
Definition edit_of (evt : Event) (c : Call) : Prop :=
  match c with
  | SendMessageEvent _ _ content =>
    Relates content = Some (mkRelatesTo RelReplace (evID evt))
  | _ => True
  end.

(** The requests made before the message is edited, and those of a
    redaction. *)
Definition before_edit (c : Call) : bool := is_fetch_or_place c || redaction_call c.

(** Requests with at most one upload, which follows the question whether
    its path is there, answered with "not found". *)
Definition upload_shape (env : Env) (history added : list Call) : Prop :=
  Forall (fun c => is_PUT c = false) added
  \/ exists pre p b n post,
       added = (pre ++ HEAD p :: PUT p b n :: post)%list
       /\ Forall (fun c => is_PUT c = false) pre
       /\ Forall (fun c => is_PUT c = false) post
       /\ is_absent (env (history ++ pre)%list (HEAD p)) = true.

Definition uploads_carefully (env : Env) {X} (m : World -> X * World) : Prop :=
  forall w, exists added,
    trace (snd (m w)) = (trace w ++ added)%list /\ upload_shape env (trace w) added.

(** A computation that ends in an early return of "no error" or made
    only requests of the kinds before the edit. *)
Definition fails_early {A} (m : Code (option goerror) A) : Prop :=
  forall w, exists added,
    trace (snd (m w)) = (trace w ++ added)%list
    /\ (fst (m w) = inl None \/ Forall (fun c => before_edit c = true) added).

End HandlerProps.

Module StorageProps.
Import GoStrings Handlers Props.
Local Open Scope Z_scope.

(** An answer to MKCOL that [CreateDirectory] takes for success: created,
    or there already (409 and 405). *)
Definition mkcol_ok (r : Response) : bool :=
  negb (failed r)
  && ((status r =? 201) || (status r =? 409) || (status r =? 405)).

(** The directories [EnsureDirectories] goes through for the segments
    [dirs], starting below [current]. *)
Fixpoint prefixes (dirs : list string) (current : string) : list string :=
  match dirs with
  | [] => []
  | dir :: rest =>
    if String.eqb dir "." || String.eqb dir "" then prefixes rest current
    else
      let current := if String.eqb current "" then dir else current +:+ "/" +:+ dir in
      current :: prefixes rest current
  end.

(** The directories above the file at [remotePath], the topmost first. *)
Definition ancestors (remotePath : string) : list string :=
  prefixes (Split (GoPath.Dir (TrimLeft remotePath "/")) "/") "".

(** The requests for the directories [todo], up to the first that fails,
    with the world they leave and the error of the failure. *)
Fixpoint create_all (env : Env) (todo : list string) (w : World) : option goerror * World :=
  match todo with
  | [] => (None, w)
  | p :: rest =>
    if bool_decide (p ∈ dirCache w) then create_all env rest w
    else
      let r := env (trace w) (MKCOL p) in
      let w1 := mkWorld (trace w ++ [MKCOL p]) (dirCache w) in
      if failed r then (Some (Wrapped "failed to create directory" RequestFailed), w1)
      else if mkcol_ok r
           then create_all env rest (mkWorld (trace w ++ [MKCOL p]) ({[p]} ∪ dirCache w))
           else (Some (UnexpectedStatus (status r)), w1)
  end.

(** A directory or file name: not empty, no slash, not "." or "..". *)
Definition is_name (d : string) : bool :=
  negb (String.eqb d "") && negb (String.eqb d ".") && negb (String.eqb d "..")
  && no_slash d.

(** The paths [d1], [d1/d2], ... of nested directories. *)
Definition nested (ds : list string) : list string :=
  map (fun k => GoStrings.Join (take (S k) ds) "/") (seq 0 (length ds)).

End StorageProps.

Module UrlProps.
Import GoStrings.
Local Open Scope Z_scope.
(** The bytes of an escaped path: letters, digits, "-_.~", "$&+:=@", the
    '%' of an escape and the '/' between segments. *)
Definition url_byte (c : ascii) : bool :=
  mem_byte c "abcdefghijklmnopqrstuvwxyzABCDEFGHIJKLMNOPQRSTUVWXYZ0123456789-_.~$&+:=@%/".

(** The value of a hexadecimal digit. *)
Definition unhex (c : ascii) : Z :=
  let b := byteZ c in
  if (48 <=? b) && (b <=? 57) then b - 48 else b - 55.

(** What the escape of one byte looks like. *)
Definition escaped_well (c : ascii) : bool :=
  match Url.escape_byte c with
  | String x EmptyString =>
    ascii_eqb x c && negb (ascii_eqb c "%") && negb (ascii_eqb c "/") && url_byte c
  | String p (String x (String y EmptyString)) =>
    ascii_eqb p "%" && url_byte x && url_byte y
    && negb (ascii_eqb x "/") && negb (ascii_eqb y "/")
    && (16 * unhex x + unhex y =? byteZ c)
  | _ => false
  end.
End UrlProps.

Module ProxyProps.
Import Utils Handlers MediaProxy.
Local Open Scope Z_scope.
(** What the proxy makes of the answer to its request for [ref]. *)
Definition served (ref : MediaRef) (resp : Answer) : proxyerror + GetMediaResponseData :=
  if transportFailed resp then inl (StorageError (Wrapped "failed to download file" RequestFailed))
  else if StatusCode resp =? 200
       then inr (mkGetMediaResponseData (Body resp)
                   (if String.eqb (MimeType ref) "" then HeaderContentType resp
                    else MimeType ref)
                   (ContentLength resp))
       else inl (StorageError (UnexpectedStatus (StatusCode resp))).
End ProxyProps.

Module CacheProps.
Import Handlers StorageProps.
(** The server has accepted the creation of [d]: some MKCOL for it in
    the history was answered with 201, 405 or 409. *)
Definition accepted (env : Env) (history : list Call) (d : string) : Prop :=
  exists pre post,
    history = (pre ++ MKCOL d :: post)%list /\ mkcol_ok (env pre (MKCOL d)) = true.

(** Every directory in the cache has been accepted by the server. *)
Definition cache_sound (env : Env) (w : World) : Prop :=
  forall d, d ∈ dirCache w -> accepted env (trace w) d.
(** A computation that keeps the cache sound. *)
Definition keeps_cache (env : Env) {X} (m : World -> X * World) : Prop :=
  forall w, cache_sound env w -> cache_sound env (snd (m w)).

End CacheProps.

Module ConfigProps.
Import Props.
(** No byte of [s] is [c]. *)
Definition without (c : ascii) (s : string) : bool :=
  all_bytes (fun x => negb (ascii_eqb x c)) s.

(** The text of an entry of the room templates. *)
Definition entry_text (e : string * string) : string := fst e +:+ "=" +:+ snd e.
(** The environment of the repository's test of the configuration, with
    one more variable. *)
Definition test_environ (key : string) : option string :=
  if String.eqb key "NEXTCLOUD_PASSWORD" then Some "secret"
  else if String.eqb key "HOME" then Some "/root" else None.
End ConfigProps.

Module EditProps.
Import GoStrings Utils Handlers Props.
Local Open Scope Z_scope.
(** By the answers of the storage server to the last of the requests
    [added], the content [data] is at [fp]: a HEAD found a file of its
    size there, or a HEAD found nothing there and the PUT of [data] that
    followed was accepted. *)
Definition stored_at (env : Env) (history added : list Call) (fp data : string) : Prop :=
  let n := Z.of_nat (String.length data) in
  (exists pre,
     added = (pre ++ [HEAD fp])%list
     /\ is_present (env (history ++ pre)%list (HEAD fp)) = true
     /\ reported_size (env (history ++ pre)%list (HEAD fp)) = n /\ 0 < n)
  \/ (exists pre,
        added = (pre ++ [HEAD fp; PUT fp data n])%list
        /\ is_absent (env (history ++ pre)%list (HEAD fp)) = true
        /\ upload_outcome (env (history ++ pre ++ [HEAD fp])%list (PUT fp data n)) = None).

(** The bytes the handler takes from the answer to a download: its body,
    or what the body decrypts to. *)
Definition came_from (DecryptFile : EncryptedFileInfo -> string -> option string)
    (answer : Response) (data : string) : Prop :=
  data = body answer \/ exists file, DecryptFile file (body answer) = Some data.

(** An edit after the placement of [data], which points to it: its URL
    holds the media id of the path where the content is. *)
Definition placed_edit (env : Env) (h : MediaHandler) (data : string)
    (history added : list Call) : Prop :=
  exists mid sender room content post fp fn mime,
    added = (mid ++ SendMessageEvent sender room content :: post)%list
    /\ Forall (fun c => is_SendMessageEvent c = false) mid
    /\ Forall (fun c => is_SendMessageEvent c = false) post
    /\ stored_at env history mid fp data
    /\ URL content
       = "mxc://" +:+ MediaProxyServerName (config h) +:+ "/"
         +:+ EncodeMediaID (mediaIDSecret h) (mkMediaRef (TrimLeft fp "/") fn mime).

(** Requests without an edit, or with one edit that follows the
    download of the content and its placement, and points to it. *)
Definition edit_backed (env : Env)
    (DecryptFile : EncryptedFileInfo -> string -> option string) (h : MediaHandler)
    (history added : list Call) : Prop :=
  Forall (fun c => is_SendMessageEvent c = false) added
  \/ exists pre u rest data,
       added = (pre ++ Download u :: rest)%list
       /\ Forall (fun c => is_SendMessageEvent c = false) pre
       /\ came_from DecryptFile (env (history ++ pre)%list (Download u)) data
       /\ placed_edit env h data (history ++ pre ++ [Download u])%list rest.

Definition places_edit (env : Env) (h : MediaHandler) (data : string) {X}
    (m : World -> X * World) : Prop :=
  forall w, exists added,
    trace (snd (m w)) = (trace w ++ added)%list
    /\ (Forall (fun c => is_SendMessageEvent c = false) added
        \/ placed_edit env h data (trace w) added).

Definition backs_edits (env : Env)
    (DecryptFile : EncryptedFileInfo -> string -> option string) (h : MediaHandler) {X}
    (m : World -> X * World) : Prop :=
  forall w, exists added,
    trace (snd (m w)) = (trace w ++ added)%list /\ edit_backed env DecryptFile h (trace w) added.
End EditProps.

Module RecordProps.
Import GoStrings Utils Handlers Props.
Local Open Scope Z_scope.
(** A request that is neither an edit nor a state record. *)
Definition plain_call (c : Call) : bool :=
  match c with
  | SendMessageEvent _ _ _ | SendStateEvent _ _ _ => false
  | _ => true
  end.

(** The state record of the file at [fp] behind the URL [mxc]. *)
Definition record_of (h : MediaHandler) (fp fn mxc : string) : mediaState :=
  mkMediaState fp fn mxc (signMediaState h (mkMediaState fp fn mxc "")).

(** Requests without a state record, or with one, which follows the
    edit of the event at once and names the path and the URL of the
    edit. *)
Definition record_follows_edit (h : MediaHandler) (evt : Event) (added : list Call) : Prop :=
  Forall (fun c => match c with SendStateEvent _ _ _ => False | _ => True end) added
  \/ exists pre content post fp fn mime,
       added = (pre ++ SendMessageEvent (evSender evt) (evRoomID evt) content
                    :: SendStateEvent (evRoomID evt) (evID evt) (record_of h fp fn (URL content))
                    :: post)%list
       /\ Forall (fun c => plain_call c = true) pre
       /\ Forall (fun c => plain_call c = true) post
       /\ fp <> ""
       /\ URL content
          = "mxc://" +:+ MediaProxyServerName (config h) +:+ "/"
            +:+ EncodeMediaID (mediaIDSecret h) (mkMediaRef (TrimLeft fp "/") fn mime).

Definition records (h : MediaHandler) (evt : Event) {X} (m : World -> X * World) : Prop :=
  forall w, exists added,
    trace (snd (m w)) = (trace w ++ added)%list /\ record_follows_edit h evt added.
End RecordProps.

(** * Checks of the library models against the documented behaviour *)

Module GoStringsTests.
Import GoStrings.
Definition nbsp : string := String (ascii_of_Z 194) (String (ascii_of_Z 160) "").
Example trim1 : TrimSpace "  a b  " = "a b". Proof. reflexivity. Qed.
Example trim2 : TrimSpace (nbsp +:+ " x" +:+ nbsp +:+ nbsp) = "x". Proof. vm_compute. reflexivity. Qed.
Example trim3 : TrimSpace (" " +:+ String (ascii_of_Z 160) " ") = String (ascii_of_Z 160) "".
Proof. vm_compute. reflexivity. Qed.
Example repl1 : ReplaceAll "a...b...." ".." "_" = "a_.b__". Proof. reflexivity. Qed.
Example repl2 : ReplaceAll "a/b/c" "/" "_" = "a_b_c". Proof. reflexivity. Qed.
Example repl3 : ReplaceAll "ab" "" "-" = "-a-b-". Proof. reflexivity. Qed.
Example split1 : SplitN "a_b_c" "_" 2 = ["a"; "b_c"]. Proof. reflexivity. Qed.
Example split2 : SplitN "abc" "_" 2 = ["abc"]. Proof. reflexivity. Qed.
Example split3 : Split "a/b//c" "/" = ["a"; "b"; ""; "c"]. Proof. reflexivity. Qed.
Example split4 : Split "" "/" = [""]. Proof. reflexivity. Qed.
Example suf1 : TrimSuffix "image.jpg" ".jpg" = "image". Proof. reflexivity. Qed.
Example suf2 : TrimSuffix "image" "" = "image". Proof. reflexivity. Qed.
Example tl1 : TrimLeft "//a/b" "/" = "a/b". Proof. reflexivity. Qed.
Example tr1 : TrimRight "http://x//" "/" = "http://x". Proof. reflexivity. Qed.
End GoStringsTests.
Module GoPathTests.
Import GoPath.
Example clean_table :
  map Clean
    [""; "abc"; "abc/def"; "a/b/c"; "."; ".."; "../.."; "../../abc"; "/abc"; "/";
     "abc/"; "abc/def/"; "a/b/c/"; "./"; "../"; "../../"; "/abc/";
     "abc//def//ghi"; "//abc"; "///abc"; "//abc//"; "abc//";
     "abc/./def"; "/./abc/def"; "abc/.";
     "abc/def/ghi/../jkl"; "abc/def/../ghi/../jkl"; "abc/def/.."; "abc/def/../..";
     "/abc/def/../.."; "abc/def/../../.."; "/abc/def/../../..";
     "abc/def/../../../ghi/jkl/../../../mno";
     "abc/./../def"; "abc//./../def"; "abc/../../././../def"; "/../a"; "/.."]
  = ["."; "abc"; "abc/def"; "a/b/c"; "."; ".."; "../.."; "../../abc"; "/abc"; "/";
     "abc"; "abc/def"; "a/b/c"; "."; ".."; "../.."; "/abc";
     "abc/def/ghi"; "/abc"; "/abc"; "/abc"; "abc";
     "abc/def"; "/abc/def"; "abc";
     "abc/def/jkl"; "abc/jkl"; "abc"; ".";
     "/"; ".."; "/";
     "../../mno";
     "def"; "def"; "../../def"; "/a"; "/"].
Proof. vm_compute. reflexivity. Qed.

Example split_table :
  map SplitPath ["a/b"; "a/b/"; "a/"; "a"; "/"; ""; "static/myfile.css"]
  = [("a/", "b"); ("a/b/", ""); ("a/", ""); ("", "a"); ("/", ""); ("", "");
     ("static/", "myfile.css")].
Proof. vm_compute. reflexivity. Qed.

Example base_table :
  map Base [""; "."; "/."; "/"; "////"; "x/"; "abc"; "abc/def"; "a/b/.x"; "a/b/c."; "a/b/c.x"]
  = ["."; "."; "."; "/"; "/"; "x"; "abc"; "def"; ".x"; "c."; "c.x"].
Proof. vm_compute. reflexivity. Qed.

Example dir_table :
  map Dir [""; "."; "/."; "/"; "////"; "/foo"; "x/"; "abc"; "abc/def"; "abc////def"; "a/b/.x"; "a/b/c."; "a/b/c.x"]
  = ["."; "."; "/"; "/"; "/"; "/"; "x"; "."; "abc"; "abc"; "a/b"; "a/b"; "a/b"].
Proof. vm_compute. reflexivity. Qed.

Example ext_table :
  map Ext ["path.go"; "path.pb.go"; "a.dir/b"; "a.dir/b.go"; "a.dir/"; "."; "image"]
  = [".go"; ".go"; ""; ".go"; ""; "."; ""].
Proof. vm_compute. reflexivity. Qed.

Example join_table :
  map Join [[]; [""]; ["a"]; ["a"; "b"]; ["a"; ""]; [""; "b"]; ["/"; "a"]; ["/"; ""];
            ["a/"; "b"]; ["a/"; ""]; [""; ""]; ["/media/2024"; "x_1.jpg"]]
  = [""; ""; "a"; "a/b"; "a"; "b"; "/a"; "/"; "a/b"; "a"; ""; "/media/2024/x_1.jpg"].
Proof. vm_compute. reflexivity. Qed.
End GoPathTests.
Module UtilsTests.
Import GoTime Utils.
Example itoa_table :
  map Fmt.itoa [0; 7; 10; 2024; -5; 1716206400; 1000] = ["0"; "7"; "10"; "2024"; "-5"; "1716206400"; "1000"].
Proof. vm_compute. reflexivity. Qed.
Example itoa02_table : map Fmt.itoa02 [0; 5; 12; 31] = ["00"; "05"; "12"; "31"].
Proof. vm_compute. reflexivity. Qed.
Example parse_int_table :
  map Fmt.ParseInt64 ["10"; "-3"; "+7"; ""; "1x"; "9223372036854775808"; "-"]
  = [Some 10; Some (-3); Some 7; None; None; None; None].
Proof. vm_compute. reflexivity. Qed.
Example date_table :
  map (fun s => date (mkTime s 0 0))
    [0; 1716206400; 951782400; 951868800; -1; -62135596800; 4102444799]
  = [(1970, 1, 1); (2024, 5, 20); (2000, 2, 29); (2000, 3, 1); (1969, 12, 31); (1, 1, 1); (2099, 12, 31)].
Proof. vm_compute. reflexivity. Qed.
Example date_of_test : Date 2024 5 20 12 0 0 = mkTime 1716206400 0 0.
Proof. vm_compute. reflexivity. Qed.
Example sanitize_table :
  map SanitizePathSegment ["  a/b\c:d..e  "; ""; "   "; "..."; "roomid:example.com"; "${room}"]
  = ["a_b_c_d_e"; "unknown"; "unknown"; "_."; "roomid_example.com"; "${room}"].
Proof. vm_compute. reflexivity. Qed.
Example localpart_table :
  map MatrixUserLocalpart ["@alice:example.com"; "alice"; "@:x"; " @bob:hs:8448 "]
  = ["alice"; "alice"; ":x"; "bob"].
Proof. vm_compute. reflexivity. Qed.
Example render_test :
  RenderPathTemplate (fun l => l) (mkTime 0 0 0) "/media/${year}/${room}/${user}/${file}"
    "roomid_example.com" "alice" "image.jpg" (UTC (UnixMilli 1716206400000))
  = "/media/2024/roomid_example.com/alice/image.jpg".
Proof. vm_compute. reflexivity. Qed.
Example weblink_test :
  GenerateNextcloudWebLink "https://nc.example.com/" "/media/2024/r/alice/image.jpg"
  = "https://nc.example.com/apps/files/?dir=/media/2024/r/alice&scrollto=image.jpg".
Proof. vm_compute. reflexivity. Qed.
End UtilsTests.
Module Sha256Tests.
Import Sha256.
Example sha_abc :
  hex (Sum256 "abc") = "ba7816bf8f01cfea414140de5dae2223b00361a396177a9cb410ff61f20015ad".
Proof. vm_compute. reflexivity. Qed.
Example sha_empty :
  hex (Sum256 "") = "e3b0c44298fc1c149afbf4c8996fb92427ae41e4649b934ca495991b7852b855".
Proof. vm_compute. reflexivity. Qed.
Example sha_two_blocks :
  hex (Sum256 "abcdbcdecdefdefgefghfghighijhijkijkljklmklmnlmnomnopnopq")
  = "248d6a61d20638b8e5c026930c3e6039a33ce45964ff2167f6ecedd419db06c1".
Proof. vm_compute. reflexivity. Qed.
Example hmac_rfc4231_2 :
  hex (HMAC "Jefe" "what do ya want for nothing?")
  = "5bdcc146bf60754e6a042426089575c75a003f089d2739839dec58b964ec3843".
Proof. vm_compute. reflexivity. Qed.
End Sha256Tests.
Module Base64Tests.
Import Base64.
Example enc_table :
  map EncodeToString [""; "f"; "fo"; "foo"; "foob"; "fooba"; "foobar"; "a?"; "???"]
  = [""; "Zg"; "Zm8"; "Zm9v"; "Zm9vYg"; "Zm9vYmE"; "Zm9vYmFy"; "YT8"; "Pz8_"].
Proof. vm_compute. reflexivity. Qed.
Example dec_table :
  map DecodeString ["Zg"; "Zm8"; "Zm9v"; "Zm9vYmFy"; "Z"; "Zm9v="; "Pz8_"; "Zh"]
  = [Some "f"; Some "fo"; Some "foo"; Some "foobar"; None; None; Some "???"; Some "f"].
Proof. vm_compute. reflexivity. Qed.
End Base64Tests.
Module CodecTests.
Import Utils.
Definition q (s : string) : string := String Json.dq (s +:+ String Json.dq "").
Example marshal_test :
  marshal_MediaRef (mkMediaRef "media/2024/ostsee/alice/image.jpg" "image.jpg" "image/jpeg")
  = "{" +:+ q "path" +:+ ":" +:+ q "media/2024/ostsee/alice/image.jpg" +:+ ","
    +:+ q "file_name" +:+ ":" +:+ q "image.jpg" +:+ ","
    +:+ q "mime_type" +:+ ":" +:+ q "image/jpeg" +:+ "}".
Proof. vm_compute. reflexivity. Qed.
Definition b1 (n : Z) : string := String (ascii_of_Z n) "".
Definition bu (h : string) : string := "\" +:+ "u" +:+ h.
Example quote_table :
  map Json.quote
    ["a<b&c>"; "tab" +:+ b1 9 +:+ "nl" +:+ b1 10; "q" +:+ b1 34 +:+ "\"; b1 1 +:+ b1 127;
     b1 255 +:+ "x"; b1 195 +:+ b1 169; b1 226 +:+ b1 128 +:+ b1 168 +:+ "z"; b1 195]
  = [q ("a" +:+ bu "003c" +:+ "b" +:+ bu "0026" +:+ "c" +:+ bu "003e"); q "tab\tnl\n";
     q ("q\" +:+ b1 34 +:+ "\\"); q (bu "0001" +:+ b1 127);
     q (bu "fffd" +:+ "x"); q (b1 195 +:+ b1 169); q (bu "2028" +:+ "z"); q (bu "fffd")].
Proof. vm_compute. reflexivity. Qed.
Example encode_test :
  EncodeMediaID "secret" (mkMediaRef "media/2024/ostsee/alice/image.jpg" "image.jpg" "image/jpeg")
  = "eyJwYXRoIjoibWVkaWEvMjAyNC9vc3RzZWUvYWxpY2UvaW1hZ2UuanBnIiwiZmlsZV9uYW1lIjoiaW1hZ2UuanBnIiwibWltZV90eXBlIjoiaW1hZ2UvanBlZyJ9_ONGXolRx5geCN_71iW8vIETN9yi22fBNVzQgLbNe6gw".
Proof. vm_compute. reflexivity. Qed.
Example decode_test :
  DecodeMediaID "secret"
    "eyJwYXRoIjoibWVkaWEvMjAyNC9vc3RzZWUvYWxpY2UvaW1hZ2UuanBnIiwiZmlsZV9uYW1lIjoiaW1hZ2UuanBnIiwibWltZV90eXBlIjoiaW1hZ2UvanBlZyJ9_ONGXolRx5geCN_71iW8vIETN9yi22fBNVzQgLbNe6gw"
  = inr (mkMediaRef "media/2024/ostsee/alice/image.jpg" "image.jpg" "image/jpeg").
Proof. vm_compute. reflexivity. Qed.
Example decode_wrong_secret :
  DecodeMediaID "other"
    "eyJwYXRoIjoibWVkaWEvMjAyNC9vc3RzZWUvYWxpY2UvaW1hZ2UuanBnIiwiZmlsZV9uYW1lIjoiaW1hZ2UuanBnIiwibWltZV90eXBlIjoiaW1hZ2UvanBlZyJ9_ONGXolRx5geCN_71iW8vIETN9yi22fBNVzQgLbNe6gw"
  = inl ErrInvalidMediaID.
Proof. vm_compute. reflexivity. Qed.
Example encode_question_mark :
  EncodeMediaID "secret" (mkMediaRef "ab?" "x" "")
  = "eyJwYXRoIjoiYWI_IiwiZmlsZV9uYW1lIjoieCIsIm1pbWVfdHlwZSI6IiJ9_38p1hruF0asLBkoFbqDAf11wNgW93DpChf0B-kmigBw".
Proof. vm_compute. reflexivity. Qed.
Definition obj (members : list (string * string)) : string :=
  "{" +:+ GoStrings.Join (map (fun kv => q (fst kv) +:+ ":" +:+ snd kv) members) "," +:+ "}".
Example unmarshal_table :
  map unmarshal_MediaRef
    [ obj [("path", q "p"); ("file_name", q "f"); ("mime_type", q "m")];
      " " +:+ obj [("PATH", " " +:+ q "p" +:+ " "); ("extra", "[1, {" +:+ q "a" +:+ ": null}, -2.5e+3, true]")];
      obj [("path", q "p"); ("path", q "second")];
      obj [("path", "12")];
      obj [("path", "null"); ("file_name", q "f")];
      "null"; "[]"; ""; obj [("path", q "p")] +:+ "x"; "{" +:+ q "path" +:+ ":" +:+ q "a" +:+ ",}";
      obj [("path", q (bu "00e9" +:+ "\n" +:+ bu "D83D" +:+ bu "de00" +:+ bu "d83d" +:+ "x\/"))];
      obj [("path", q (b1 255))]; obj [("path", q (b1 9))]; obj [("path", "01")] ]
  = [ Some (mkMediaRef "p" "f" "m");
      Some (mkMediaRef "p" "" "");
      Some (mkMediaRef "second" "" "");
      None;
      Some (mkMediaRef "" "f" "");
      Some (mkMediaRef "" "" ""); None; None; None; None;
      Some (mkMediaRef (b1 195 +:+ b1 169 +:+ b1 10 +:+ b1 240 +:+ b1 159 +:+ b1 152 +:+ b1 128
                        +:+ b1 239 +:+ b1 191 +:+ b1 189 +:+ "x/") "" "");
      Some (mkMediaRef (b1 239 +:+ b1 191 +:+ b1 189) "" ""); None; None ].
Proof. vm_compute. reflexivity. Qed.
End CodecTests.

(** * Tests of the URL model *)

Module UrlTests.
Example escape1 : Url.PathEscape "ok?.jpg" = "ok%3F.jpg". Proof. reflexivity. Qed.
Example escape2 : Url.PathEscape "a b/c%;,~$&+:=@" = "a%20b%2Fc%25%3B%2C~$&+:=@".
Proof. reflexivity. Qed.
Example escape3 : Url.PathEscape "noël" = "no%C3%ABl". Proof. reflexivity. Qed.
Example build1 :
  NextcloudClient.buildURL "https://cloud.example.com/dav/" "/media/2024/a b/ok?.jpg"
  = "https://cloud.example.com/dav/media/2024/a%20b/ok%3F.jpg".
Proof. reflexivity. Qed.
Example build2 :
  NextcloudClient.buildURL "https://cloud.example.com/dav/" "//" = "https://cloud.example.com/dav".
Proof. reflexivity. Qed.
End UrlTests.

Module ConfigTests.
Import GoOs ConfigPkg ConfigProps.
Example expand_table :
  map (expandEnvPreserveUnknown test_environ)
    ["password: ${NEXTCLOUD_PASSWORD}"; "/vup/${year}/mediatest/${user}/${file}";
     "$HOME/x"; "$year/x"; "a$"; "a$ b"; "${}x"; "${x"; "$$"; "${?}"; "100%"; "${a b}"]
  = ["password: secret"; "/vup/${year}/mediatest/${user}/${file}";
     "/root/x"; "${year}/x"; "a$"; "a$ b"; "x"; "x"; "${$}"; "${?}"; "100%"; "${a b}"].
Proof. reflexivity. Qed.

Example parse_table :
  map_to_list (parseRoomPathTemplate "!a:x.org=/m/${year}/${file}, !b:x.org = /n/${file} ,junk")
  ≡ₚ [("!a:x.org", "/m/${year}/${file}"); ("!b:x.org", "/n/${file}")].
Proof. vm_compute. apply perm_swap || reflexivity. Qed.
End ConfigTests.

(** * Facts about the library models *)

Module NumberFacts.
Import Props.

Lemma byteZ_ascii_of_Z z : 0 <= z < 256 -> byteZ (ascii_of_Z z) = z.
Proof.
  intros Hz. unfold byteZ, ascii_of_Z. rewrite Z.mod_small by done.
  rewrite N_ascii_embedding; lia.
Qed.

Lemma byteZ_range c : 0 <= byteZ c < 256.
Proof. unfold byteZ. pose proof (N_ascii_bounded c). lia. Qed.

Lemma ascii_of_Z_byteZ c : ascii_of_Z (byteZ c) = c.
Proof.
  unfold ascii_of_Z. rewrite Z.mod_small by apply byteZ_range.
  unfold byteZ. rewrite N2Z.id. apply ascii_N_embedding.
Qed.

Lemma parse_digits_onto fuel : forall n acc,
  0 <= n < 2 ^ Z.of_nat fuel ->
  exists k, 0 <= k /\ n < 10 ^ k /\
    forall a, Fmt.parse_digits (Fmt.digits_onto fuel n acc) a
              = Fmt.parse_digits acc (a * 10 ^ k + n).
Proof.
  induction fuel as [|f IH]; intros n acc Hn.
  - exists 0. simpl in *. repeat split; try lia. intros a. f_equal. lia.
  - cbn [Fmt.digits_onto].
    assert (Hd : forall a rest, Fmt.parse_digits (String (Fmt.digit (n mod 10)) rest) a
                           = Fmt.parse_digits rest (10 * a + n mod 10)).
    { intros a rest. cbn [Fmt.parse_digits]. unfold Fmt.digit.
      pose proof (Z.mod_pos_bound n 10 ltac:(lia)).
      rewrite byteZ_ascii_of_Z by lia.
      replace (48 + n mod 10 - 48) with (n mod 10) by lia.
      destruct (Z.leb_spec 0 (n mod 10)); [|lia].
      destruct (Z.leb_spec (n mod 10) 9); [|lia]. done. }
    destruct (Z.ltb_spec n 10).
    + exists 1. repeat split; try lia. intros a. rewrite Hd.
      rewrite Z.mod_small by lia. f_equal. lia.
    + destruct (IH (n / 10) (String (Fmt.digit (n mod 10)) acc)) as (k & Hk & Hlt & Heq).
      { split; [apply Z.div_pos; lia|].
        apply Z.div_lt_upper_bound; [lia|].
        rewrite Nat2Z.inj_succ, Z.pow_succ_r in Hn by lia. lia. }
      exists (k + 1). repeat split; [lia| |].
      * rewrite Z.pow_add_r by lia. pose proof (Z.div_mod n 10 ltac:(lia)).
        pose proof (Z.mod_pos_bound n 10 ltac:(lia)). lia.
      * intros a. rewrite Heq, Hd. f_equal.
        rewrite Z.pow_add_r by lia. pose proof (Z.div_mod n 10 ltac:(lia)). lia.
Qed.

Lemma parse_digits_digits n :
  0 <= n -> Fmt.parse_digits (Fmt.digits n) 0 = Some n.
Proof.
  intros Hn. unfold Fmt.digits.
  destruct (parse_digits_onto (S (Z.to_nat (Z.log2 n))) n "") as (k & _ & _ & Heq).
  - split; [done|]. rewrite Nat2Z.inj_succ, Z2Nat.id by apply Z.log2_nonneg.
    destruct (Z.eq_dec n 0) as [->|]; [done|]. apply Z.log2_spec. lia.
  - rewrite Heq. done.
Qed.

Lemma digit_range n : 48 <= byteZ (Fmt.digit (n mod 10)) <= 57.
Proof.
  unfold Fmt.digit. pose proof (Z.mod_pos_bound n 10 ltac:(lia)).
  rewrite byteZ_ascii_of_Z; lia.
Qed.

Lemma digits_onto_head fuel : forall n acc,
  head_is_digit acc \/ (0 < fuel)%nat -> head_is_digit (Fmt.digits_onto fuel n acc).
Proof.
  induction fuel as [|f IH]; intros n acc H.
  - destruct H; [done|lia].
  - cbn [Fmt.digits_onto]. destruct (n <? 10).
    + apply digit_range.
    + apply IH. left. apply digit_range.
Qed.

Lemma ParseInt64_itoa n :
  0 <= n < 2 ^ 63 -> Fmt.ParseInt64 (Fmt.itoa n) = Some n.
Proof.
  intros Hn. unfold Fmt.itoa. destruct (Z.ltb_spec n 0); [lia|].
  pose proof (digits_onto_head (S (Z.to_nat (Z.log2 n))) n "" ltac:(right; lia)) as Hh.
  pose proof (parse_digits_digits n ltac:(lia)) as Hp.
  fold (Fmt.digits n) in Hh. unfold Fmt.ParseInt64.
  destruct (Fmt.digits n) as [|c r] eqn:E; [done|]. simpl in Hh.
  unfold ascii_eqb.
  destruct (Ascii.eqb_spec c "-") as [->|_]; [change (byteZ "-") with 45 in Hh; lia|].
  destruct (Ascii.eqb_spec c "+") as [->|_]; [change (byteZ "+") with 43 in Hh; lia|].
  rewrite Hp.
  destruct (Z.leb_spec (- 2 ^ 63) n); [|lia].
  destruct (Z.ltb_spec n (2 ^ 63)); [|lia]. done.
Qed.

End NumberFacts.

Module StringFacts.
Import GoStrings Props.

Lemma string_ind2 (P : string -> Prop) :
  P "" -> (forall c, P (String c "")) ->
  (forall c d s, P s -> P (String d s) -> P (String c (String d s))) ->
  forall s, P s.
Proof.
  intros H0 H1 H2 s.
  assert (P s /\ forall c, P (String c s)) as [? _]; [|done].
  induction s as [|d s [IH1 IH2]]; split; auto.
Qed.

Lemma Contains_cons c s sub :
  Contains (String c s) sub = String.prefix sub (String c s) || Contains s sub.
Proof.
  unfold Contains. cbn [Index].
  destruct (String.prefix sub (String c s)); [done|].
  by destruct (Index s sub).
Qed.

Lemma Contains_nil sub : Contains "" sub = String.prefix sub "".
Proof. unfold Contains. cbn [Index]. by destruct (String.prefix sub ""). Qed.

Lemma all_bytes_append P s t :
  all_bytes P (s +:+ t) = all_bytes P s && all_bytes P t.
Proof. induction s as [|c s IH]; simpl; [done|]. rewrite IH. by rewrite andb_assoc. Qed.

Lemma all_bytes_no_byte c s :
  all_bytes (fun a => negb (ascii_eqb a c)) s = true -> Contains s (String c "") = false.
Proof.
  induction s as [|a s IH]; [done|].
  simpl. intros [Ha Hs]%andb_true_iff. rewrite Contains_cons, IH by done.
  simpl. destruct (ascii_dec c a) as [->|]; [|done].
  unfold ascii_eqb in Ha. by rewrite Ascii.eqb_refl in Ha.
Qed.

Lemma replace_from_bytes P k s old new :
  all_bytes P s = true -> all_bytes P new = true ->
  all_bytes P (replace_from k s old new) = true.
Proof.
  intros Hs Hn. revert k Hs. induction s as [|c s IH]; intros k Hs; [done|].
  simpl in Hs. apply andb_true_iff in Hs as [Hc Hs].
  destruct k; cbn [replace_from]; [|by apply IH].
  destruct (String.prefix old (String c s)).
  - rewrite all_bytes_append, Hn. by apply IH.
  - simpl. rewrite Hc. by apply IH.
Qed.

Lemma prefix_empty s : String.prefix "" s = true.
Proof. by destruct s. Qed.

Lemma replace_byte c d s :
  ReplaceAll s (String c "") (String d "") = subst_byte c d s.
Proof.
  unfold ReplaceAll. induction s as [|a s IH]; [done|].
  cbn [replace_from String.prefix String.length Nat.pred subst_byte].
  unfold ascii_eqb. destruct (ascii_dec c a) as [->|Hne].
  - rewrite Ascii.eqb_refl, prefix_empty. simpl. by rewrite IH.
  - destruct (Ascii.eqb_spec a c) as [->|]; [done|]. by rewrite IH.
Qed.

Lemma subst_byte_bytes P c d s :
  (forall a, ascii_eqb a c = false -> P a = true) -> P d = true ->
  all_bytes P (subst_byte c d s) = true.
Proof.
  intros HP Hd. induction s as [|a s IH]; [done|]. simpl. rewrite IH, andb_true_r.
  destruct (ascii_eqb a c) eqn:E; auto.
Qed.

Lemma subst_byte_keeps P c d s :
  P d = true -> all_bytes P s = true -> all_bytes P (subst_byte c d s) = true.
Proof.
  intros Hd. induction s as [|a s IH]; [done|]. simpl.
  intros [Ha Hs]%andb_true_iff. rewrite IH, andb_true_r by done.
  by destruct (ascii_eqb a c).
Qed.

Definition starts_dot (s : string) : bool :=
  match s with String "."%char _ => true | _ => false end.

Lemma replace_dots_match s :
  replace_from 0 (String "." (String "." s)) ".." "_" = String "_" (replace_from 0 s ".." "_").
Proof.
  cbn [replace_from].
  replace (String.prefix ".." (String "." (String "." s))) with true by (by destruct s).
  reflexivity.
Qed.

Lemma replace_dots_other c s :
  String.prefix ".." (String c s) = false ->
  replace_from 0 (String c s) ".." "_" = String c (replace_from 0 s ".." "_").
Proof. intros H. cbn [replace_from]. by rewrite H. Qed.

Lemma starts_dot_prefix s : String.prefix "." s = starts_dot s.
Proof.
  destruct s as [|d s]; [done|].
  destruct d as [[] [] [] [] [] [] [] []]; simpl; rewrite ?prefix_empty; done.
Qed.

Lemma prefix_dots c s :
  String.prefix ".." (String c s) = ascii_eqb c "." && starts_dot s.
Proof.
  rewrite <- starts_dot_prefix. cbn [String.prefix]. unfold ascii_eqb.
  destruct (ascii_dec "." c) as [<-|Hne]; [done|].
  destruct (Ascii.eqb_spec c "."); [congruence|done].
Qed.

Lemma replace_dots_starts s :
  starts_dot (replace_from 0 s ".." "_") = true -> starts_dot s = true.
Proof.
  destruct s as [|c s]; [done|].
  destruct (String.prefix ".." (String c s)) eqn:E.
  - rewrite prefix_dots in E. apply andb_true_iff in E as [E1 E2].
    unfold ascii_eqb in E1. apply Ascii.eqb_eq in E1 as ->. done.
  - by rewrite replace_dots_other by done.
Qed.

Lemma replace_dots_none s : Contains (replace_from 0 s ".." "_") ".." = false.
Proof.
  induction s as [|c|c d s IH1 IH2] using string_ind2; [done| |].
  - rewrite replace_dots_other by (rewrite prefix_dots; simpl; apply andb_false_r).
    rewrite Contains_cons, Contains_nil, prefix_dots. simpl. by rewrite andb_false_r.
  - destruct (String.prefix ".." (String c (String d s))) eqn:E.
    + rewrite prefix_dots in E. apply andb_true_iff in E as [E1 E2].
      unfold ascii_eqb in E1. apply Ascii.eqb_eq in E1 as ->.
      assert (d = "."%char) as ->.
      { unfold starts_dot in E2. destruct d as [[] [] [] [] [] [] [] []]; done. }
      rewrite replace_dots_match, Contains_cons, IH1. done.
    + rewrite replace_dots_other by done. rewrite Contains_cons, IH2, orb_false_r.
      rewrite prefix_dots in *. apply andb_false_iff in E as [E|E]; [by rewrite E|].
      destruct (starts_dot (replace_from 0 (String d s) ".." "_")) eqn:F; [|apply andb_false_r].
      apply replace_dots_starts in F. congruence.
Qed.

Lemma last_first_is_order : Utils.is_range_order last_first.
Proof.
  intros entries. unfold last_first.
  rewrite <- (rev_involutive entries) at 2.
  destruct (rev entries) as [|e before]; [done|].
  simpl. apply Permutation_cons_append.
Qed.

End StringFacts.

Module PathFacts.
Import GoStrings Utils Handlers Props NumberFacts StringFacts.

Lemma append_cons c s t : String c s +:+ t = String c (s +:+ t).
Proof. reflexivity. Qed.

Lemma append_nil_l s : "" +:+ s = s.
Proof. reflexivity. Qed.

Lemma append_nil_r s : s +:+ "" = s.
Proof. induction s as [|c s IH]; [done|]. by rewrite append_cons, IH. Qed.

Lemma append_assoc s t u : (s +:+ t) +:+ u = s +:+ (t +:+ u).
Proof. induction s as [|c s IH]; [done|]. by rewrite !append_cons, IH. Qed.

Lemma length_append s t : String.length (s +:+ t) = (String.length s + String.length t)%nat.
Proof. induction s as [|c s IH]; [done|]. rewrite append_cons. simpl. by rewrite IH. Qed.

Lemma rev_str_onto_spec s acc : rev_str_onto s acc = rev_str s +:+ acc.
Proof.
  unfold rev_str. revert acc. induction s as [|c s IH]; intros acc; [done|].
  cbn [rev_str_onto]. rewrite IH, (IH (String c "")), append_assoc. done.
Qed.

Lemma rev_str_cons c s : rev_str (String c s) = rev_str s +:+ String c "".
Proof. unfold rev_str at 1. simpl. apply rev_str_onto_spec. Qed.

Lemma rev_str_append s t : rev_str (s +:+ t) = rev_str t +:+ rev_str s.
Proof.
  induction s as [|c s IH].
  - by rewrite append_nil_l, append_nil_r.
  - rewrite append_cons, !rev_str_cons, IH, append_assoc. done.
Qed.

Lemma rev_str_involutive s : rev_str (rev_str s) = s.
Proof.
  induction s as [|c s IH]; [done|].
  rewrite rev_str_cons, rev_str_append, IH. done.
Qed.

Lemma length_rev_str s : String.length (rev_str s) = String.length s.
Proof.
  induction s as [|c s IH]; [done|].
  rewrite rev_str_cons, length_append, IH. simpl. lia.
Qed.

Lemma prefix_append s t : String.prefix s (s +:+ t) = true.
Proof.
  induction s as [|c s IH]; [apply prefix_empty|].
  rewrite append_cons. cbn [String.prefix]. destruct (ascii_dec c c); done.
Qed.

Lemma take_str_append s t : take_str (String.length s) (s +:+ t) = s.
Proof.
  induction s as [|c s IH]; [by destruct t|].
  rewrite append_cons. simpl. by rewrite IH.
Qed.

Lemma drop_str_append s t : drop_str (String.length s) (s +:+ t) = t.
Proof. induction s as [|c s IH]; [done|]. rewrite append_cons. simpl. done. Qed.

Lemma all_bytes_rev P s : all_bytes P (rev_str s) = all_bytes P s.
Proof.
  induction s as [|c s IH]; [done|].
  rewrite rev_str_cons, all_bytes_append, IH. simpl. rewrite andb_true_r. apply andb_comm.
Qed.

Lemma TrimSuffix_append pre e : TrimSuffix (pre +:+ e) e = pre.
Proof.
  unfold TrimSuffix, HasSuffix. rewrite rev_str_append, prefix_append.
  rewrite length_append. replace (String.length pre + String.length e - String.length e)%nat
    with (String.length pre) by lia.
  apply take_str_append.
Qed.

(** [Ext] gives a suffix. *)
Lemma ext_rev_suffix rs : forall acc, exists pre, rev_str rs +:+ acc = pre +:+ GoPath.ext_rev rs acc.
Proof.
  induction rs as [|c rs IH]; intros acc.
  - exists acc. simpl. by rewrite append_nil_r.
  - cbn [GoPath.ext_rev]. rewrite rev_str_cons, append_assoc, append_cons, append_nil_l.
    destruct (ascii_eqb c GoPath.slash).
    + eexists. by rewrite append_nil_r.
    + destruct (ascii_eqb c GoPath.dot); [by eexists|]. apply IH.
Qed.

Lemma Ext_suffix b : exists pre, b = pre +:+ GoPath.Ext b.
Proof.
  unfold GoPath.Ext. destruct (ext_rev_suffix (rev_str b) "") as [pre H].
  exists pre. by rewrite <- H, append_nil_r, rev_str_involutive.
Qed.

Lemma SplitPath_no_slash nb : no_slash nb = true -> GoPath.SplitPath nb = ("", nb).
Proof.
  induction nb as [|c nb IH]; [done|].
  unfold no_slash. simpl. intros [Hc Hnb]%andb_true_iff.
  fold (no_slash nb) in Hnb. rewrite (IH Hnb). simpl.
  by apply negb_true_iff in Hc as ->.
Qed.

Lemma SplitPath_dir Y nb :
  no_slash nb = true -> GoPath.SplitPath ((Y +:+ "/") +:+ nb) = (Y +:+ "/", nb).
Proof.
  intros Hnb. induction Y as [|c Y IH].
  - rewrite append_nil_l, append_cons, append_nil_l. cbn [GoPath.SplitPath].
    rewrite (SplitPath_no_slash _ Hnb). done.
  - rewrite !append_cons. cbn [GoPath.SplitPath]. rewrite IH.
    by destruct Y.
Qed.

Lemma SplitPath_snd X nb :
  dir_prefix X -> no_slash nb = true -> snd (GoPath.SplitPath (X +:+ nb)) = nb.
Proof.
  intros [->|[Y ->]] Hnb.
  - by rewrite append_nil_l, SplitPath_no_slash.
  - by rewrite SplitPath_dir.
Qed.

Lemma TrimRight_keeps X nb :
  nb <> "" -> no_slash nb = true -> TrimRight (X +:+ nb) "/" = X +:+ nb.
Proof.
  intros Hne Hnb. unfold TrimRight. rewrite rev_str_append.
  assert (Hr : no_slash (rev_str nb) = true) by (unfold no_slash; by rewrite all_bytes_rev).
  destruct (rev_str nb) as [|c r] eqn:E.
  - apply (f_equal rev_str) in E. rewrite rev_str_involutive in E. done.
  - rewrite append_cons. cbn [TrimLeft mem_byte].
    unfold no_slash in Hr. simpl in Hr. apply andb_true_iff in Hr as [Hc _].
    apply negb_true_iff in Hc. unfold GoPath.slash in Hc. rewrite Hc. simpl.
    rewrite <- append_cons, <- E, <- rev_str_append, rev_str_involutive. done.
Qed.

Lemma append_not_empty X nb : nb <> "" -> X +:+ nb <> "".
Proof. destruct X; [done|]. by rewrite append_cons. Qed.

Lemma is_empty_false s : s <> "" -> GoPath.is_empty s = false.
Proof. by destruct s. Qed.

Lemma Base_append X nb :
  dir_prefix X -> nb <> "" -> no_slash nb = true -> GoPath.Base (X +:+ nb) = nb.
Proof.
  intros HX Hne Hnb. unfold GoPath.Base.
  rewrite (is_empty_false (X +:+ nb)) by by apply append_not_empty.
  rewrite TrimRight_keeps, SplitPath_snd by done.
  by rewrite is_empty_false.
Qed.

Lemma split_on_not_nil sep s : split_on sep s <> [].
Proof.
  destruct s as [|c s]; [done|]. simpl.
  destruct (ascii_eqb c sep); [done|]. by destruct (split_on sep s).
Qed.

Lemma split_on_no_slash a : no_slash a = true -> split_on "/" a = [a].
Proof.
  induction a as [|c a IH]; [done|].
  unfold no_slash. simpl. intros [Hc Ha]%andb_true_iff.
  apply negb_true_iff in Hc. unfold GoPath.slash in Hc. rewrite Hc.
  by rewrite (IH Ha).
Qed.

Lemma split_on_cut a r :
  no_slash a = true -> split_on "/" (a +:+ String "/" r) = a :: split_on "/" r.
Proof.
  induction a as [|c a IH]; [done|].
  unfold no_slash. cbn [all_bytes]. intros [Hc Ha]%andb_true_iff.
  apply negb_true_iff in Hc. unfold GoPath.slash in Hc.
  rewrite append_cons. cbn [split_on]. rewrite Hc. by rewrite (IH Ha).
Qed.

Lemma split_on_snoc a b :
  no_slash b = true -> split_on "/" (a +:+ String "/" b) = (split_on "/" a ++ [b])%list.
Proof.
  intros Hb. induction a as [|c a IH].
  - rewrite append_nil_l. cbn [split_on]. simpl.
    by rewrite split_on_no_slash.
  - rewrite append_cons. cbn [split_on]. rewrite IH.
    destruct (ascii_eqb c "/"); [done|].
    pose proof (split_on_not_nil "/" a). by destruct (split_on "/" a).
Qed.

Lemma ascii_eqb_false c d : d <> c -> ascii_eqb c d = false.
Proof. intros H. unfold ascii_eqb. apply Ascii.eqb_neq. congruence. Qed.

Lemma Index_slash s :
  match Index s "/" with
  | None => no_slash s = true
  | Some m => exists a r, s = a +:+ String "/" r /\ no_slash a = true /\ m = String.length a
  end.
Proof.
  induction s as [|c s IH]; [done|].
  cbn [Index String.prefix]. destruct (ascii_dec "/" c) as [<-|Hne].
  - rewrite prefix_empty. by exists "", s.
  - destruct (Index s "/") as [m|]; simpl.
    + destruct IH as (a & r & -> & Ha & ->). exists (String c a), r.
      repeat split. unfold no_slash in *. cbn [all_bytes]. rewrite Ha, andb_true_r.
      apply negb_true_iff. by apply ascii_eqb_false.
    + unfold no_slash in *. cbn [all_bytes]. rewrite IH, andb_true_r.
      apply negb_true_iff. by apply ascii_eqb_false.
Qed.

Lemma split_upto_slash fuel : forall s,
  (String.length s <= fuel)%nat -> split_upto fuel s "/" = split_on "/" s.
Proof.
  induction fuel as [|k IH]; intros s Hlen.
  - destruct s; [done|simpl in Hlen; lia].
  - cbn [split_upto]. pose proof (Index_slash s) as H.
    destruct (Index s "/") as [m|].
    + destruct H as (a & r & -> & Ha & ->).
      rewrite take_str_append.
      change (String.length "/") with 1%nat.
      replace (a +:+ String "/" r) with ((a +:+ "/") +:+ r) at 1
        by (by rewrite append_assoc).
      replace (String.length a + 1)%nat with (String.length (a +:+ "/"))
        by (rewrite length_append; simpl; lia).
      rewrite drop_str_append, split_on_cut by done.
      rewrite IH; [done|]. rewrite !length_append in Hlen. simpl in Hlen. lia.
    + by rewrite split_on_no_slash.
Qed.

Lemma Split_slash s : Split s "/" = split_on "/" s.
Proof.
  unfold Split, SplitN. simpl. apply split_upto_slash. lia.
Qed.

Lemma Join_snoc l e sep :
  l <> [] -> GoStrings.Join (l ++ [e])%list sep = GoStrings.Join l sep +:+ sep +:+ e.
Proof.
  induction l as [|a l IH]; [done|]. intros _.
  destruct l as [|b l]; [done|].
  change (GoStrings.Join ((a :: b :: l) ++ [e])%list sep)
    with (a +:+ sep +:+ GoStrings.Join ((b :: l) ++ [e])%list sep).
  rewrite IH by done.
  change (GoStrings.Join (a :: b :: l) sep) with (a +:+ sep +:+ GoStrings.Join (b :: l) sep).
  by rewrite !append_assoc.
Qed.

Lemma clean_step_element root out nb :
  nb <> "" -> nb <> "." -> nb <> ".." -> GoPath.clean_step root out nb = nb :: out.
Proof.
  intros H1 H2 H3. unfold GoPath.clean_step.
  destruct (String.eqb_spec nb ""); [done|].
  destruct (String.eqb_spec nb "."); [done|].
  destruct (String.eqb_spec nb ".."); done.
Qed.

Lemma Clean_last d nb :
  nb <> "" -> nb <> "." -> nb <> ".." -> no_slash nb = true ->
  exists X, dir_prefix X /\ GoPath.Clean (d +:+ String "/" nb) = X +:+ nb.
Proof.
  intros H1 H2 H3 Hnb. unfold GoPath.Clean.
  rewrite is_empty_false by (by apply append_not_empty).
  rewrite Split_slash, split_on_snoc, fold_left_app by done.
  cbn [fold_left]. rewrite clean_step_element by done.
  cbn [rev]. set (out := rev _).
  assert (Hbody : exists X0, dir_prefix X0
                    /\ GoStrings.Join (out ++ [nb])%list "/" = X0 +:+ nb).
  { destruct out as [|a l] eqn:E.
    - exists "". split; [by left|done].
    - rewrite Join_snoc by done. exists (GoStrings.Join (a :: l) "/" +:+ "/").
      split; [right; by eexists|]. by rewrite append_assoc. }
  destruct Hbody as (X0 & HX0 & ->).
  destruct (GoPath.rooted _).
  - exists ("/" +:+ X0). split; [|by rewrite append_assoc].
    destruct HX0 as [->|[Y ->]]; right; [by exists ""|by exists ("/" +:+ Y)].
  - rewrite is_empty_false by (by apply append_not_empty). by exists X0.
Qed.

Lemma Clean_not_empty p : GoPath.Clean p <> "".
Proof.
  unfold GoPath.Clean. destruct (GoPath.is_empty p); [done|].
  destruct (GoPath.rooted p); [done|].
  by destruct (GoPath.is_empty _) eqn:E; [|destruct (GoStrings.Join _ _)].
Qed.

Lemma SplitPath_snd_no_slash s : no_slash (snd (GoPath.SplitPath s)) = true.
Proof.
  induction s as [|c s IH]; [done|].
  cbn [GoPath.SplitPath]. destruct (GoPath.SplitPath s) as [d f]. simpl in IH.
  destruct (GoPath.is_empty d); simpl; [|done].
  destruct (ascii_eqb c GoPath.slash) eqn:E; simpl; [done|].
  unfold no_slash in *. simpl. by rewrite E, IH.
Qed.

Lemma Base_cases p :
  GoPath.Base p = "/" \/ (no_slash (GoPath.Base p) = true /\ GoPath.Base p <> "").
Proof.
  unfold GoPath.Base. destruct (GoPath.is_empty p); [by right|].
  destruct (GoPath.is_empty (snd _)) eqn:E; [by left|].
  right. split; [apply SplitPath_snd_no_slash|]. by intros H; rewrite H in E.
Qed.

Lemma digits_onto_bytes P fuel : forall n acc,
  (forall m, P (Fmt.digit (m mod 10)) = true) -> all_bytes P acc = true ->
  all_bytes P (Fmt.digits_onto fuel n acc) = true.
Proof.
  induction fuel as [|f IH]; intros n acc HP Hacc; [done|].
  cbn [Fmt.digits_onto]. destruct (n <? 10)%Z.
  - simpl. by rewrite HP.
  - apply IH; [done|]. simpl. by rewrite HP.
Qed.

Lemma digit_not_slash m : negb (ascii_eqb (Fmt.digit (m mod 10)) GoPath.slash) = true.
Proof.
  apply negb_true_iff, ascii_eqb_false. intros H.
  pose proof (digit_range m) as Hr. rewrite <- H in Hr.
  change (byteZ GoPath.slash) with 47%Z in Hr. lia.
Qed.

Lemma itoa_no_slash i : no_slash (Fmt.itoa i) = true.
Proof.
  unfold Fmt.itoa, Fmt.digits, no_slash.
  destruct (i <? 0)%Z; [cbn [all_bytes]; apply andb_true_iff; split; [done|]|];
    apply digits_onto_bytes; auto using digit_not_slash.
Qed.

Lemma no_slash_append s t : no_slash (s +:+ t) = no_slash s && no_slash t.
Proof. apply all_bytes_append. Qed.

Lemma no_slash_cons c s : no_slash (String c s) = negb (ascii_eqb c GoPath.slash) && no_slash s.
Proof. reflexivity. Qed.

Lemma underscore_element pre rest :
  let s := pre +:+ String "_" rest in s <> "" /\ s <> "." /\ s <> "..".
Proof. destruct pre as [|a [|b [|c pre]]]; repeat split; done. Qed.

Lemma candidate_shape p i :
  exists X nb, dir_prefix X /\ nb <> "" /\ no_slash nb = true /\ nb <> GoPath.Base p
               /\ candidate p i = X +:+ nb.
Proof.
  unfold candidate, addCounterSuffix.
  destruct (Ext_suffix (GoPath.Base p)) as [pre Hpre].
  set (base := GoPath.Base p) in *. set (e := GoPath.Ext base) in *.
  assert (Hname : TrimSuffix base e = pre) by (rewrite Hpre at 1; apply TrimSuffix_append).
  rewrite Hname.
  assert (Hlen : String.length base = (String.length pre + String.length e)%nat)
    by (rewrite Hpre at 1; apply length_append).
  assert (Hshape : exists pf nb, dir_prefix pf /\ nb <> "" /\ nb <> "." /\ nb <> ".."
                     /\ no_slash nb = true /\ nb <> base
                     /\ pre +:+ "_" +:+ Fmt.itoa i +:+ e = pf +:+ nb).
  { destruct (Base_cases p) as [Hb|[Hb Hne]]; fold base in Hb.
    - assert (e = "") as He by (unfold e; by rewrite Hb).
      assert (pre = "/") as -> by (rewrite He, append_nil_r in Hpre; congruence).
      exists "/", ("_" +:+ Fmt.itoa i +:+ e).
      split; [right; by exists ""|].
      repeat split; try done.
      + change ("_" +:+ Fmt.itoa i +:+ e) with (String "_" (Fmt.itoa i +:+ e)).
        rewrite no_slash_cons, no_slash_append, itoa_no_slash. by rewrite He.
      + by rewrite Hb.
    - exists "", (pre +:+ "_" +:+ Fmt.itoa i +:+ e).
      split; [by left|].
      pose proof (underscore_element pre (Fmt.itoa i +:+ e)) as (U1 & U2 & U3).
      repeat split; try done.
      + rewrite Hpre, no_slash_append in Hb. apply andb_true_iff in Hb as [Hb1 Hb2].
        change ("_" +:+ Fmt.itoa i +:+ e) with (String "_" (Fmt.itoa i +:+ e)).
        by rewrite no_slash_append, no_slash_cons, no_slash_append, Hb1, Hb2, itoa_no_slash.
      + intros Heq. apply (f_equal String.length) in Heq.
        rewrite !length_append in Heq. simpl in Heq. lia. }
  destruct Hshape as (pf & nb & Hpf & N1 & N2 & N3 & N4 & N5 & ->).
  destruct (String.eqb (GoPath.Dir p) ".").
  - simpl. by exists pf, nb.
  - cbn [fst].
    assert (HJ : exists X, dir_prefix X /\ GoPath.Join [GoPath.Dir p; pf +:+ nb] = X +:+ nb).
    { unfold GoPath.Join. rewrite !filter_cons, filter_nil.
      rewrite !decide_True by (first [unfold GoPath.Dir; apply Clean_not_empty | by apply append_not_empty]).
      change (GoStrings.Join [GoPath.Dir p; pf +:+ nb] "/")
        with (GoPath.Dir p +:+ String "/" (pf +:+ nb)).
      destruct Hpf as [->|[Y ->]].
      - rewrite append_nil_l. by apply Clean_last.
      - replace (GoPath.Dir p +:+ String "/" ((Y +:+ "/") +:+ nb))
          with ((GoPath.Dir p +:+ String "/" Y) +:+ String "/" nb).
        + by apply Clean_last.
        + rewrite (append_assoc (GoPath.Dir p)), append_cons, (append_assoc Y).
          reflexivity. }
    destruct HJ as (X & HX & ->).
    destruct (_ && _).
    + exists ("/" +:+ X), nb.
      split; [|repeat split; try done; by rewrite append_assoc].
      destruct HX as [->|[Y ->]]; right; [by exists ""|by exists ("/" +:+ Y)].
    + by exists X, nb.
Qed.

Lemma candidate_neq p i : candidate p i <> p.
Proof.
  destruct (candidate_shape p i) as (X & nb & HX & N1 & N2 & N3 & Heq).
  intros H. apply N3. rewrite <- H at 1. rewrite Heq. symmetry. by apply Base_append.
Qed.

End PathFacts.

Module CodecFacts.
Import GoStrings Utils Props NumberFacts StringFacts PathFacts.

Lemma Sum256_not_empty msg : Sha256.Sum256 msg <> "".
Proof.
  unfold Sha256.Sum256. generalize (Sha256.digest_words (Sha256.bytes_of msg)).
  intros ws. cbn [Sha256.be_bytes app Sha256.string_of_bytes]. done.
Qed.

Lemma HMAC_not_empty key msg : Sha256.HMAC key msg <> "".
Proof. unfold Sha256.HMAC. apply Sum256_not_empty. Qed.

Lemma EncodeToString_not_empty src : src <> "" -> Base64.EncodeToString src <> "".
Proof. destruct src as [|a [|b [|c rest]]]; done. Qed.

Lemma SignBytes_not_empty secret payload : SignBytes secret payload <> "".
Proof. apply EncodeToString_not_empty, HMAC_not_empty. Qed.

Lemma VerifyBytes_iff secret payload signature :
  VerifyBytes secret payload signature = true <-> signature = SignBytes secret payload.
Proof.
  unfold VerifyBytes, Sha256.Equal. rewrite String.eqb_eq. split; congruence.
Qed.

Lemma Index_first c a r :
  all_bytes (fun x => negb (ascii_eqb x c)) a = true ->
  Index (a +:+ String c r) (String c "") = Some (String.length a).
Proof.
  induction a as [|x a IH]; intros Ha.
  - rewrite append_nil_l. cbn [Index String.prefix].
    destruct (ascii_dec c c); [|done]. by rewrite prefix_empty.
  - cbn [all_bytes] in Ha. apply andb_true_iff in Ha as [Hx Ha].
    rewrite append_cons. cbn [Index String.prefix].
    destruct (ascii_dec c x) as [->|Hne].
    + unfold ascii_eqb in Hx. by rewrite Ascii.eqb_refl in Hx.
    + by rewrite (IH Ha).
Qed.

Lemma SplitN_first c a r :
  all_bytes (fun x => negb (ascii_eqb x c)) a = true ->
  SplitN (a +:+ String c r) (String c "") 2 = [a; r].
Proof.
  intros Ha. unfold SplitN.
  change (2 =? 0) with false. change (2 <? 0) with false. cbv iota.
  change (Z.to_nat 2) with 2%nat.
  rewrite length_append. cbn [String.length].
  replace (String.length a + S (String.length r))%nat
    with (S (String.length a + String.length r)) by lia.
  cbn [Nat.min Nat.pred split_upto]. rewrite (Index_first c a r Ha).
  rewrite take_str_append. cbn [String.length].
  replace (a +:+ String c r) with ((a +:+ String c "") +:+ r)
    by (by rewrite append_assoc).
  replace (String.length a + 1)%nat with (String.length (a +:+ String c ""))
    by (rewrite length_append; simpl; lia).
  by rewrite drop_str_append.
Qed.

Lemma Contains_none_bytes c s :
  Contains s (String c "") = false -> all_bytes (fun x => negb (ascii_eqb x c)) s = true.
Proof.
  induction s as [|x s IH]; [done|].
  rewrite Contains_cons. intros [Hp Hs]%orb_false_iff.
  cbn [all_bytes]. rewrite (IH Hs), andb_true_r.
  cbn [String.prefix] in Hp. destruct (ascii_dec c x) as [->|Hne].
  - by rewrite prefix_empty in Hp.
  - apply negb_true_iff. by apply ascii_eqb_false.
Qed.

Lemma string_ind3 (P : string -> Prop) :
  P "" -> (forall a, P (String a "")) -> (forall a b, P (String a (String b ""))) ->
  (forall a b c s, P s -> P (String a (String b (String c s)))) ->
  forall s, P s.
Proof.
  intros H0 H1 H2 H3.
  assert (H : forall s, P s /\ (forall a, P (String a s)) /\ forall a b, P (String a (String b s))).
  { induction s as [|c s (IH0 & IH1 & IH2)]; [by auto|].
    split; [apply IH1|]. split; [intros a; apply IH2|]. intros a b. by apply H3. }
  intros s. apply H.
Qed.

(** Every sextet is encoded as a character of the alphabet that decodes
    to it and that the decoder does not pass over. *)
Lemma dec6_enc6 v :
  0 <= v < 64 ->
  Base64.dec6 (Base64.enc6 v) = Some v
  /\ (byteZ (Base64.enc6 v) =? 10) || (byteZ (Base64.enc6 v) =? 13) = false.
Proof.
  intros Hv.
  assert (Hall : forallb (fun n =>
             match Base64.dec6 (Base64.enc6 (Z.of_nat n)) with
             | Some u => (u =? Z.of_nat n)
                         && negb ((byteZ (Base64.enc6 (Z.of_nat n)) =? 10)
                                  || (byteZ (Base64.enc6 (Z.of_nat n)) =? 13))
             | None => false
             end) (seq 0 64) = true) by (vm_compute; reflexivity).
  rewrite forallb_forall in Hall. specialize (Hall (Z.to_nat v)).
  rewrite Z2Nat.id in Hall by lia.
  destruct (Base64.dec6 (Base64.enc6 v)) as [u|].
  - assert (H : (u =? v) && negb ((byteZ (Base64.enc6 v) =? 10) || (byteZ (Base64.enc6 v) =? 13)) = true).
    { apply Hall, in_seq. lia. }
    apply andb_true_iff in H as [Hu Hn]. apply Z.eqb_eq in Hu. subst u.
    split; [done|]. by apply negb_true_iff.
  - assert (false = true); [|done]. apply Hall, in_seq. lia.
Qed.

Lemma ascii_of_Z_eq e a : e = byteZ a -> ascii_of_Z e = a.
Proof. intros ->. apply ascii_of_Z_byteZ. Qed.

Ltac bytes_eq :=
  repeat (f_equal; try (apply ascii_of_Z_eq; Z.div_mod_to_equations; lia)).

Ltac sextet_range :=
  match goal with
  | |- 0 <= ?e < 64 =>
    repeat match goal with
           | |- context [byteZ ?c] =>
             lazymatch goal with
             | _ : 0 <= byteZ c < 256 |- _ => fail
             | _ => pose proof (byteZ_range c)
             end
           end;
    Z.div_mod_to_equations; lia
  end.

Lemma DecodeString_EncodeToString src :
  Base64.DecodeString (Base64.EncodeToString src) = Some src.
Proof.
  unfold Base64.DecodeString.
  assert (H : exists vs,
             Base64.strip_newlines (Base64.EncodeToString src) = Base64.EncodeToString src
             /\ Base64.sextets (Base64.EncodeToString src) = Some vs
             /\ Base64.bytes_of_sextets vs = Some src).
  { induction src as [|a|a b|a b c rest (vs & Hs & Hv & Hb)] using string_ind3.
    - by exists [].
    - pose proof (byteZ_range a).
      destruct (dec6_enc6 (byteZ a / 4)) as [D1 N1]; [sextet_range|].
      destruct (dec6_enc6 (byteZ a mod 4 * 16)) as [D2 N2]; [sextet_range|].
      eexists. cbn [Base64.EncodeToString Base64.strip_newlines Base64.sextets].
      rewrite N1, N2, D1, D2. split; [done|]. split; [done|].
      cbn [Base64.bytes_of_sextets]. bytes_eq.
    - pose proof (byteZ_range a). pose proof (byteZ_range b).
      destruct (dec6_enc6 (byteZ a / 4)) as [D1 N1]; [sextet_range|].
      destruct (dec6_enc6 (byteZ a mod 4 * 16 + byteZ b / 16)) as [D2 N2]; [sextet_range|].
      destruct (dec6_enc6 (byteZ b mod 16 * 4)) as [D3 N3]; [sextet_range|].
      eexists. cbn [Base64.EncodeToString Base64.strip_newlines Base64.sextets].
      rewrite N1, N2, N3, D1, D2, D3. split; [done|]. split; [done|].
      cbn [Base64.bytes_of_sextets]. bytes_eq.
    - pose proof (byteZ_range a). pose proof (byteZ_range b). pose proof (byteZ_range c).
      destruct (dec6_enc6 (byteZ a / 4)) as [D1 N1]; [sextet_range|].
      destruct (dec6_enc6 (byteZ a mod 4 * 16 + byteZ b / 16)) as [D2 N2]; [sextet_range|].
      destruct (dec6_enc6 (byteZ b mod 16 * 4 + byteZ c / 64)) as [D3 N3]; [sextet_range|].
      destruct (dec6_enc6 (byteZ c mod 64)) as [D4 N4]; [sextet_range|].
      eexists. cbn [Base64.EncodeToString Base64.strip_newlines Base64.sextets].
      rewrite N1, N2, N3, N4, D1, D2, D3, D4, Hs, Hv. split; [done|]. split; [done|].
      cbn [Base64.bytes_of_sextets]. rewrite Hb. bytes_eq. }
  destruct H as (vs & -> & -> & ->). done.
Qed.


Lemma encoded_digest_length msg :
  String.length (Base64.EncodeToString (Sha256.Sum256 msg)) = 43%nat.
Proof.
  unfold Sha256.Sum256. generalize (Sha256.digest_words (Sha256.bytes_of msg)).
  intros ws. reflexivity.
Qed.

(** A signature is 43 characters long. *)
Lemma signature_length key msg :
  String.length (Base64.EncodeToString (Sha256.HMAC key msg)) = 43%nat.
Proof. apply encoded_digest_length. Qed.

Lemma Contains_split c s :
  Contains s (String c "") = true ->
  exists a r, s = a +:+ String c r /\ all_bytes (fun x => negb (ascii_eqb x c)) a = true.
Proof.
  induction s as [|x s IH]; [done|].
  rewrite Contains_cons. cbn [String.prefix].
  destruct (ascii_dec c x) as [->|Hne].
  - intros _. by exists "", s.
  - cbn [orb]. intros (a & r & -> & Ha)%IH. exists (String x a), r. split; [done|].
    cbn [all_bytes]. rewrite Ha, andb_true_r. apply negb_true_iff. by apply ascii_eqb_false.
Qed.

(** What decoding a minted token gives, for every secret and reference:
    the error when the encoded payload holds the separator, and otherwise
    what the JSON decoder makes of the payload. *)
Lemma decode_encode_cases secret ref :
  DecodeMediaID secret (EncodeMediaID secret ref)
  = if Contains (Base64.EncodeToString (marshal_MediaRef ref)) "_"
    then inl ErrInvalidMediaID
    else match unmarshal_MediaRef (marshal_MediaRef ref) with
         | Some decoded =>
           if String.eqb (Path decoded) "" then inl ErrInvalidMediaID else inr decoded
         | None => inl ErrInvalidMediaID
         end.
Proof.
  destruct (Contains _ "_") eqn:Hc.
  - apply Contains_split in Hc as (a & r & Henc & Ha).
    unfold DecodeMediaID, EncodeMediaID. rewrite Henc.
    change ("_" +:+ ?s) with (String "_" s).
    rewrite append_assoc, append_cons, SplitN_first by done.
    set (sig := signMediaID secret (a +:+ String "_" r)).
    assert (Hlen : String.length (signMediaID secret a) <> String.length (r +:+ String "_" sig)).
    { unfold sig, signMediaID. rewrite length_append. cbn [String.length].
      rewrite !signature_length. lia. }
    unfold Sha256.Equal. destruct (String.eqb_spec (signMediaID secret a) (r +:+ String "_" sig)) as [E|_].
    + by rewrite E in Hlen.
    + done.
  - unfold DecodeMediaID, EncodeMediaID.
    change ("_" +:+ ?s) with (String "_" s).
    rewrite SplitN_first by (by apply Contains_none_bytes).
    unfold Sha256.Equal. rewrite String.eqb_refl. cbn [negb].
    by rewrite DecodeString_EncodeToString.
Qed.

(** The round trip holds when the encoded payload is free of the
    separator and the JSON decoder gives back the reference. *)
Lemma decode_encode secret ref :
  Contains (Base64.EncodeToString (marshal_MediaRef ref)) "_" = false ->
  unmarshal_MediaRef (marshal_MediaRef ref) = Some ref ->
  Path ref <> "" ->
  DecodeMediaID secret (EncodeMediaID secret ref) = inr ref.
Proof.
  intros Hfree Hjson Hpath. rewrite decode_encode_cases, Hfree, Hjson.
  by destruct (String.eqb_spec (Path ref) "").
Qed.

(** *** JSON of plain strings *)

Lemma htmlSafe_cases b :
  Json.htmlSafe b = true ->
  (b <? 128) = true /\ (b =? 34) = false /\ (b <? 32) = false /\ (b =? 92) = false.
Proof. unfold Json.htmlSafe. lia. Qed.

Lemma quote_body_plain s : plain s = true -> Json.quote_body 0 0 s = s.
Proof.
  induction s as [|c s IH]; [done|]. cbn [plain all_bytes].
  intros [Hc Hs]%andb_true_iff. cbn [Json.quote_body]. cbv zeta.
  destruct (htmlSafe_cases _ Hc) as (-> & _). rewrite Hc. by rewrite (IH Hs).
Qed.

Lemma unquote_plain s rest :
  plain s = true -> Json.unquote 0 (s +:+ String Json.dq rest) = Some (s, rest).
Proof.
  induction s as [|c s IH]; [done|]. cbn [plain all_bytes].
  intros [Hc Hs]%andb_true_iff. rewrite append_cons. cbn [Json.unquote]. cbv zeta.
  destruct (htmlSafe_cases _ Hc) as (-> & -> & -> & ->). by rewrite (IH Hs).
Qed.

Lemma quote_plain s rest :
  plain s = true -> Json.quote s +:+ rest = String Json.dq (s +:+ String Json.dq rest).
Proof.
  intros Hs. unfold Json.quote. rewrite (quote_body_plain s Hs).
  by rewrite append_cons, append_assoc, append_cons, append_nil_l.
Qed.

(** A quoted plain string is read as a string value. *)
Lemma value_plain d s rest :
  plain s = true ->
  Json.value (S d) (String Json.dq (s +:+ String Json.dq rest)) = Some (Json.Str s, rest).
Proof.
  intros Hs. cbn [Json.value]. cbv zeta. change (byteZ Json.dq =? 34) with true.
  cbv iota. by rewrite (unquote_plain s rest Hs).
Qed.

Lemma skip_ws_at c s :
  Json.is_ws c = false -> Json.skip_ws (String c s) = String c s.
Proof. intros H. cbn [Json.skip_ws]. by rewrite H. Qed.

(** One member of an object whose key and value are plain strings. *)
Lemma member_plain d n k v c rest :
  plain k = true -> plain v = true -> Json.is_ws c = false ->
  Json.members_of (Json.value (S d)) (S n)
    (String Json.dq (k +:+ String Json.dq (String ":" (String Json.dq
       (v +:+ String Json.dq (String c rest))))))
  = if ascii_eqb c ","
    then match Json.members_of (Json.value (S d)) n (Json.skip_ws rest) with
         | None => None
         | Some (ms, r5) => Some ((k, Json.Str v) :: ms, r5)
         end
    else if ascii_eqb c "}" then Some ([(k, Json.Str v)], rest) else None.
Proof.
  intros Hk Hv Hc. cbn [Json.members_of]. change (ascii_eqb Json.dq Json.dq) with true.
  cbv iota. rewrite (unquote_plain k _ Hk).
  rewrite (skip_ws_at ":") by done. rewrite (skip_ws_at Json.dq) by done.
  rewrite (value_plain d v _ Hv). rewrite (skip_ws_at c) by done.
  unfold ascii_eqb.
  destruct (Ascii.eqb_spec c ",") as [->|H1]; [done|].
  destruct (Ascii.eqb_spec c "}") as [->|H2]; [done|].
  destruct c as [[] [] [] [] [] [] [] []]; try done.
Qed.

Lemma key_app name rest :
  Json.key name +:+ rest = String Json.dq (name +:+ String Json.dq (String ":" rest)).
Proof.
  unfold Json.key. by rewrite append_cons, append_assoc, append_cons, append_cons, append_nil_l.
Qed.

Lemma marshal_MediaRef_plain ref :
  plain (Path ref) = true -> plain (FileName ref) = true -> plain (MimeType ref) = true ->
  marshal_MediaRef ref
  = String "{" (String Json.dq ("path" +:+ String Json.dq (String ":" (String Json.dq
      (Path ref +:+ String Json.dq (String ","
      (String Json.dq ("file_name" +:+ String Json.dq (String ":" (String Json.dq
      (FileName ref +:+ String Json.dq (String ","
      (String Json.dq ("mime_type" +:+ String Json.dq (String ":" (String Json.dq
      (MimeType ref +:+ String Json.dq "}"))))))))))))))))).
Proof.
  intros Hp Hf Hm. unfold marshal_MediaRef.
  rewrite (quote_plain _ _ Hm), (quote_plain _ _ Hf), (quote_plain _ _ Hp).
  rewrite !key_app. by rewrite !append_cons, !append_nil_l.
Qed.

(** An object that is not empty. *)
Lemma value_object d s1 :
  Json.value (S (S d)) (String "{" (String Json.dq s1))
  = match Json.members_of (Json.value (S d)) (S (String.length s1)) (String Json.dq s1) with
    | Some (ms, r) => Some (Json.Object ms, r)
    | None => None
    end.
Proof. reflexivity. Qed.

(** The JSON decoder gives back a reference with plain fields. *)
Lemma unmarshal_marshal_plain ref :
  plain (Path ref) = true -> plain (FileName ref) = true -> plain (MimeType ref) = true ->
  unmarshal_MediaRef (marshal_MediaRef ref) = Some ref.
Proof.
  intros Hp Hf Hm. rewrite (marshal_MediaRef_plain ref Hp Hf Hm).
  destruct ref as [p f m]. cbn [Path FileName MimeType] in *.
  unfold unmarshal_MediaRef, Json.unmarshal_strings, Json.parse.
  rewrite (skip_ws_at "{") by done.
  replace (Z.to_nat Json.maxNestingDepth) with (S (Z.to_nat 9999)) by reflexivity.
  rewrite value_object.
  rewrite (member_plain _ _ "path" p ","); [|done..].
  change (ascii_eqb "," ",") with true. cbv iota.
  rewrite (skip_ws_at Json.dq) by done.
  rewrite length_append. cbn [String.length Nat.add].
  rewrite (member_plain _ _ "file_name" f ","); [|done..].
  change (ascii_eqb "," ",") with true. cbv iota.
  rewrite (skip_ws_at Json.dq) by done.
  rewrite !length_append. cbn [String.length Nat.add].
  rewrite (member_plain _ _ "mime_type" m "}"); [|done..].
  vm_compute. reflexivity.
Qed.

Lemma safe_plain s : safe s = true -> plain s = true.
Proof.
  induction s as [|c s IH]; [done|]. unfold safe, plain in *. cbn [all_bytes].
  intros [Hc Hs]%andb_true_iff. rewrite (IH Hs), andb_true_r.
  unfold safe_byte in Hc. by apply andb_true_iff in Hc as [[-> _]%andb_true_iff _].
Qed.

Lemma enc6_not_sep v : 0 <= v < 63 -> negb (ascii_eqb (Base64.enc6 v) "_") = true.
Proof.
  intros Hv.
  assert (Hall : forallb (fun n => negb (ascii_eqb (Base64.enc6 (Z.of_nat n)) "_"))
                   (seq 0 63) = true) by (vm_compute; reflexivity).
  rewrite forallb_forall in Hall. specialize (Hall (Z.to_nat v)).
  rewrite Z2Nat.id in Hall by lia. apply Hall, in_seq. lia.
Qed.

Lemma low_byte_range c : low_byte c = true -> 0 <= byteZ c < 127 /\ byteZ c <> 63.
Proof. unfold low_byte. pose proof (byteZ_range c). lia. Qed.

Lemma safe_low s : safe s = true -> all_bytes low_byte s = true.
Proof.
  induction s as [|c s IH]; [done|]. unfold safe in *. cbn [all_bytes].
  intros [Hc Hs]%andb_true_iff. rewrite (IH Hs), andb_true_r.
  unfold safe_byte, Json.htmlSafe in Hc. unfold low_byte. lia.
Qed.

(** The encoding of such bytes holds no '_'. *)
Lemma EncodeToString_low src :
  all_bytes low_byte src = true ->
  all_bytes (fun x => negb (ascii_eqb x "_")) (Base64.EncodeToString src) = true.
Proof.
  induction src as [|a|a b|a b c rest IH] using string_ind3; cbn [all_bytes].
  - done.
  - intros [Ha%low_byte_range _]%andb_true_iff.
    cbn [Base64.EncodeToString all_bytes].
    rewrite !enc6_not_sep; [done|Z.div_mod_to_equations; lia..].
  - intros [Ha%low_byte_range [Hb%low_byte_range _]%andb_true_iff]%andb_true_iff.
    cbn [Base64.EncodeToString all_bytes].
    rewrite !enc6_not_sep; [done|Z.div_mod_to_equations; lia..].
  - intros [Ha%low_byte_range [Hb%low_byte_range [Hc%low_byte_range Hr]%andb_true_iff]%andb_true_iff]%andb_true_iff.
    cbn [Base64.EncodeToString all_bytes].
    rewrite (IH Hr). rewrite !enc6_not_sep; [done|Z.div_mod_to_equations; lia..].
Qed.

Lemma marshal_MediaRef_low ref :
  safe (Path ref) = true -> safe (FileName ref) = true -> safe (MimeType ref) = true ->
  all_bytes low_byte (marshal_MediaRef ref) = true.
Proof.
  intros Hp Hf Hm.
  rewrite marshal_MediaRef_plain by (by apply safe_plain).
  apply safe_low in Hp, Hf, Hm.
  repeat (cbn [all_bytes]; rewrite ?all_bytes_append).
  rewrite Hp, Hf, Hm. vm_compute. reflexivity.
Qed.

(** The round trip for references with safe fields. *)
Lemma decode_encode_safe secret ref :
  safe (Path ref) = true -> safe (FileName ref) = true -> safe (MimeType ref) = true ->
  Path ref <> "" ->
  DecodeMediaID secret (EncodeMediaID secret ref) = inr ref.
Proof.
  intros Hp Hf Hm Hne. apply decode_encode; [|by apply unmarshal_marshal_plain; apply safe_plain|done].
  apply all_bytes_no_byte, EncodeToString_low. by apply marshal_MediaRef_low.
Qed.

End CodecFacts.

(** ** White space at the ends of a string *)

Module TrimFacts.
Import GoStrings Props NumberFacts StringFacts PathFacts.

Lemma take_drop_str n s : take_str n s +:+ drop_str n s = s.
Proof.
  revert s. induction n as [|n IH]; intros [|c s]; cbn [take_str drop_str]; try done.
  by rewrite append_cons, IH.
Qed.

Lemma length_drop_str n s : String.length (drop_str n s) = (String.length s - n)%nat.
Proof. revert s. induction n as [|n IH]; intros [|c s]; cbn; try done; lia. Qed.

Lemma drop_str_app n a b :
  (n <= String.length a)%nat -> drop_str n (a +:+ b) = drop_str n a +:+ b.
Proof.
  revert a. induction n as [|n IH]; intros [|c a] Hn; cbn in *; try done; try lia.
  apply IH. lia.
Qed.

Lemma drop_str_all n s : (String.length s <= n)%nat -> drop_str n s = "".
Proof. revert s. induction n as [|n IH]; intros [|c s] Hn; cbn in *; try done; try lia. apply IH. lia. Qed.

(** Decoding a white space rune looks at the bytes of the rune only. *)
Lemma DecodeRune_space a r n :
  Utf8.DecodeRuneInString a = (r, n) -> Unicode.IsSpace r = true ->
  (n <= String.length a)%nat
  /\ forall b, Utf8.DecodeRuneInString (take_str n a +:+ b) = (r, n).
Proof.
  intros Hd Hs.
  assert (Herr : forall k, (Utf8.RuneError, k) = (r, n) -> False).
  { intros k [= <- _]. done. }
  unfold Utf8.DecodeRuneInString in *.
  destruct a as [|s0 a]; [by apply Herr in Hd|].
  destruct (byteZ s0 <? 128) eqn:E0.
  { injection Hd as <- <-. split; [cbn; lia|]. intros b. cbn [take_str].
    by rewrite append_cons, E0. }
  destruct (Utf8.lead s0) as [[[sz lo] hi]|] eqn:E1; [|by apply Herr in Hd].
  destruct a as [|s1 a]; [by apply Herr in Hd|].
  destruct (negb (Utf8.in_range lo hi s1)) eqn:E2; [by apply Herr in Hd|].
  destruct (sz <=? 2)%nat eqn:E3.
  { injection Hd as <- <-. split; [cbn; lia|]. intros b. cbn [take_str].
    by rewrite !append_cons, E0, E1, E2, E3. }
  destruct a as [|s2 a]; [by apply Herr in Hd|].
  destruct (negb (Utf8.is_cont s2)) eqn:E4; [by apply Herr in Hd|].
  destruct (sz <=? 3)%nat eqn:E5.
  { injection Hd as <- <-. split; [cbn; lia|]. intros b. cbn [take_str].
    by rewrite !append_cons, E0, E1, E2, E3, E4, E5. }
  destruct a as [|s3 a]; [by apply Herr in Hd|].
  destruct (negb (Utf8.is_cont s3)) eqn:E6; [by apply Herr in Hd|].
  injection Hd as <- <-. split; [cbn; lia|]. intros b. cbn [take_str].
  by rewrite !append_cons, E0, E1, E2, E3, E4, E5, E6.
Qed.

Lemma leads_space_spec s :
  leads_space s = true <->
  exists r n, Utf8.DecodeRuneInString s = (r, n) /\ (0 < n)%nat /\ Unicode.IsSpace r = true.
Proof.
  unfold leads_space. split.
  - destruct (Utf8.DecodeRuneInString s) as [r n].
    intros [Hn Hr]%andb_true_iff. exists r, n. split; [done|]. split; [|done].
    by apply Nat.ltb_lt in Hn.
  - intros (r & n & -> & Hn & ->). apply Nat.ltb_lt in Hn. by rewrite Hn.
Qed.

(** A white space rune at the head of [a] is one at the head of
    [take_str n a +:+ b], and what follows it there is [b]. *)
Lemma white_cons a r n b :
  Utf8.DecodeRuneInString a = (r, n) -> (0 < n)%nat -> Unicode.IsSpace r = true ->
  white b -> white (take_str n a +:+ b).
Proof.
  intros Hd Hn Hr Hb. destruct (DecodeRune_space a r n Hd Hr) as [Hlen Hpre].
  apply white_rune.
  - apply leads_space_spec. exists r, n. by rewrite Hpre.
  - rewrite Hpre. cbn [snd].
    replace n with (String.length (take_str n a)) at 1; [by rewrite drop_str_append|].
    clear -Hlen. revert a Hlen. induction n as [|n IH]; intros [|c a] Hlen; cbn in *; try done; try lia.
    rewrite IH; [done|lia].
Qed.

Lemma white_app a b : white a -> white b -> white (a +:+ b).
Proof.
  intros Ha Hb. induction Ha as [|a Hl _ IH]; [by rewrite append_nil_l|].
  apply leads_space_spec in Hl as (r & n & Hd & Hn & Hr).
  rewrite Hd in IH. cbn [snd] in IH.
  rewrite <- (take_drop_str n a), append_assoc. by apply (white_cons a r n).
Qed.

(** Leading white space. *)
Lemma trim_left_space_spec fuel : forall s,
  exists l, s = l +:+ trim_left_space fuel s /\ white l
    /\ ((String.length s <= fuel)%nat -> leads_space (trim_left_space fuel s) = false).
Proof.
  induction fuel as [|f IH]; intros s.
  - exists "". split; [done|]. split; [constructor|].
    intros Hlen. destruct s; [done|cbn in Hlen; lia].
  - cbn [trim_left_space].
    destruct (Utf8.DecodeRuneInString s) as [r n] eqn:Hd.
    destruct ((0 <? n)%nat && Unicode.IsSpace r) eqn:Hc.
    + apply andb_true_iff in Hc as [Hn Hr]. apply Nat.ltb_lt in Hn.
      destruct (IH (drop_str n s)) as (l & Heq & Hw & Hfuel).
      exists (take_str n s +:+ l). split; [|split].
      * rewrite append_assoc, <- Heq. by rewrite take_drop_str.
      * by apply (white_cons s r n).
      * intros Hs. apply Hfuel. rewrite length_drop_str. lia.
    + exists "". split; [done|]. split; [constructor|].
      intros _. unfold leads_space. by rewrite Hd.
Qed.

Lemma length_take_str n s : String.length (take_str n s) = Nat.min n (String.length s).
Proof. revert s. induction n as [|n IH]; intros [|c s]; cbn; try done. by rewrite IH. Qed.

Lemma take_str_all n s : (String.length s <= n)%nat -> take_str n s = s.
Proof.
  revert s. induction n as [|n IH]; intros [|c s] Hn; cbn in *; try done; try lia.
  rewrite IH; [done|lia].
Qed.

Lemma last_start_bound fuel : forall rs n,
  (Utf8.last_start fuel rs n <= n + String.length rs)%nat.
Proof.
  induction fuel as [|f IH]; intros rs n; [cbn; lia|].
  destruct rs as [|c rs]; [cbn; lia|]. cbn [Utf8.last_start String.length].
  destruct (Utf8.RuneStart c); [lia|]. specialize (IH rs (S n)). lia.
Qed.

(** The last rune, when it is white space, is what the bytes it spans
    decode to. *)
Lemma DecodeLastRune_space s r n :
  Utf8.DecodeLastRuneInString s = (r, n) -> Unicode.IsSpace r = true ->
  (n <= String.length s)%nat
  /\ Utf8.DecodeRuneInString (drop_str (String.length s - n) s) = (r, n).
Proof.
  intros Hd Hs.
  assert (Herr : forall k, (Utf8.RuneError, k) = (r, n) -> False).
  { intros k [= <- _]. done. }
  unfold Utf8.DecodeLastRuneInString in Hd.
  destruct (rev_str s) as [|c rs] eqn:Hrev; [by apply Herr in Hd|].
  assert (Hs' : s = rev_str rs +:+ String c "").
  { by rewrite <- (rev_str_involutive s), Hrev, rev_str_cons. }
  assert (Hlen : String.length s = S (String.length rs)).
  { rewrite Hs', length_append, length_rev_str. cbn. lia. }
  destruct (byteZ c <? 128) eqn:E0.
  - injection Hd as <- <-. split; [lia|].
    replace (String.length s - 1)%nat with (String.length (rev_str rs))
      by (rewrite length_rev_str; lia).
    rewrite Hs', drop_str_append.
    unfold Utf8.DecodeRuneInString. by rewrite E0.
  - cbv zeta in Hd.
    pose proof (last_start_bound 3 rs 1) as Hback.
    set (back := Utf8.last_start 3 rs 1) in *. clearbody back.
    destruct (Utf8.DecodeRuneInString (drop_str (String.length s - back) s))
      as [r' size] eqn:Hdec.
    destruct (Nat.eqb_spec size back) as [Hsize|_]; [|by apply Herr in Hd].
    subst size. injection Hd as <- <-. split; [lia|exact Hdec].
Qed.

Lemma trails_space_spec s :
  trails_space s = true <->
  exists r n, Utf8.DecodeLastRuneInString s = (r, n) /\ (0 < n)%nat
              /\ Unicode.IsSpace r = true.
Proof.
  unfold trails_space. split.
  - destruct (Utf8.DecodeLastRuneInString s) as [r n].
    intros [Hn Hr]%andb_true_iff. exists r, n. split; [done|]. split; [|done].
    by apply Nat.ltb_lt in Hn.
  - intros (r & n & -> & Hn & ->). apply Nat.ltb_lt in Hn. by rewrite Hn.
Qed.

(** Trailing white space. *)
Lemma trim_right_space_spec fuel : forall s,
  exists r, s = trim_right_space fuel s +:+ r /\ white r
    /\ ((String.length s <= fuel)%nat -> trails_space (trim_right_space fuel s) = false).
Proof.
  induction fuel as [|f IH]; intros s.
  - exists "". split; [by rewrite append_nil_r|]. split; [constructor|].
    intros Hlen. destruct s; [done|cbn in Hlen; lia].
  - cbn [trim_right_space].
    destruct (Utf8.DecodeLastRuneInString s) as [r n] eqn:Hd.
    destruct ((0 <? n)%nat && Unicode.IsSpace r) eqn:Hc.
    + apply andb_true_iff in Hc as [Hn Hr]. apply Nat.ltb_lt in Hn.
      destruct (DecodeLastRune_space s r n Hd Hr) as [Hlen Hseg].
      set (k := (String.length s - n)%nat) in *.
      destruct (IH (take_str k s)) as (r' & Heq & Hw & Hfuel).
      exists (r' +:+ drop_str k s). split; [|split].
      * rewrite <- append_assoc, <- Heq. by rewrite take_drop_str.
      * apply white_app; [done|].
        assert (Hn' : String.length (drop_str k s) = n)
          by (rewrite length_drop_str; unfold k; lia).
        pose proof (white_cons (drop_str k s) r n "" Hseg Hn Hr white_nil) as Hwc.
        rewrite append_nil_r in Hwc.
        rewrite take_str_all in Hwc; [done|lia].
      * intros Hs. apply Hfuel. rewrite length_take_str. unfold k. lia.
    + exists "". split; [by rewrite append_nil_r|]. split; [constructor|].
      intros _. unfold trails_space. by rewrite Hd.
Qed.

(** [TrimSpace] cuts a run of white space runes off each end, and what it
    returns neither begins nor ends with white space. *)
Lemma TrimSpace_spec value :
  exists l r,
    value = l +:+ TrimSpace value +:+ r /\ white l /\ white r
    /\ leads_space (TrimSpace value) = false
    /\ trails_space (TrimSpace value) = false.
Proof.
  unfold TrimSpace. cbv zeta.
  destruct (trim_left_space_spec (String.length value) value) as (l & Hl & Wl & Ll).
  set (mid := trim_left_space (String.length value) value) in *.
  destruct (trim_right_space_spec (String.length mid) mid) as (r & Hr & Wr & Tr).
  exists l, r. split; [by rewrite <- Hr|]. split; [done|]. split; [done|].
  split; [|by apply Tr].
  set (res := trim_right_space (String.length mid) mid) in *.
  destruct (leads_space res) eqn:E; [|done].
  apply leads_space_spec in E as (r0 & n0 & Hd & Hn & Hs).
  destruct (DecodeRune_space res r0 n0 Hd Hs) as [_ Hpre].
  specialize (Hpre (drop_str n0 res +:+ r)).
  rewrite <- append_assoc, take_drop_str, <- Hr in Hpre.
  assert (leads_space mid = true) by (apply leads_space_spec; eauto).
  rewrite Ll in H; [done|lia].
Qed.

End TrimFacts.

Module HandlerFacts.
Import GoStrings Utils Handlers Props NumberFacts StringFacts PathFacts CodecFacts.

Section Runs.
Variable env : Env.

Lemma after_nil w : after w [] = w.
Proof. destruct w. unfold after. simpl. by rewrite app_nil_r. Qed.

Lemma after_after w a b : after (after w a) b = after w (a ++ b).
Proof. unfold after. simpl. by rewrite app_assoc. Qed.

Lemma request_run c w : request env c w = (env (trace w) c, after w [c]).
Proof. reflexivity. Qed.

Lemma Stat_run p w :
  Stat env p w
  = (let r := env (trace w) (HEAD p) in
     if is_present r then (true, reported_size r, None)
     else if is_absent r then (false, 0, None)
     else (false, 0, Some (if failed r then Wrapped "failed to stat file" RequestFailed
                           else UnexpectedStatus (status r))),
     after w [HEAD p]).
Proof.
  unfold Stat, func, bind, lift, when, Return, ret, is_present, is_absent, reported_size.
  rewrite request_run. cbn zeta.
  destruct (failed (env (trace w) (HEAD p))); [done|]. simpl.
  unfold StatusNotFound, StatusOK, StatusNoContent.
  destruct (status (env (trace w) (HEAD p)) =? 404) eqn:E404.
  - apply Z.eqb_eq in E404. rewrite E404. done.
  - destruct (status (env (trace w) (HEAD p)) =? 200) eqn:E200;
    destruct (status (env (trace w) (HEAD p)) =? 204) eqn:E204; simpl; try done.
    all: destruct (String.eqb_spec (hdrContentLength (env (trace w) (HEAD p))) "") as [->|]; done.
Qed.

Lemma UploadReader_run p b n w :
  UploadReader env p b n w
  = (let r := env (trace w) (PUT p b n) in
     if failed r then Some (Wrapped "failed to upload file" RequestFailed)
     else if (status r =? 201) || (status r =? 204) then None
     else Some (UnexpectedStatus (status r)),
     after w [PUT p b n]).
Proof.
  unfold UploadReader, func, bind, lift, when, Return, ret.
  rewrite request_run. cbn zeta.
  destruct (failed (env (trace w) (PUT p b n))); [done|]. simpl.
  unfold StatusCreated, StatusNoContent.
  destruct (status _ =? 201), (status _ =? 204); done.
Qed.

Lemma DeleteFile_run p w :
  DeleteFile env p w
  = (let r := env (trace w) (DELETE p) in
     if failed r then Some (Wrapped "failed to delete file" RequestFailed)
     else if (status r =? 404) || (status r =? 200) || (status r =? 204) then None
     else Some (UnexpectedStatus (status r)),
     after w [DELETE p]).
Proof.
  unfold DeleteFile, func, bind, lift, when, Return, ret.
  rewrite request_run. cbn zeta.
  destruct (failed (env (trace w) (DELETE p))); [done|]. simpl.
  unfold StatusNotFound, StatusOK, StatusNoContent.
  destruct (status _ =? 404), (status _ =? 200), (status _ =? 204); done.
Qed.

Lemma present_not_absent r : is_present r = true -> is_absent r = false.
Proof.
  unfold is_present, is_absent. destruct (failed r); [done|]. simpl.
  destruct (status r =? 404) eqn:E; [|done]. apply Z.eqb_eq in E. by rewrite E.
Qed.

Lemma absent_not_present r : is_absent r = true -> is_present r = false.
Proof. intros H. destruct (is_present r) eqn:E; [|done]. apply present_not_absent in E. congruence. Qed.

Lemma addCounterSuffix_eta p i : addCounterSuffix p i = (candidate p i, candidate_name p i).
Proof. unfold candidate, candidate_name. by destruct (addCounterSuffix p i). Qed.

Lemma find_free_step remaining i p f w :
  find_free env (S remaining) i p f w
  = (let r := env (trace w) (HEAD (candidate p i)) in
     if is_present r then find_free env remaining (i + 1) p f (after w [HEAD (candidate p i)])
     else if is_absent r
          then (inr (candidate p i, candidate_name p i), after w [HEAD (candidate p i)])
          else (inl (Some (Wrapped "failed to check existing file"
                             (if failed r then Wrapped "failed to stat file" RequestFailed
                              else UnexpectedStatus (status r)))),
                after w [HEAD (candidate p i)])).
Proof.
  cbn [find_free]. rewrite addCounterSuffix_eta. unfold bind, lift. rewrite Stat_run. cbn zeta.
  destruct (is_present _); [done|]. destruct (is_absent _); done.
Qed.

Lemma find_free_exhausted remaining : forall i p f w,
  (forall j, (j < remaining)%nat ->
     is_present (env (probing w p i j) (HEAD (candidate p (i + Z.of_nat j)))) = true) ->
  find_free env remaining i p f w = (inr (p, f), after w (map HEAD (candidates p i remaining))).
Proof.
  induction remaining as [|k IH]; intros i p f w Hall.
  - simpl. by rewrite after_nil.
  - rewrite find_free_step. cbn zeta.
    pose proof (Hall 0%nat ltac:(lia)) as H0. unfold probing in H0. simpl in H0.
    rewrite app_nil_r, Z.add_0_r in H0. rewrite H0.
    rewrite IH.
    + by rewrite after_after.
    + intros j Hj. specialize (Hall (S j) ltac:(lia)). unfold probing in *. simpl in *.
      rewrite <- app_assoc. simpl.
      replace (i + 1 + Z.of_nat j) with (i + Z.pos (Pos.of_succ_nat j)) by lia. done.
Qed.

Lemma find_free_found remaining : forall i p f w k,
  (k < remaining)%nat ->
  (forall j, (j < k)%nat ->
     is_present (env (probing w p i j) (HEAD (candidate p (i + Z.of_nat j)))) = true) ->
  is_absent (env (probing w p i k) (HEAD (candidate p (i + Z.of_nat k)))) = true ->
  find_free env remaining i p f w
  = (inr (candidate p (i + Z.of_nat k), candidate_name p (i + Z.of_nat k)),
     after w (map HEAD (candidates p i (S k)))).
Proof.
  induction remaining as [|n IH]; intros i p f w k Hk Hpre Habs; [lia|].
  rewrite find_free_step. cbn zeta. destruct k as [|k].
  - unfold probing in Habs. simpl in Habs. rewrite app_nil_r, Z.add_0_r in Habs.
    rewrite (absent_not_present _ Habs), Habs. by rewrite Z.add_0_r.
  - pose proof (Hpre 0%nat ltac:(lia)) as H0. unfold probing in H0. simpl in H0.
    rewrite app_nil_r, Z.add_0_r in H0. rewrite H0.
    rewrite (IH (i + 1) p f _ k); [| lia | |].
    + rewrite after_after. replace (i + 1 + Z.of_nat k) with (i + Z.of_nat (S k)) by lia. done.
    + intros j Hj. specialize (Hpre (S j) ltac:(lia)). unfold probing in *. simpl in *.
      rewrite <- app_assoc. simpl.
      replace (i + 1 + Z.of_nat j) with (i + Z.pos (Pos.of_succ_nat j)) by lia. done.
    + unfold probing in *. simpl in *. rewrite <- app_assoc. simpl.
      replace (i + 1 + Z.of_nat k) with (i + Z.pos (Pos.of_succ_nat k)) by lia. done.
Qed.

End Runs.

Section Place.
Variable env : Env.

Lemma place_run p f n w :
  place env p f n w
  = (let r := env (trace w) (HEAD p) in
     if is_present r then
       if (0 <? n) && (reported_size r =? n) then (inr (p, f, false), after w [HEAD p])
       else
         match find_free env 1000 1 p f (after w [HEAD p]) with
         | (inl e, w') => (inl e, w')
         | (inr (finalPath, finalFilename), w') =>
           if String.eqb finalPath p then (inl (Some (NoFreeName p)), w')
           else (inr (finalPath, finalFilename, true), w')
         end
     else if is_absent r then (inr (p, f, true), after w [HEAD p])
     else (inl (Some (Wrapped "failed to check existing file"
                        (if failed r then Wrapped "failed to stat file" RequestFailed
                         else UnexpectedStatus (status r)))),
           after w [HEAD p])).
Proof.
  unfold place, bind, lift. rewrite Stat_run. cbn zeta.
  destruct (is_present _).
  - destruct ((0 <? n) && _); [done|].
    destruct (find_free env 1000 1 p f _) as [[e|[fp fn]] w']; [done|].
    unfold when. destruct (String.eqb fp p); done.
  - destruct (is_absent _); done.
Qed.

Lemma place_and_upload_run p f data w :
  place_and_upload env p f data w
  = (let n := Z.of_nat (String.length data) in
     match place env p f n w with
     | (inl e, w') => (inl e, w')
     | (inr (finalPath, finalFilename, false), w') => (inr (finalPath, finalFilename), w')
     | (inr (finalPath, finalFilename, true), w') =>
       match upload_outcome (env (trace w') (PUT finalPath data n)) with
       | Some e => (inl (Some (Wrapped "failed to upload to nextcloud" e)),
                    after w' [PUT finalPath data n])
       | None => (inr (finalPath, finalFilename), after w' [PUT finalPath data n])
       end
     end).
Proof.
  unfold place_and_upload, bind. cbn zeta.
  destruct (place env p f _ w) as [[e|[[fp fn] [|]]] w']; try done.
  unfold when, lift, bind. rewrite UploadReader_run. cbn zeta. fold (upload_outcome (env (trace w') (PUT fp data (Z.of_nat (String.length data))))).
  destruct (upload_outcome _); done.
Qed.

End Place.

Lemma dav_files_snoc history c :
  dav_files (history ++ [c])%list = dav_step (dav_files history) c.
Proof. unfold dav_files. by rewrite fold_left_app. Qed.

Lemma place_and_upload_reuse env p f data w :
  is_present (env (trace w) (HEAD p)) = true ->
  reported_size (env (trace w) (HEAD p)) = Z.of_nat (String.length data) ->
  0 < Z.of_nat (String.length data) ->
  place_and_upload env p f data w = (inr (p, f), after w [HEAD p]).
Proof.
  intros Hp Hs Hn. rewrite place_and_upload_run. cbn zeta. rewrite place_run. cbn zeta.
  rewrite Hp, Hs, Z.eqb_refl. by destruct (Z.ltb_spec 0 (Z.of_nat (String.length data))); [|lia].
Qed.

Lemma place_and_upload_fresh env p f data w :
  is_absent (env (trace w) (HEAD p)) = true ->
  place_and_upload env p f data w
  = (match upload_outcome (env (trace w ++ [HEAD p])%list
                             (PUT p data (Z.of_nat (String.length data)))) with
     | Some e => inl (Some (Wrapped "failed to upload to nextcloud" e))
     | None => inr (p, f)
     end, after w [HEAD p; PUT p data (Z.of_nat (String.length data))]).
Proof.
  intros Ha. rewrite place_and_upload_run. cbn zeta. rewrite place_run. cbn zeta.
  rewrite (absent_not_present _ Ha), Ha. cbn [trace after].
  destruct (upload_outcome _); by rewrite after_after.
Qed.

End HandlerFacts.

Module TraceFacts.
Import GoStrings Utils Handlers Props NumberFacts StringFacts PathFacts CodecFacts HandlerFacts.

Section Emits.
Variable env : Env.
Variable P : Call -> Prop.

Lemma emits_ret {R A} (a : A) : emits P (@ret R A a).
Proof. intros w. exists []. by rewrite app_nil_r. Qed.

Lemma emits_Return {R A} (r : R) : emits P (@Return R A r).
Proof. intros w. exists []. by rewrite app_nil_r. Qed.

Lemma emits_bind {R A B} (m : Code R A) (k : A -> Code R B) :
  emits P m -> (forall a, emits P (k a)) -> emits P (bind m k).
Proof.
  intros Hm Hk w. unfold bind. destruct (Hm w) as (a1 & E1 & F1).
  destruct (m w) as [[r|a] w1]; simpl in *.
  - by exists a1.
  - destruct (Hk a w1) as (a2 & E2 & F2). exists (a1 ++ a2)%list.
    rewrite E2, E1, app_assoc. split; [done|]. by apply Forall_app.
Qed.

Lemma emits_lift {R A} (m : Run A) : emits P m -> emits P (@lift R A m).
Proof.
  intros Hm w. unfold lift. destruct (Hm w) as (a1 & E1 & F1).
  destruct (m w) as [a w1]. by exists a1.
Qed.

Lemma emits_func {R} (b : Code R R) : emits P b -> emits P (func b).
Proof.
  intros Hb w. unfold func. destruct (Hb w) as (a1 & E1 & F1).
  destruct (b w) as [[r|r] w1]; by exists a1.
Qed.

Lemma emits_when {R} (c : bool) (m : Code R unit) : emits P m -> emits P (when c m).
Proof. intros Hm. destruct c; [done|apply emits_ret]. Qed.

Lemma emits_request c : P c -> emits P (request env c).
Proof. intros Hc w. exists [c]. split; [done|]. by constructor. Qed.

Lemma emits_silent {X} (f : World -> X) (g : World -> gset string) :
  emits P (fun w => (f w, mkWorld (trace w) (g w))).
Proof. intros w. exists []. simpl. by rewrite app_nil_r. Qed.

End Emits.

Create HintDb emits.
#[export] Hint Resolve emits_ret emits_Return emits_lift emits_func emits_when
  emits_request : emits.

Ltac emits_step :=
  first [ apply emits_bind; [|intros ?]
        | apply emits_func | apply emits_lift | apply emits_when
        | apply emits_ret | apply emits_Return
        | apply emits_request; done
        | match goal with
          | |- emits _ (match ?x with _ => _ end) => destruct x
          end ].

Section Blocks.
Variable env : Env.
Variable P : Call -> Prop.

Ltac silent := intros w; exists []; simpl; by rewrite app_nil_r.

Lemma CreateDirectory_emits p : P (MKCOL p) -> emits P (CreateDirectory env p).
Proof. intros HP. unfold CreateDirectory. repeat emits_step; silent. Qed.

Lemma UploadReader_emits p b n : P (PUT p b n) -> emits P (UploadReader env p b n).
Proof. intros HP. unfold UploadReader. repeat emits_step. Qed.

Lemma Stat_emits p : P (HEAD p) -> emits P (Stat env p).
Proof. intros HP. unfold Stat. repeat emits_step. Qed.

Lemma DeleteFile_emits p : P (DELETE p) -> emits P (DeleteFile env p).
Proof. intros HP. unfold DeleteFile. repeat emits_step. Qed.

Hypothesis P_storage : forall c, is_placement_call c = true -> P c.

Lemma ensure_dirs_emits dirs : forall current, emits P (ensure_dirs env dirs current).
Proof.
  induction dirs as [|dir rest IH]; intros current; cbn [ensure_dirs]; [apply emits_ret|].
  destruct (_ || _); [apply IH|].
  apply emits_bind; [apply emits_lift, CreateDirectory_emits; by apply P_storage|].
  intros [e|]; [apply emits_Return|apply IH].
Qed.

Lemma EnsureDirectories_emits p : emits P (EnsureDirectories env p).
Proof.
  unfold EnsureDirectories. apply emits_func, emits_bind; [apply ensure_dirs_emits|].
  intros _. apply emits_Return.
Qed.

Lemma find_free_emits remaining : forall i p f, emits P (find_free env remaining i p f).
Proof.
  induction remaining as [|k IH]; intros i p f; cbn [find_free]; [apply emits_ret|].
  destruct (addCounterSuffix p i) as [cp cn].
  apply emits_bind; [apply emits_lift, Stat_emits; by apply P_storage|].
  intros [[ex sz] [e|]]; [apply emits_Return|].
  destruct (negb ex); [apply emits_ret|apply IH].
Qed.

Lemma place_emits p f n : emits P (place env p f n).
Proof.
  unfold place. apply emits_bind; [apply emits_lift, Stat_emits; by apply P_storage|].
  intros [[ex sz] [e|]]; [apply emits_Return|].
  destruct ex; [|apply emits_ret].
  destruct (_ && _); [apply emits_ret|].
  apply emits_bind; [apply find_free_emits|]. intros [fp fn].
  repeat emits_step.
Qed.

Lemma place_and_upload_emits p f data : emits P (place_and_upload env p f data).
Proof.
  unfold place_and_upload. apply emits_bind; [apply place_emits|].
  intros [[fp fn] up]. apply emits_bind; [|intros; apply emits_ret].
  apply emits_when, emits_bind; [apply emits_lift, UploadReader_emits; by apply P_storage|].
  intros [e|]; [apply emits_Return|apply emits_ret].
Qed.

End Blocks.

Section Handler.
Variable env : Env.
Variable IsMedia : string -> bool.
Variable ParseContentURI : string -> option ContentURI.
Variable PrepareForDecryption : EncryptedFileInfo -> bool.
Variable DecryptFile : EncryptedFileInfo -> string -> option string.
Variable now : GoTime.Time.
Variable range_order : list (string * string) -> list (string * string).


Lemma acquire_emits h evt msg :
  emits fetching (acquire env ParseContentURI PrepareForDecryption DecryptFile h evt msg).
Proof.
  unfold acquire. repeat emits_step.
Qed.

Lemma fetching_not_sending c : is_fetch_or_place c = true -> is_SendMessageEvent c = false.
Proof. by destruct c. Qed.

Lemma fetching_not_cleanup c : is_fetch_or_place c = true -> is_cleanup_or_record c = false.
Proof. by destruct c. Qed.

Lemma handleRedactionEvent_emits h evt :
  emits not_sending (handleRedactionEvent env h evt).
Proof.
  unfold handleRedactionEvent, deleteFromStateEvent.
  repeat emits_step.
Qed.

Lemma storeMediaState_emits h room eid path name mxc :
  emits not_sending (storeMediaState env h room eid path name mxc).
Proof. unfold storeMediaState. repeat emits_step. Qed.

Lemma deleteLocalMedia_emits h server mid :
  emits not_sending (deleteLocalMedia env h server mid).
Proof. unfold deleteLocalMedia. repeat emits_step. Qed.

Lemma shaped_quiet {A} (m : Code (option goerror) A) : emits not_sending m -> shaped env m.
Proof. intros Hm w. destruct (Hm w) as (added & E & F). exists added. split; [done|by left]. Qed.

Lemma shaped_after_fetching {A B} (m : Code (option goerror) A) (k : A -> Code (option goerror) B) :
  emits fetching m -> (forall a, shaped env (k a)) -> shaped env (bind m k).
Proof.
  intros Hm Hk w. unfold bind. destruct (Hm w) as (a1 & E1 & F1).
  destruct (m w) as [[r|a] w1]; simpl in *.
  - exists a1. split; [done|]. left. eapply Forall_impl; [done|]. apply fetching_not_sending.
  - destruct (Hk a w1) as (a2 & E2 & S2). exists (a1 ++ a2)%list.
    split; [by rewrite E2, E1, app_assoc|].
    destruct S2 as [F2|(pre & c & post & -> & Hc & Fpre & Fpost & Hfail)].
    + left. apply Forall_app. split; [|done].
      eapply Forall_impl; [done|]. apply fetching_not_sending.
    + right. exists (a1 ++ pre)%list, c, post. rewrite app_assoc.
      split; [done|]. split; [done|]. split; [by apply Forall_app|]. split; [done|].
      intros Hf. apply Hfail. by rewrite E1, <- app_assoc.
Qed.

Lemma shaped_edit {A} (c : Call) (k : Response -> Code (option goerror) A) :
  is_SendMessageEvent c = true ->
  (forall resp, emits not_sending (k resp)) ->
  shaped env (bind (lift (request env c))
            (fun resp => bind (when (failed resp) (Return None)) (fun _ => k resp))).
Proof.
  intros Hc Hk w. unfold bind, lift, when, Return, ret. rewrite request_run.
  cbn beta iota zeta.
  destruct (failed (env (trace w) c)) eqn:Hf.
  - exists [c]. cbn [fst snd trace after].
    split; [done|]. right. exists [], c, [].
    split; [done|]. split; [done|]. split; [done|]. split; [done|]. done.
  - destruct (Hk (env (trace w) c) (after w [c])) as (post & E & F).
    exists (c :: post). split.
    + rewrite E. cbn [trace after]. by rewrite <- app_assoc.
    + right. exists [], c, post.
      split; [done|]. split; [done|]. split; [done|]. split; [done|].
      rewrite app_nil_r. congruence.
Qed.

Lemma shaped_then_Return {A B} (m : Code (option goerror) A) (r : option goerror) :
  shaped env m -> shaped env (bind m (fun _ => @Return (option goerror) B r)).
Proof.
  intros Hm w. destruct (Hm w) as (added & E & S). exists added. unfold bind.
  destruct (m w) as [[e|a] w1]; simpl in *; (split; [done|]).
  - destruct S as [F|(pre & c & post & -> & Hc & Fpre & Fpost & Hfail)]; [by left|].
    right. exists pre, c, post.
    split; [done|]. split; [done|]. split; [done|]. split; [done|].
    intros Hf. destruct (Hfail Hf) as [-> ?]. split; [done|]. congruence.
  - destruct S as [F|(pre & c & post & -> & Hc & Fpre & Fpost & Hfail)]; [by left|].
    right. exists pre, c, post.
    split; [done|]. split; [done|]. split; [done|]. split; [done|].
    intros Hf. destruct (Hfail Hf) as [-> ?]. done.
Qed.

Lemma rewrite_shaped h evt msg filename finalPath finalFilename mimeType n parsedURL :
  shaped env (bind (rewrite env h evt msg filename finalPath finalFilename mimeType n parsedURL)
            (fun _ => @Return (option goerror) (option goerror) None)).
Proof.
  apply shaped_then_Return. unfold rewrite. cbn zeta.
  apply shaped_edit; [done|]. intros resp.
  repeat emits_step.
Qed.

Lemma shaped_exit {A B} (m : Code (option goerror) A) (k : A -> Code (option goerror) B) :
  emits not_sending m -> (forall w, exists r, fst (m w) = inl r) -> shaped env (bind m k).
Proof.
  intros Hm Hexit w. destruct (Hm w) as (added & E & F). destruct (Hexit w) as [r Hr].
  exists added. unfold bind. destruct (m w) as [[e|a] w1]; [|done].
  split; [done|by left].
Qed.

Lemma fetching_placement c : is_placement_call c = true -> is_fetch_or_place c = true.
Proof. by destruct c. Qed.

Ltac shaped_step :=
  first
    [ apply rewrite_shaped
    | apply shaped_after_fetching;
      [ first [ apply acquire_emits
              | apply emits_lift, EnsureDirectories_emits, fetching_placement
              | apply place_and_upload_emits, fetching_placement
              | solve [repeat emits_step] ]
      | intros ? ]
    | match goal with
      | |- shaped _ (match ?x with _ => _ end) => destruct x
      | |- shaped _ (let '(_, _) := ?x in _) => destruct x
      end
    | apply shaped_quiet; solve [repeat emits_step] ].

Lemma HandleMatrixEvent_body_shaped h evt :
  forall w, exists added,
    trace (snd (HandleMatrixEvent env IsMedia ParseContentURI PrepareForDecryption DecryptFile
                  now range_order h evt w)) = (trace w ++ added)%list
    /\ edits_once env w
         (fst (HandleMatrixEvent env IsMedia ParseContentURI PrepareForDecryption DecryptFile
                 now range_order h evt w) = None) added.
Proof.
  unfold HandleMatrixEvent.
  match goal with |- forall w, exists added, trace (snd (func ?b w)) = _ /\ _ =>
    assert (Hb : shaped env b) end.
  { destruct (evType evt).
    - apply shaped_exit.
      + repeat emits_step.
      + intros w. unfold when, bind, lift, Return.
        destruct (handleRedactionEvent env h evt w). by eexists.
    - cbv iota. unfold when at 1. repeat shaped_step.
    - cbv iota. unfold when at 1 2. repeat shaped_step. }
  intros w. destruct (Hb w) as (added & E & S). exists added. unfold func.
  match goal with |- context [func ?b] => idtac | |- _ => idtac end.
  match type of E with trace (snd (?b w)) = _ => destruct (b w) as [[r|r] w1] end;
    simpl in *; (split; [done|]).
  - destruct S as [F|(pre & c & post & -> & Hc & Fpre & Fpost & Hfail)]; [by left|].
    right. exists pre, c, post.
    split; [done|]. split; [done|]. split; [done|]. split; [done|].
    intros Hf. destruct (Hfail Hf) as [-> ?]. split; [done|]. congruence.
  - destruct S as [F|(pre & c & post & -> & Hc & Fpre & Fpost & Hfail)]; [by left|].
    right. exists pre, c, post.
    split; [done|]. split; [done|]. split; [done|]. split; [done|].
    intros Hf. destruct (Hfail Hf) as [-> ?]. done.
Qed.

End Handler.

Section Redaction.
Variable env : Env.

Lemma deleteFromStateEvent_run h room id w :
  deleteFromStateEvent env h room id w
  = (let answer := env (trace w) (StateEvent room id) in
     if record_verifies h answer then
       (match delete_outcome (env (trace w ++ [StateEvent room id])%list
                                (DELETE (msPath (state answer)))) with
        | Some e => Some (Wrapped ("failed to delete Nextcloud file "
                                   +:+ msPath (state answer)) e)
        | None => None
        end,
        after w [StateEvent room id; DELETE (msPath (state answer))])
     else (None, after w [StateEvent room id])).
Proof.
  unfold deleteFromStateEvent, func, bind, lift, when, Return, ret, record_verifies.
  rewrite request_run. cbn beta iota zeta.
  destruct (failed (env (trace w) (StateEvent room id))); [done|].
  destruct (String.eqb (msPath _) ""); [done|].
  destruct (String.eqb (msSignature _) ""); [done|].
  destruct (verifyMediaState h _); [|done]. simpl.
  rewrite DeleteFile_run. cbn zeta. fold (delete_outcome (env (trace (after w [StateEvent room id]))
       (DELETE (msPath (state (env (trace w) (StateEvent room id))))))).
  cbn [trace after]. rewrite after_after.
  by destruct (delete_outcome _).
Qed.

Lemma handleRedactionEvent_run h evt w :
  handleRedactionEvent env h evt w
  = match redaction_target evt with
    | None => (None, w)
    | Some target => deleteFromStateEvent env h (evRoomID evt) target w
    end.
Proof.
  unfold handleRedactionEvent, redaction_target, func, bind, lift, when, Return, ret.
  destruct (evContent evt); try done.
  all: cbn beta iota zeta;
    match goal with |- context [String.eqb ?r ""] => destruct (String.eqb r "") end;
    try done; by destruct (deleteFromStateEvent _ _ _ _ _).
Qed.

End Redaction.

Lemma unique_edit (pre pre0 post post0 : list Call) (c c0 : Call) :
  (pre ++ c :: post = pre0 ++ c0 :: post0)%list ->
  is_SendMessageEvent c = true -> is_SendMessageEvent c0 = true ->
  Forall not_sending pre -> Forall not_sending post ->
  pre0 = pre /\ c0 = c /\ post0 = post.
Proof.
  revert pre0. induction pre as [|x pre IH]; intros pre0 Heq Hc Hc0 Fpre Fpost.
  - destruct pre0 as [|y pre0]; simpl in Heq.
    + by injection Heq as -> ->.
    + injection Heq as -> ->. apply Forall_app in Fpost as [_ F].
      apply Forall_cons in F as [F _]. congruence.
  - apply Forall_cons in Fpre as [Hx Fpre]. destruct pre0 as [|y pre0]; simpl in Heq.
    + injection Heq as -> _. congruence.
    + injection Heq as -> Heq. destruct (IH pre0 Heq Hc Hc0 Fpre Fpost) as (-> & -> & ->).
      done.
Qed.

Lemma verifyMediaState_iff h st :
  verifyMediaState h st = true
  <-> msSignature st <> ""
      /\ msSignature st
         = SignBytes (mediaIDSecret h)
             (marshal_mediaState (mkMediaState (msPath st) (msFileName st) (msMXC st) "")).
Proof.
  unfold verifyMediaState. destruct (String.eqb_spec (msSignature st) "") as [He|Hne].
  - split; [done|]. by intros [? _].
  - rewrite VerifyBytes_iff. unfold clear_signature. split; [done|]. by intros [_ ?].
Qed.

Lemma record_verifies_iff h answer :
  record_verifies h answer = true <-> valid_record h answer.
Proof.
  unfold record_verifies, valid_record.
  rewrite !andb_true_iff, !negb_true_iff, verifyMediaState_iff, !String.eqb_neq.
  tauto.
Qed.

End TraceFacts.

(** * The requests of the orchestrator *)

Module RequestFacts.
Import GoStrings GoTime Utils Handlers Props HandlerProps.
Import NumberFacts StringFacts PathFacts CodecFacts HandlerFacts TraceFacts.
Local Open Scope Z_scope.

Local Abbreviation no_upload := (fun c => is_PUT c = false).

Section Requests.
Variable env : Env.
Variable IsMedia : string -> bool.
Variable ParseContentURI : string -> option ContentURI.
Variable PrepareForDecryption : EncryptedFileInfo -> bool.
Variable DecryptFile : EncryptedFileInfo -> string -> option string.
Variable now : GoTime.Time.
Variable range_order : list (string * string) -> list (string * string).

Let handle_event :=
  HandleMatrixEvent env IsMedia ParseContentURI PrepareForDecryption DecryptFile now range_order.

Lemma emits_exit {R A B} (P : Call -> Prop) (m : Code R A) (k : A -> Code R B) :
  emits P m -> (forall w, exists r, fst (m w) = inl r) -> emits P (bind m k).
Proof.
  intros Hm Hexit w. destruct (Hm w) as (added & E & F). destruct (Hexit w) as [r Hr].
  exists added. unfold bind. by destruct (m w) as [[e|a] w1].
Qed.

Lemma deleteLocalMedia_gated h server mid :
  emits (fun c => message_call h c = true) (deleteLocalMedia env h server mid).
Proof.
  unfold deleteLocalMedia.
  destruct (MatrixAdminEnabled (config h)) eqn:E1; cbn [negb when];
    [|intros w; exists []; by rewrite app_nil_r].
  destruct (String.eqb (MatrixAdminAccessToken (config h)) "") eqn:E2; cbn [when];
    [intros w; exists []; by rewrite app_nil_r|].
  apply emits_func. apply emits_bind; [apply emits_ret|]. intros _.
  apply emits_bind; [apply emits_ret|]. intros _.
  apply emits_bind; [apply emits_lift, emits_request; cbn; by rewrite E1, E2|].
  intros resp. repeat emits_step.
Qed.


Lemma signed_record_verifies h path name mxc :
  verifyMediaState h
    (mkMediaState path name mxc (signMediaState h (mkMediaState path name mxc ""))) = true.
Proof.
  unfold verifyMediaState. cbn [msSignature].
  destruct (String.eqb_spec (signMediaState h (mkMediaState path name mxc "")) "") as [He|_].
  - by apply SignBytes_not_empty in He.
  - apply VerifyBytes_iff. reflexivity.
Qed.

Lemma storeMediaState_sends h evt path name mxc :
  emits (well_formed_send h evt)
    (storeMediaState env h (evRoomID evt) (evID evt) path name mxc).
Proof.
  unfold storeMediaState. cbv zeta. apply emits_func.
  apply emits_bind; [|intros; apply emits_Return].
  apply emits_lift, emits_request. unfold well_formed_send.
  split; [reflexivity|]. split; [reflexivity|]. apply signed_record_verifies.
Qed.

Lemma quiet_sends h evt c :
  is_SendMessageEvent c = false ->
  match c with SendStateEvent _ _ _ => False | _ => True end ->
  well_formed_send h evt c.
Proof. by destruct c. Qed.

(** The messages an event leads to replace that event. *)
Lemma HandleMatrixEvent_replaces (h : MediaHandler) (evt : Event) :
  emits (edit_of evt) (handle_event h evt).
Proof.
  unfold handle_event, HandleMatrixEvent.
  destruct (evType evt).
  - apply emits_func. apply emits_exit.
    + cbn [when]. apply emits_bind; [|intros; apply emits_Return].
      apply emits_lift. unfold handleRedactionEvent, deleteFromStateEvent.
      repeat emits_step.
    + intros w. unfold when, bind, lift, Return.
      destruct (handleRedactionEvent env h evt w). by eexists.
  - apply emits_func. cbv iota. unfold when at 1 2.
    apply emits_bind; [apply emits_ret|]. intros _.
    apply emits_bind; [apply emits_ret|]. intros _.
    apply emits_bind; [repeat emits_step|]. intros _.
    destruct (_ !! _); [|apply emits_Return].
    apply emits_bind; [repeat emits_step|]. intros _.
    destruct (AsMessage _) as [msg|]; [|apply emits_Return].
    apply emits_bind; [repeat emits_step|]. intros _.
    apply emits_bind; [repeat emits_step|]. intros _.
    apply emits_bind; [unfold acquire; repeat emits_step|]. intros [[data uri] mime].
    apply emits_bind; [apply emits_lift, EnsureDirectories_emits; by intros []|].
    intros [e|]; [apply emits_Return|].
    apply emits_bind; [apply place_and_upload_emits; by intros []|]. intros [fp fn].
    apply emits_bind; [|intros; apply emits_Return].
    unfold rewrite, storeMediaState, deleteLocalMedia. cbv zeta. repeat emits_step.
  - apply emits_func. cbv iota. unfold when at 1 2.
    apply emits_bind; [apply emits_ret|]. intros _.
    apply emits_exit; [apply emits_Return|]. intros w. by eexists.
Qed.


Lemma careful_quiet {X} (m : World -> X * World) : emits no_upload m -> uploads_carefully env m.
Proof. intros Hm w. destruct (Hm w) as (added & E & F). exists added. split; [done|by left]. Qed.

Lemma careful_after_quiet {R A B} (m : Code R A) (k : A -> Code R B) :
  emits no_upload m -> (forall a, uploads_carefully env (k a)) ->
  uploads_carefully env (bind m k).
Proof.
  intros Hm Hk w. unfold bind. destruct (Hm w) as (a1 & E1 & F1).
  destruct (m w) as [[r|a] w1]; simpl in *.
  - exists a1. split; [done|by left].
  - destruct (Hk a w1) as (a2 & E2 & S2). exists (a1 ++ a2)%list.
    split; [by rewrite E2, E1, app_assoc|].
    destruct S2 as [F2|(pre & p & b & n & post & -> & Fpre & Fpost & Habs)].
    + left. by apply Forall_app.
    + right. exists (a1 ++ pre)%list, p, b, n, post. rewrite app_assoc.
      split; [done|]. split; [by apply Forall_app|]. split; [done|].
      by rewrite app_assoc, <- E1.
Qed.

Lemma careful_then_quiet {R A B} (m : Code R A) (k : A -> Code R B) :
  uploads_carefully env m -> (forall a, emits no_upload (k a)) ->
  uploads_carefully env (bind m k).
Proof.
  intros Hm Hk w. unfold bind. destruct (Hm w) as (a1 & E1 & S1).
  destruct (m w) as [[r|a] w1]; simpl in *.
  - by exists a1.
  - destruct (Hk a w1) as (a2 & E2 & F2). exists (a1 ++ a2)%list.
    split; [by rewrite E2, E1, app_assoc|].
    destruct S1 as [F1|(pre & p & b & n & post & -> & Fpre & Fpost & Habs)].
    + left. by apply Forall_app.
    + right. exists pre, p, b, n, (post ++ a2)%list.
      split; [by rewrite <- app_assoc|]. split; [done|]. split; [by apply Forall_app|]. done.
Qed.

Lemma careful_func {R} (b : Code R R) : uploads_carefully env b -> uploads_carefully env (func b).
Proof.
  intros Hb w. unfold func. destruct (Hb w) as (a1 & E1 & F1).
  destruct (b w) as [[r|r] w1]; by exists a1.
Qed.

Lemma find_free_probes (P : Call -> Prop) remaining :
  (forall p, P (HEAD p)) -> forall i p f, emits P (find_free env remaining i p f).
Proof.
  intros HP. induction remaining as [|k IH]; intros i p f; cbn [find_free]; [apply emits_ret|].
  destruct (addCounterSuffix p i) as [cp cn].
  apply emits_bind; [apply emits_lift, Stat_emits, HP|].
  intros [[ex sz] [e|]]; [apply emits_Return|].
  destruct (negb ex); [apply emits_ret|apply IH].
Qed.

(** The candidate the loop settles on was reported absent by the last
    request; when the loop runs out it gives back the path it was given. *)
Lemma find_free_last remaining : forall i p f w r w',
  find_free env remaining i p f w = (inr r, w') ->
  r = (p, f)
  \/ exists pre, trace w' = (trace w ++ pre ++ [HEAD (fst r)])%list
                 /\ Forall no_upload pre
                 /\ is_absent (env (trace w ++ pre)%list (HEAD (fst r))) = true.
Proof.
  induction remaining as [|k IH]; intros i p f w r w' H.
  - cbn in H. injection H as <- <-. by left.
  - rewrite find_free_step in H. cbv zeta in H.
    destruct (is_present _) eqn:Hp.
    + destruct (IH _ _ _ _ _ _ H) as [->|(pre & E & F & A)]; [by left|].
      right. exists (HEAD (candidate p i) :: pre). cbn [trace after] in *.
      rewrite <- !app_assoc in *. cbn [app] in *. split; [done|]. split; [|done].
      by constructor.
    + destruct (is_absent _) eqn:Ha; [|done]. injection H as <- <-.
      right. exists []. cbn [fst trace after app]. rewrite !app_nil_r. by split.
Qed.

Lemma place_last p f n w fp fn w' :
  place env p f n w = (inr (fp, fn, true), w') ->
  exists pre, trace w' = (trace w ++ pre ++ [HEAD fp])%list
              /\ Forall no_upload pre
              /\ is_absent (env (trace w ++ pre)%list (HEAD fp)) = true.
Proof.
  rewrite place_run. cbv zeta. destruct (is_present _) eqn:Hp.
  - destruct (_ && _); [done|].
    destruct (find_free env 1000 1 p f _) as [[e|[fp' fn']] w1] eqn:Hf; [done|].
    destruct (String.eqb_spec fp' p) as [|Hne]; [done|]. intros [= -> -> ->].
    destruct (find_free_last _ _ _ _ _ _ _ Hf) as [[= -> ->]|(pre & E & F & A)]; [done|].
    cbn [fst trace after] in *. exists (HEAD p :: pre).
    rewrite <- !app_assoc in *. cbn [app] in *. split; [done|]. split; [|done].
    by constructor.
  - destruct (is_absent _) eqn:Ha; [|done]. intros [= -> -> <-].
    exists []. cbn [trace after app]. rewrite !app_nil_r. by split.
Qed.

Lemma place_probes (P : Call -> Prop) p f n :
  (forall p, P (HEAD p)) -> emits P (place env p f n).
Proof.
  intros HP. unfold place. apply emits_bind; [apply emits_lift, Stat_emits, HP|].
  intros [[ex sz] [e|]]; [apply emits_Return|].
  destruct ex; [|apply emits_ret].
  destruct (_ && _); [apply emits_ret|].
  apply emits_bind; [by apply find_free_probes|]. intros [fp fn].
  repeat emits_step.
Qed.

Lemma careful_place_and_upload p f data :
  uploads_carefully env (place_and_upload env p f data).
Proof.
  intros w. rewrite place_and_upload_run. cbv zeta.
  destruct (place_probes no_upload p f (Z.of_nat (String.length data)) ltac:(done) w)
    as (added & E & F).
  destruct (place env p f _ w) as [[e|[[fp fn] [|]]] w1] eqn:Hplace; cbn [snd] in E.
  - exists added. split; [done|by left].
  - destruct (place_last _ _ _ _ _ _ _ Hplace) as (pre & E' & Fpre & Habs).
    exists (pre ++ [HEAD fp; PUT fp data (Z.of_nat (String.length data))])%list.
    split.
    + destruct (upload_outcome _); cbn [snd trace after]; rewrite E', <- !app_assoc; done.
    + right. exists pre, fp, data, (Z.of_nat (String.length data)), [].
      split; [done|]. split; [done|]. split; [done|]. done.
  - exists added. split; [done|by left].
Qed.

Lemma EnsureDirectories_asks (P : Call -> Prop) p :
  (forall d, P (MKCOL d)) -> emits P (EnsureDirectories env p).
Proof.
  intros HP. unfold EnsureDirectories. apply emits_func.
  apply emits_bind; [|intros; apply emits_Return].
  generalize (Split (GoPath.Dir (TrimLeft p "/")) "/"). intros dirs. generalize "".
  induction dirs as [|d rest IH]; intros current; cbn [ensure_dirs]; [apply emits_ret|].
  destruct (_ || _); [apply IH|].
  apply emits_bind; [by apply emits_lift, CreateDirectory_emits|].
  intros [e|]; [apply emits_Return|apply IH].
Qed.


Lemma early_quiet {A} (m : Code (option goerror) A) :
  emits (fun c => before_edit c = true) m -> fails_early m.
Proof. intros Hm w. destruct (Hm w) as (added & E & F). exists added. split; [done|by right]. Qed.

Lemma early_bind {A B} (m : Code (option goerror) A) (k : A -> Code (option goerror) B) :
  emits (fun c => before_edit c = true) m -> (forall a, fails_early (k a)) ->
  fails_early (bind m k).
Proof.
  intros Hm Hk w. unfold bind. destruct (Hm w) as (a1 & E1 & F1).
  destruct (m w) as [[r|a] w1]; simpl in *.
  - exists a1. split; [done|by right].
  - destruct (Hk a w1) as (a2 & E2 & [S2|F2]); exists (a1 ++ a2)%list;
      (split; [by rewrite E2, E1, app_assoc|]); [by left|right; by apply Forall_app].
Qed.

Lemma rewrite_returns_no_error h evt msg filename finalPath finalFilename mimeType n uri w :
  fst (bind (rewrite env h evt msg filename finalPath finalFilename mimeType n uri)
         (fun _ => @Return (option goerror) (option goerror) None) w) = inl None.
Proof.
  unfold rewrite, bind, lift, when, Return, ret. cbv zeta. rewrite request_run.
  cbn beta iota. destruct (failed _); [done|].
  destruct (storeMediaState _ _ _ _ _ _ _ _) as [[] w1].
  destruct (MatrixAdminEnabled _); [|done].
  by destruct (deleteLocalMedia _ _ _ _ _).
Qed.


End Requests.

End RequestFacts.

(** * The directories the storage client asks for *)

Module StorageFacts.
Import GoStrings GoTime Utils Handlers Props StorageProps.
Import NumberFacts StringFacts PathFacts CodecFacts HandlerFacts TraceFacts.
Local Open Scope Z_scope.

Section Directories.
Variable env : Env.

Lemma CreateDirectory_run p w :
  CreateDirectory env p w
  = if bool_decide (p ∈ dirCache w) then (None, w)
    else
      let r := env (trace w) (MKCOL p) in
      if failed r
      then (Some (Wrapped "failed to create directory" RequestFailed), after w [MKCOL p])
      else if mkcol_ok r
           then (None, mkWorld (trace w ++ [MKCOL p]) ({[p]} ∪ dirCache w))
           else (Some (UnexpectedStatus (status r)), after w [MKCOL p]).
Proof.
  unfold CreateDirectory, func, bind, lift, when, Return, ret, mkcol_ok.
  destruct (bool_decide (p ∈ dirCache w)); [by destruct w|].
  rewrite request_run. cbv zeta. cbn beta iota.
  destruct (failed (env (trace w) (MKCOL p))); [done|]. cbn [negb andb].
  unfold StatusCreated, StatusConflict, StatusMethodNotAllowed.
  destruct (status _ =? 201); [done|]. destruct (status _ =? 409); [done|].
  by destruct (status _ =? 405).
Qed.

Lemma ensure_dirs_run dirs : forall current w,
  ensure_dirs env dirs current w
  = match create_all env (prefixes dirs current) w with
    | (Some e, w') => (inl (Some e), w')
    | (None, w') => (inr tt, w')
    end.
Proof.
  induction dirs as [|dir rest IH]; intros current w; cbn [ensure_dirs prefixes create_all];
    [done|].
  destruct (_ || _); [apply IH|]. cbv zeta. cbn [create_all].
  unfold bind, lift. rewrite CreateDirectory_run.
  destruct (bool_decide _); [apply IH|]. cbv zeta.
  destruct (failed _); [done|]. destruct (mkcol_ok _); [apply IH|done].
Qed.

(** [EnsureDirectories] goes through the directories above the file,
    the topmost first: it skips those in the cache, asks for the others,
    stops at the first request that fails, and puts each directory that
    was created or was there into the cache. *)
Lemma EnsureDirectories_run p w :
  EnsureDirectories env p w = create_all env (ancestors p) w.
Proof.
  unfold EnsureDirectories, func, bind, Return. cbv zeta. rewrite ensure_dirs_run.
  fold (ancestors p). by destruct (create_all env (ancestors p) w) as [[e|] w'].
Qed.

End Directories.

Section Directories2.
Variable env : Env.


Lemma create_all_cached todo w :
  (forall d, d ∈ todo -> d ∈ dirCache w) -> create_all env todo w = (None, w).
Proof.
  induction todo as [|p rest IH]; intros Hall; [done|]. cbn [create_all].
  rewrite bool_decide_eq_true_2 by (apply Hall; left).
  apply IH. intros d Hd. apply Hall. by right.
Qed.

Lemma create_all_success todo : forall w w',
  create_all env todo w = (None, w') ->
  dirCache w ⊆ dirCache w' /\ forall d, d ∈ todo -> d ∈ dirCache w'.
Proof.
  induction todo as [|p rest IH]; intros w w' H.
  - injection H as <-. split; [done|]. intros d Hd. by apply elem_of_nil in Hd.
  - cbn [create_all] in H. destruct (bool_decide (p ∈ dirCache w)) eqn:Hc.
    + apply bool_decide_eq_true in Hc. destruct (IH _ _ H) as [Hsub Hin].
      split; [done|]. intros d [->|Hd]%elem_of_cons; [by apply Hsub|by apply Hin].
    + cbv zeta in H. destruct (failed _); [done|]. destruct (mkcol_ok _); [|done].
      destruct (IH _ _ H) as [Hsub Hin]. cbn [dirCache] in Hsub.
      split; [set_solver|]. intros d [->|Hd]%elem_of_cons; [set_solver|by apply Hin].
Qed.


Lemma filter_fresh (p : string) (cache : gset string) (rest : list string) :
  p ∉ rest ->
  filter (fun d => d ∉ {[p]} ∪ cache) rest = filter (fun d => d ∉ cache) rest.
Proof.
  intros Hp. induction rest as [|x rest IH]; [done|].
  rewrite !filter_cons. rewrite IH by set_solver.
  destruct (decide (x ∉ {[p]} ∪ cache)), (decide (x ∉ cache)); try done; set_solver.
Qed.

(** The requests are an initial part of the directories that are not in
    the cache, in their order; all of them when no error is returned, and
    no error is returned when the server accepts every request. *)
Lemma create_all_requests todo : forall w,
  NoDup todo ->
  let fresh := filter (fun d => d ∉ dirCache w) todo in
  exists k,
    (k <= length fresh)%nat
    /\ trace (snd (create_all env todo w)) = (trace w ++ map MKCOL (take k fresh))%list
    /\ (fst (create_all env todo w) = None -> k = length fresh)
    /\ ((forall history d, mkcol_ok (env history (MKCOL d)) = true) ->
        fst (create_all env todo w) = None).
Proof.
  induction todo as [|p rest IH]; intros w Hnd fresh.
  - exists 0%nat. cbn. rewrite app_nil_r. done.
  - apply NoDup_cons in Hnd as [Hp Hnd]. unfold fresh. rewrite filter_cons.
    cbn [create_all]. destruct (decide (p ∈ dirCache w)) as [Hc|Hc].
    + rewrite bool_decide_eq_true_2 by done. rewrite decide_False by (by intros ?).
      apply IH. done.
    + rewrite bool_decide_eq_false_2 by done. rewrite decide_True by done. cbv zeta.
      destruct (failed (env (trace w) (MKCOL p))) eqn:Hf.
      { exists 1%nat. cbn [length take map fst snd trace]. split; [lia|]. split; [done|].
        split; [done|]. intros Hacc. specialize (Hacc (trace w) p).
        unfold mkcol_ok in Hacc. by rewrite Hf in Hacc. }
      destruct (mkcol_ok (env (trace w) (MKCOL p))) eqn:Hok.
      * destruct (IH (mkWorld (trace w ++ [MKCOL p]) ({[p]} ∪ dirCache w)) Hnd)
          as (k & Hk & Htr & Hall & Hacc).
        cbn [dirCache trace] in *. rewrite filter_fresh in * by done.
        exists (S k). cbn [length take map]. split; [lia|]. split.
        { rewrite Htr, <- app_assoc. done. }
        split; [intros H; by rewrite Hall|done].
      * exists 1%nat. cbn [length take map fst snd trace]. split; [lia|]. split; [done|].
        split; [done|]. intros Hacc. by rewrite Hacc in Hok.
Qed.

End Directories2.

Section Paths.

Lemma is_name_spec d :
  is_name d = true <-> d <> "" /\ d <> "." /\ d <> ".." /\ no_slash d = true.
Proof.
  unfold is_name. rewrite !andb_true_iff, !negb_true_iff.
  destruct (String.eqb_spec d ""), (String.eqb_spec d "."), (String.eqb_spec d ".."); naive_solver.
Qed.

Lemma Join_cons2 a b l sep :
  GoStrings.Join (a :: b :: l) sep = a +:+ sep +:+ GoStrings.Join (b :: l) sep.
Proof. done. Qed.

Lemma split_on_Join ds :
  ds <> [] -> Forall (fun d => no_slash d = true) ds ->
  split_on "/" (GoStrings.Join ds "/") = ds.
Proof.
  induction ds as [|d [|d2 rest] IH]; intros Hne Hall; [done| |].
  - apply Forall_cons in Hall as [Hd _]. by apply split_on_no_slash.
  - apply Forall_cons in Hall as [Hd Hall]. rewrite Join_cons2.
    change ("/" +:+ ?s) with (String "/" s). rewrite split_on_cut by done.
    by rewrite IH.
Qed.

Lemma fold_clean_names root ds : forall out,
  Forall (fun d => is_name d = true) ds ->
  fold_left (GoPath.clean_step root) ds out = (rev ds ++ out)%list.
Proof.
  induction ds as [|d ds IH]; intros out Hall; [done|].
  apply Forall_cons in Hall as [Hd Hall]. apply is_name_spec in Hd as (H1 & H2 & H3 & _).
  cbn [fold_left rev]. rewrite clean_step_element by done. rewrite IH by done.
  by rewrite <- app_assoc.
Qed.

Lemma names_no_slash ds :
  Forall (fun d => is_name d = true) ds -> Forall (fun d => no_slash d = true) ds.
Proof.
  intros H. eapply Forall_impl; [exact H|]. intros d Hd.
  by apply is_name_spec in Hd as (_ & _ & _ & ?).
Qed.

Lemma Join_names_head d ds :
  is_name d = true ->
  exists c r, GoStrings.Join (d :: ds) "/" = String c r /\ c <> "/"%char.
Proof.
  intros (Hne & _ & _ & Hns)%is_name_spec. destruct d as [|c d]; [done|].
  exists c. unfold no_slash in Hns. cbn [all_bytes] in Hns.
  apply andb_true_iff in Hns as [Hc _]. apply negb_true_iff in Hc.
  assert (c <> "/"%char).
  { intros ->. unfold ascii_eqb, GoPath.slash in Hc. by rewrite Ascii.eqb_refl in Hc. }
  destruct ds as [|d2 ds]; [by exists d|].
  rewrite Join_cons2, append_cons. by eexists.
Qed.

(** The directory of a path of names. *)
Lemma Dir_names ds f :
  ds <> [] -> Forall (fun d => is_name d = true) ds -> no_slash f = true ->
  GoPath.Dir (GoStrings.Join ds "/" +:+ "/" +:+ f) = GoStrings.Join ds "/".
Proof.
  intros Hne Hall Hf. unfold GoPath.Dir.
  rewrite <- append_assoc, SplitPath_dir by done. cbn [fst].
  destruct ds as [|d ds]; [done|].
  pose proof Hall as [Hd _]%Forall_cons.
  destruct (Join_names_head d ds Hd) as (c & r & Hj & Hc).
  assert (Hroot : GoPath.rooted (GoStrings.Join (d :: ds) "/" +:+ "/") = false).
  { rewrite Hj, append_cons. cbn [GoPath.rooted]. unfold GoPath.slash.
    apply ascii_eqb_false. congruence. }
  assert (Hemp : GoPath.is_empty (GoStrings.Join (d :: ds) "/" +:+ "/") = false).
  { by rewrite Hj, append_cons. }
  unfold GoPath.Clean. rewrite Hemp, Hroot. cbv zeta.
  rewrite Split_slash. change (?a +:+ "/") with (a +:+ String "/" "").
  rewrite split_on_snoc by done. rewrite split_on_Join by (done || by apply names_no_slash).
  rewrite fold_left_app, (fold_clean_names false (d :: ds)) by done.
  cbn [fold_left]. change (GoPath.clean_step false ?o "") with o.
  rewrite app_nil_r, rev_involutive.
  rewrite Hj. cbn [GoPath.is_empty]. done.
Qed.

Lemma TrimLeft_keeps c r : c <> "/"%char -> TrimLeft (String c r) "/" = String c r.
Proof.
  intros Hc. cbn [TrimLeft mem_byte]. rewrite (ascii_eqb_false c "/") by congruence. done.
Qed.

Lemma prefixes_names ds : forall current,
  Forall (fun d => is_name d = true) ds ->
  prefixes ds current
  = map (fun k =>
           if String.eqb current "" then GoStrings.Join (take (S k) ds) "/"
           else current +:+ "/" +:+ GoStrings.Join (take (S k) ds) "/")
      (seq 0 (length ds)).
Proof.
  induction ds as [|d ds IH]; intros current Hall; [done|].
  apply Forall_cons in Hall as [Hd Hall]. pose proof Hd as (Hne & Hdot & _)%is_name_spec.
  cbn [prefixes length seq map].
  destruct (String.eqb_spec d "."); [done|]. destruct (String.eqb_spec d ""); [done|].
  cbn [orb]. cbv zeta. rewrite IH by done. rewrite <- seq_shift, map_map.
  f_equal; [cbn [take]; by destruct (String.eqb current "")..|].
  { apply map_ext_in. intros k Hk%in_seq. cbn [take].
    assert (Hcur : (if String.eqb current "" then d else current +:+ "/" +:+ d) <> "").
    { destruct (String.eqb current ""); [done|]. rewrite <- append_assoc.
      by apply append_not_empty. }
    destruct (String.eqb_spec (if String.eqb current "" then d else current +:+ "/" +:+ d) "")
      as [|_]; [done|].
    destruct ds as [|d2 ds]; [cbn in Hk; lia|]. cbn [take]. rewrite Join_cons2.
    destruct (String.eqb current ""); [done|]. by rewrite !append_assoc. }
Qed.

(** The directories above a file whose path is made of names. *)
Lemma ancestors_names ds f :
  Forall (fun d => is_name d = true) ds -> is_name f = true ->
  ancestors ("/" +:+ GoStrings.Join (ds ++ [f]) "/") = nested ds.
Proof.
  intros Hall Hf. unfold ancestors, nested.
  pose proof Hf as (_ & _ & _ & Hns)%is_name_spec.
  change ("/" +:+ ?s) with (String "/" s). cbn [TrimLeft mem_byte].
  change (ascii_eqb "/" "/") with true. cbn [orb].
  destruct ds as [|d ds].
  - cbn [app GoStrings.Join length seq map].
    destruct (Join_names_head f [] Hf) as (c & r & Hj & Hc). cbn [GoStrings.Join] in Hj.
    rewrite Hj, TrimLeft_keeps by done. rewrite <- Hj.
    unfold GoPath.Dir. rewrite SplitPath_no_slash by done. done.
  - pose proof Hall as [Hd _]%Forall_cons.
    rewrite Join_snoc by done.
    destruct (Join_names_head d ds Hd) as (c & r & Hj & Hc).
    rewrite Hj, append_cons, TrimLeft_keeps by done. rewrite <- append_cons, <- Hj.
    rewrite Dir_names by done. rewrite Split_slash, split_on_Join by (done || by apply names_no_slash).
    by rewrite prefixes_names.
Qed.

Lemma prefixes_longer dirs : forall current x,
  x ∈ prefixes dirs current -> (String.length current < String.length x)%nat.
Proof.
  induction dirs as [|d dirs IH]; intros current x; cbn [prefixes]; [by intros ?%elem_of_nil|].
  destruct (String.eqb_spec d "."); [apply IH|]. destruct (String.eqb_spec d ""); [apply IH|].
  cbn [orb]. cbv zeta.
  assert (Hlen : (String.length current
                  < String.length (if String.eqb current "" then d
                                   else current +:+ "/" +:+ d))%nat).
  { destruct (String.eqb_spec current "") as [->|_].
    - destruct d; [done|cbn; lia].
    - rewrite !length_append. cbn. lia. }
  intros [->|Hx]%elem_of_cons; [done|]. apply IH in Hx. lia.
Qed.

Lemma prefixes_NoDup dirs : forall current, NoDup (prefixes dirs current).
Proof.
  induction dirs as [|d dirs IH]; intros current; cbn [prefixes]; [constructor|].
  destruct (_ || _); [apply IH|]. cbv zeta. constructor; [|apply IH].
  intros Hx%prefixes_longer. lia.
Qed.

End Paths.


End StorageFacts.

(** * The candidates of the placement step *)

Module CandidateFacts.
Import GoStrings Utils Handlers Props NumberFacts StringFacts PathFacts.
Local Open Scope Z_scope.

Lemma append_inv_l a : forall x y, a +:+ x = a +:+ y -> x = y.
Proof.
  induction a as [|c a IH]; intros x y; [done|]. rewrite !append_cons. intros [=]. by apply IH.
Qed.

Lemma append_inv_r e x y : x +:+ e = y +:+ e -> x = y.
Proof.
  intros H. apply (f_equal rev_str) in H. rewrite !rev_str_append in H.
  apply append_inv_l in H. by rewrite <- (rev_str_involutive x), H, rev_str_involutive.
Qed.

Lemma itoa_inj i j : 0 <= i < 2 ^ 63 -> 0 <= j < 2 ^ 63 -> Fmt.itoa i = Fmt.itoa j -> i = j.
Proof.
  intros Hi Hj H. apply ParseInt64_itoa in Hi, Hj. rewrite H in Hi. congruence.
Qed.

(** The candidates of a path differ in the counter only: each is a
    directory prefix followed by the same name, '_', the counter and the
    same extension. *)
Lemma candidate_form p :
  exists s e, forall i,
    exists X, dir_prefix X
              /\ s +:+ "_" +:+ Fmt.itoa i +:+ e <> ""
              /\ no_slash (s +:+ "_" +:+ Fmt.itoa i +:+ e) = true
              /\ candidate p i = X +:+ s +:+ "_" +:+ Fmt.itoa i +:+ e.
Proof.
  unfold candidate, addCounterSuffix.
  destruct (Ext_suffix (GoPath.Base p)) as [pre Hpre].
  set (base := GoPath.Base p) in *. set (e := GoPath.Ext base) in *.
  assert (Hname : TrimSuffix base e = pre) by (rewrite Hpre at 1; apply TrimSuffix_append).
  rewrite Hname.
  assert (Hshape : exists pf s, dir_prefix pf
            /\ forall i, let nb := s +:+ "_" +:+ Fmt.itoa i +:+ e in
                 nb <> "" /\ nb <> "." /\ nb <> ".." /\ no_slash nb = true
                 /\ pre +:+ "_" +:+ Fmt.itoa i +:+ e = pf +:+ nb).
  { destruct (Base_cases p) as [Hb|[Hb Hne]]; fold base in Hb.
    - assert (e = "") as He by (unfold e; by rewrite Hb).
      assert (pre = "/") as -> by (rewrite He, append_nil_r in Hpre; congruence).
      exists "/", "". split; [right; by exists ""|]. intros i nb. unfold nb.
      rewrite append_nil_l. repeat split; try done.
      change ("_" +:+ Fmt.itoa i +:+ e) with (String "_" (Fmt.itoa i +:+ e)).
      rewrite no_slash_cons, no_slash_append, itoa_no_slash. by rewrite He.
    - exists "", pre. split; [by left|]. intros i nb. unfold nb.
      pose proof (underscore_element pre (Fmt.itoa i +:+ e)) as (U1 & U2 & U3).
      repeat split; try done.
      rewrite Hpre, no_slash_append in Hb. apply andb_true_iff in Hb as [Hb1 Hb2].
      change ("_" +:+ Fmt.itoa i +:+ e) with (String "_" (Fmt.itoa i +:+ e)).
      by rewrite no_slash_append, no_slash_cons, no_slash_append, Hb1, Hb2, itoa_no_slash. }
  destruct Hshape as (pf & s & Hpf & Hall). exists s, e. intros i.
  destruct (Hall i) as (N1 & N2 & N3 & N4 & ->).
  set (nb := s +:+ "_" +:+ Fmt.itoa i +:+ e) in *.
  destruct (String.eqb (GoPath.Dir p) ".").
  - simpl. by exists pf.
  - cbn [fst].
    assert (HJ : exists X, dir_prefix X /\ GoPath.Join [GoPath.Dir p; pf +:+ nb] = X +:+ nb).
    { unfold GoPath.Join. rewrite !filter_cons, filter_nil.
      rewrite !decide_True by (first [unfold GoPath.Dir; apply Clean_not_empty | by apply append_not_empty]).
      change (GoStrings.Join [GoPath.Dir p; pf +:+ nb] "/")
        with (GoPath.Dir p +:+ String "/" (pf +:+ nb)).
      destruct Hpf as [->|[Y ->]].
      - rewrite append_nil_l. by apply Clean_last.
      - replace (GoPath.Dir p +:+ String "/" ((Y +:+ "/") +:+ nb))
          with ((GoPath.Dir p +:+ String "/" Y) +:+ String "/" nb).
        + by apply Clean_last.
        + rewrite (append_assoc (GoPath.Dir p)), append_cons, (append_assoc Y).
          reflexivity. }
    destruct HJ as (X & HX & ->).
    destruct (_ && _).
    + exists ("/" +:+ X).
      split; [|repeat split; try done; by rewrite append_assoc].
      destruct HX as [->|[Y ->]]; right; [by exists ""|by exists ("/" +:+ Y)].
    + by exists X.
Qed.

Lemma candidates_spec p n : forall i x,
  x ∈ candidates p i n <-> exists k, (k < n)%nat /\ x = candidate p (i + Z.of_nat k).
Proof.
  induction n as [|n IH]; intros i x; cbn [candidates].
  - split; [by intros ?%elem_of_nil|]. intros (k & Hk & _). lia.
  - rewrite elem_of_cons, IH. split.
    + intros [->|(k & Hk & ->)].
      * exists 0%nat. split; [lia|]. f_equal. lia.
      * exists (S k). split; [lia|]. f_equal. lia.
    + intros (k & Hk & ->). destruct k as [|k].
      * left. f_equal. lia.
      * right. exists k. split; [lia|]. f_equal. lia.
Qed.

End CandidateFacts.

(** * The URLs of the storage client and the media proxy *)

Module UrlFacts.
Import GoStrings Props StorageProps NumberFacts StringFacts PathFacts CodecFacts StorageFacts.
Import CandidateFacts Url NextcloudClient UrlProps.
Local Open Scope Z_scope.

Lemma escaped_well_all c : escaped_well c = true.
Proof. by destruct c as [[|] [|] [|] [|] [|] [|] [|] [|]]. Qed.

Lemma ascii_eqb_eq a b : ascii_eqb a b = true -> a = b.
Proof. unfold ascii_eqb. by intros ?%Ascii.eqb_eq. Qed.

(** The escape of a byte is the byte itself, which is neither '%' nor
    '/', or '%' and two digits that give the byte back. *)
Lemma escape_byte_cases c :
  (escape_byte c = String c "" /\ c <> "%"%char /\ c <> "/"%char /\ url_byte c = true)
  \/ exists x y,
       escape_byte c = String "%" (String x (String y ""))
       /\ url_byte x = true /\ url_byte y = true /\ x <> "/"%char /\ y <> "/"%char
       /\ 16 * unhex x + unhex y = byteZ c.
Proof.
  pose proof (escaped_well_all c) as H. unfold escaped_well in H.
  destruct (escape_byte c) as [|p [|x [|y [|? ?]]]]; try done.
  - left. repeat (apply andb_true_iff in H as [H ?]). apply ascii_eqb_eq in H as ->.
    repeat split; [| |done].
    + intros ->. done.
    + intros ->. done.
  - right. exists x, y. repeat (apply andb_true_iff in H as [H ?]).
    apply ascii_eqb_eq in H as ->. repeat split; try done.
    + intros ->. done.
    + intros ->. done.
    + lia.
Qed.

Lemma byteZ_inj a b : byteZ a = byteZ b -> a = b.
Proof. intros H. by rewrite <- (ascii_of_Z_byteZ a), <- (ascii_of_Z_byteZ b), H. Qed.

(** [PathEscape] loses nothing: two strings with the same escape are the
    same. *)
Lemma PathEscape_inj s : forall t, PathEscape s = PathEscape t -> s = t.
Proof.
  induction s as [|c s IH]; intros [|d t]; cbn [PathEscape].
  - done.
  - destruct (escape_byte_cases d) as [(-> & _)|(x & y & -> & _)]; done.
  - destruct (escape_byte_cases c) as [(-> & _)|(x & y & -> & _)]; done.
  - destruct (escape_byte_cases c) as [(-> & Hc & _)|(x & y & -> & _ & _ & _ & _ & Hxy)],
             (escape_byte_cases d) as [(-> & Hd & _)|(x' & y' & -> & _ & _ & _ & _ & Hxy')];
      rewrite ?append_cons, ?append_nil_l; intros [=]; subst.
    + f_equal. by apply IH.
    + done.
    + done.
    + f_equal; [apply byteZ_inj; congruence|by apply IH].
Qed.

Lemma PathEscape_bytes (P : ascii -> bool) s :
  (forall c, all_bytes P (escape_byte c) = true) -> all_bytes P (PathEscape s) = true.
Proof.
  intros HP. induction s as [|c s IH]; [done|]. cbn [PathEscape].
  by rewrite all_bytes_append, HP, IH.
Qed.

Lemma escape_byte_no_slash c : no_slash (escape_byte c) = true.
Proof.
  unfold no_slash, GoPath.slash.
  destruct (escape_byte_cases c) as [(-> & _ & Hc & _)|(x & y & -> & _ & _ & Hx & Hy & _)];
    cbn [all_bytes]; rewrite ?ascii_eqb_false by done; done.
Qed.

Lemma PathEscape_no_slash s : no_slash (PathEscape s) = true.
Proof. apply PathEscape_bytes, escape_byte_no_slash. Qed.

Lemma escape_byte_url c : all_bytes url_byte (escape_byte c) = true.
Proof.
  destruct (escape_byte_cases c) as [(-> & _ & _ & Hc)|(x & y & -> & Hx & Hy & _)];
    cbn [all_bytes]; rewrite ?Hc, ?Hx, ?Hy; done.
Qed.

Lemma Join_split_on s : GoStrings.Join (split_on "/" s) "/" = s.
Proof.
  induction s as [|c s IH]; [done|]. cbn [split_on].
  pose proof (split_on_not_nil "/" s) as Hne.
  destruct (ascii_eqb c "/") eqn:Hc.
  - apply ascii_eqb_eq in Hc as ->. destruct (split_on "/" s) as [|h t]; [done|].
    rewrite Join_cons2, IH. done.
  - destruct (split_on "/" s) as [|h [|h2 t]]; [done| |].
    + cbn [GoStrings.Join] in *. by rewrite IH.
    + rewrite Join_cons2 in *. rewrite append_cons. by rewrite IH.
Qed.

Lemma Join_bytes (P : ascii -> bool) l :
  P "/"%char = true -> Forall (fun e => all_bytes P e = true) l ->
  all_bytes P (GoStrings.Join l "/") = true.
Proof.
  intros Hs. induction l as [|e [|e2 l] IH]; intros Hall; [done| |].
  - by apply Forall_cons in Hall as [He _].
  - apply Forall_cons in Hall as [He Hall]. rewrite Join_cons2, !all_bytes_append, He, IH by done.
    cbn [all_bytes]. by rewrite Hs.
Qed.

Lemma map_PathEscape_inj l : forall l', map PathEscape l = map PathEscape l' -> l = l'.
Proof.
  induction l as [|e l IH]; intros [|e' l']; try done. cbn [map]. intros [= He Hl].
  f_equal; [by apply PathEscape_inj|by apply IH].
Qed.

End UrlFacts.

Module ProxyFacts.
Import GoStrings Utils Handlers Props NumberFacts StringFacts PathFacts CodecFacts.
Import NextcloudClient MediaProxy ProxyProps.
Local Open Scope Z_scope.

Lemma getMedia_decoded secretKey BaseURL GET mediaID ref :
  DecodeMediaID secretKey mediaID = inr ref ->
  getMedia secretKey BaseURL GET mediaID
  = ([buildURL BaseURL (Path ref)], served ref (GET (buildURL BaseURL (Path ref)))).
Proof.
  intros H. unfold getMedia, DownloadFile, served. rewrite H. cbv zeta.
  destruct (transportFailed _); [done|]. by destruct (StatusCode _ =? 200).
Qed.

Lemma TrimLeft_idem s : TrimLeft (TrimLeft s "/") "/" = TrimLeft s "/".
Proof.
  induction s as [|c s IH]; [done|]. cbn [TrimLeft].
  destruct (mem_byte c "/") eqn:Hc; [done|]. cbn [TrimLeft]. by rewrite Hc.
Qed.

Lemma TrimSpace_fixed s :
  leads_space s = false -> trails_space s = false -> TrimSpace s = s.
Proof.
  intros Hl Hr. unfold TrimSpace. cbv zeta.
  assert (El : trim_left_space (String.length s) s = s).
  { destruct (String.length s); [done|]. cbn [trim_left_space].
    unfold leads_space in Hl. destruct (Utf8.DecodeRuneInString s). by rewrite Hl. }
  rewrite El. destruct (String.length s); [done|]. cbn [trim_right_space].
  unfold trails_space in Hr. destruct (Utf8.DecodeLastRuneInString s). by rewrite Hr.
Qed.

End ProxyFacts.

(** * The cache of directories *)

Module CacheFacts.
Import GoStrings Utils Handlers Props StorageProps CacheProps.
Import HandlerFacts TraceFacts StorageFacts.
Local Open Scope Z_scope.

Section Keeps.
Variable env : Env.

Lemma accepted_later history more d :
  accepted env history d -> accepted env (history ++ more) d.
Proof.
  intros (pre & post & -> & Hok). exists pre, (post ++ more)%list.
  by rewrite <- app_assoc.
Qed.

Lemma create_all_sound todo : forall w,
  cache_sound env w -> cache_sound env (snd (create_all env todo w)).
Proof.
  induction todo as [|p rest IH]; intros w Hw; [done|]. cbn [create_all].
  destruct (bool_decide (p ∈ dirCache w)); [by apply IH|]. cbv zeta.
  destruct (failed _) eqn:Hf.
  { intros d Hd. cbn [snd trace dirCache] in *. by apply accepted_later, Hw. }
  destruct (mkcol_ok _) eqn:Hok.
  - apply IH. intros d Hd. cbn [trace dirCache] in *.
    apply elem_of_union in Hd as [->%elem_of_singleton|Hd].
    + by exists (trace w), [].
    + by apply accepted_later, Hw.
  - intros d Hd. cbn [snd trace dirCache] in *. by apply accepted_later, Hw.
Qed.

Lemma keeps_ret {R A} (a : A) : keeps_cache env (@ret R A a).
Proof. by intros w. Qed.

Lemma keeps_Return {R A} (r : R) : keeps_cache env (@Return R A r).
Proof. by intros w. Qed.

Lemma keeps_bind {R A B} (m : Code R A) (k : A -> Code R B) :
  keeps_cache env m -> (forall a, keeps_cache env (k a)) -> keeps_cache env (bind m k).
Proof.
  intros Hm Hk w Hw. unfold bind. specialize (Hm w Hw).
  destruct (m w) as [[r|a] w1]; [done|]. by apply Hk.
Qed.

Lemma keeps_exit {R A B} (m : Code R A) (k : A -> Code R B) :
  keeps_cache env m -> (forall w, exists r, fst (m w) = inl r) -> keeps_cache env (bind m k).
Proof.
  intros Hm Hexit w Hw. unfold bind. specialize (Hm w Hw). destruct (Hexit w) as [r Hr].
  by destruct (m w) as [[e|a] w1].
Qed.

Lemma keeps_lift {R A} (m : Run A) : keeps_cache env m -> keeps_cache env (@lift R A m).
Proof. intros Hm w Hw. unfold lift. specialize (Hm w Hw). by destruct (m w). Qed.

Lemma keeps_func {R} (b : Code R R) : keeps_cache env b -> keeps_cache env (func b).
Proof. intros Hb w Hw. unfold func. specialize (Hb w Hw). by destruct (b w) as [[r|r] w1]. Qed.

Lemma keeps_when {R} (c : bool) (m : Code R unit) :
  keeps_cache env m -> keeps_cache env (when c m).
Proof. intros Hm. destruct c; [done|apply keeps_ret]. Qed.

Lemma keeps_request c : keeps_cache env (request env c).
Proof. intros w Hw d Hd. cbn [request snd trace dirCache] in *. by apply accepted_later, Hw. Qed.

Lemma keeps_EnsureDirectories p : keeps_cache env (EnsureDirectories env p).
Proof. intros w. rewrite EnsureDirectories_run. apply create_all_sound. Qed.

End Keeps.

Ltac keeps_step :=
  first [ apply keeps_bind; [|intros ?]
        | apply keeps_func | apply keeps_lift | apply keeps_when
        | apply keeps_ret | apply keeps_Return
        | apply keeps_request
        | match goal with
          | |- keeps_cache _ (match ?x with _ => _ end) => destruct x
          | |- keeps_cache _ (let '(_, _) := ?x in _) => destruct x
          end ].

Section Placement.
Variable env : Env.

Lemma keeps_find_free remaining : forall i p f, keeps_cache env (find_free env remaining i p f).
Proof.
  induction remaining as [|k IH]; intros i p f; cbn [find_free]; [apply keeps_ret|].
  destruct (addCounterSuffix p i) as [cp cn].
  apply keeps_bind; [unfold Stat; repeat keeps_step|].
  intros [[ex sz] [e|]]; [apply keeps_Return|].
  destruct (negb ex); [apply keeps_ret|apply IH].
Qed.

Lemma keeps_place_and_upload p f data : keeps_cache env (place_and_upload env p f data).
Proof.
  unfold place_and_upload, place.
  apply keeps_bind.
  { apply keeps_bind; [unfold Stat; repeat keeps_step|].
    intros [[ex sz] [e|]]; [apply keeps_Return|].
    destruct ex; [|apply keeps_ret].
    destruct (_ && _); [apply keeps_ret|].
    apply keeps_bind; [apply keeps_find_free|]. intros [fp fn]. repeat keeps_step. }
  intros [[fp fn] up]. unfold UploadReader. repeat keeps_step.
Qed.

End Placement.

End CacheFacts.

(** * Reading the configuration *)

Module ConfigFacts.
Import GoStrings Props NumberFacts StringFacts PathFacts CodecFacts.
Import GoOs ConfigPkg ConfigProps.
Local Open Scope Z_scope.

Lemma expand_from_skip a b mapping :
  expand_from (String.length a) (a +:+ b) mapping = expand_from 0 b mapping.
Proof.
  induction a as [|c a IH]; [by destruct b|]. rewrite append_cons. cbn [String.length expand_from].
  done.
Qed.

Lemma expand_from_braced name post mapping :
  expand_from (S (S (String.length name))) (String "{" (name +:+ String "}" post)) mapping
  = expand_from 0 post mapping.
Proof.
  cbn [expand_from]. induction name as [|c name IH]; [by destruct post|].
  rewrite append_cons. cbn [String.length expand_from]. exact IH.
Qed.

Lemma expand_from_plain pre t mapping :
  without "$" pre = true ->
  expand_from 0 (pre +:+ t) mapping = pre +:+ expand_from 0 t mapping.
Proof.
  induction pre as [|c pre IH]; intros Hpre; [by rewrite !append_nil_l|].
  unfold without in Hpre. cbn [all_bytes] in Hpre. apply andb_true_iff in Hpre as [Hc Hpre].
  apply negb_true_iff in Hc. rewrite !append_cons. cbn [expand_from]. rewrite Hc. cbn [andb].
  by rewrite IH.
Qed.

Lemma scan_brace_name name post : forall i,
  without "}" name = true ->
  scan_brace (name +:+ String "}" post) i = Some (i + String.length name)%nat.
Proof.
  induction name as [|c name IH]; intros i Hn.
  - rewrite append_nil_l. cbn. f_equal. lia.
  - unfold without in Hn. cbn [all_bytes] in Hn. apply andb_true_iff in Hn as [Hc Hn].
    apply negb_true_iff in Hc. rewrite append_cons. cbn [scan_brace String.length].
    rewrite Hc, IH by done. f_equal. lia.
Qed.

Lemma getShellName_braced name post :
  name <> "" -> without "}" name = true ->
  getShellName (String "{" (name +:+ String "}" post)) = (name, S (S (String.length name))).
Proof.
  intros Hne Hn. cbn [getShellName]. change (ascii_eqb "{" "{") with true. cbv iota.
  destruct name as [|c1 name]; [done|].
  destruct (match String c1 name +:+ String "}" post with
            | String c1 (String c2 _) => isShellSpecialVar c1 && ascii_eqb c2 "}"
            | _ => false
            end) eqn:Hspecial.
  - rewrite append_cons in Hspecial. destruct name as [|c2 name].
    + by rewrite append_cons.
    + rewrite append_cons in Hspecial. apply andb_true_iff in Hspecial as [_ H2].
      unfold without in Hn. cbn [all_bytes] in Hn. rewrite H2 in Hn. cbn in Hn.
      by rewrite andb_false_r in Hn.
  - rewrite scan_brace_name by done. cbn [String.length].
    replace (1 + S (String.length name))%nat with (S (S (String.length name))) by lia.
    cbn [Nat.eqb]. replace (S (S (String.length name)) - 1)%nat
      with (String.length (String c1 name)) by (cbn; lia).
    by rewrite take_str_append.
Qed.

Lemma Index_none c s : without c s = true -> Index s (String c "") = None.
Proof.
  intros H. apply all_bytes_no_byte in H. unfold Contains in H.
  by destruct (Index s (String c "")).
Qed.

Lemma Join_cons_sep a b l sep :
  GoStrings.Join (a :: b :: l) sep = a +:+ sep +:+ GoStrings.Join (b :: l) sep.
Proof. done. Qed.

Lemma drop_sep a c s :
  drop_str (String.length a + 1) (a +:+ String c s) = s.
Proof. induction a as [|x a IH]; [done|]. rewrite append_cons. cbn. exact IH. Qed.

Lemma split_upto_Join c pieces : forall fuel,
  pieces <> [] -> Forall (fun p => without c p = true) pieces ->
  (length pieces <= S fuel)%nat ->
  split_upto fuel (GoStrings.Join pieces (String c "")) (String c "") = pieces.
Proof.
  induction pieces as [|a [|b rest] IH]; intros fuel Hne Hall Hlen; [done| |].
  - apply Forall_cons in Hall as [Ha _]. cbn [GoStrings.Join].
    destruct fuel; [done|]. cbn [split_upto]. by rewrite Index_none.
  - apply Forall_cons in Hall as [Ha Hall]. rewrite Join_cons_sep.
    destruct fuel as [|k]; [cbn in Hlen; lia|]. cbn [split_upto].
    change (String c "" +:+ ?s) with (String c s).
    rewrite Index_first by done. rewrite take_str_append.
    cbn [String.length]. rewrite drop_sep.
    f_equal. apply IH; [done|done|cbn in *; lia].
Qed.

Lemma Join_length pieces sep :
  (length pieces <= S (String.length (GoStrings.Join pieces (String sep ""))))%nat.
Proof.
  induction pieces as [|a [|b rest] IH]; [cbn; lia|cbn; lia|].
  rewrite Join_cons_sep, !length_append. cbn [String.length length] in *. lia.
Qed.

Lemma Split_Join c pieces :
  pieces <> [] -> Forall (fun p => without c p = true) pieces ->
  Split (GoStrings.Join pieces (String c "")) (String c "") = pieces.
Proof.
  intros Hne Hall. unfold Split, SplitN. change (-1 =? 0) with false.
  change (-1 <? 0) with true. cbv iota. cbv zeta. cbn [Nat.pred].
  apply split_upto_Join; [done|done|apply Join_length].
Qed.

Lemma without_append c s t : without c (s +:+ t) = without c s && without c t.
Proof. apply all_bytes_append. Qed.

End ConfigFacts.

(** * The edit and the stored file *)

Module EditFacts.
Import GoStrings GoTime Utils Handlers Props HandlerProps EditProps.
Import NumberFacts StringFacts PathFacts CodecFacts HandlerFacts TraceFacts RequestFacts.
Local Open Scope Z_scope.

Section Backed.
Variable env : Env.
Variable h : MediaHandler.

Lemma stored_at_later history a1 added fp data :
  stored_at env (history ++ a1) added fp data -> stored_at env history (a1 ++ added) fp data.
Proof.
  intros [(pre & -> & Hp & Hs & Hn)|(pre & -> & Ha & Hu)]; [left|right];
    exists (a1 ++ pre)%list; rewrite !app_assoc in *; done.
Qed.

Variable DecryptFile : EncryptedFileInfo -> string -> option string.

Lemma backs_quiet {X} (m : World -> X * World) :
  emits not_sending m -> backs_edits env DecryptFile h m.
Proof. intros Hm w. destruct (Hm w) as (added & E & F). exists added. split; [done|by left]. Qed.

Lemma backs_after_quiet {R A B} (m : Code R A) (k : A -> Code R B) :
  emits not_sending m -> (forall a, backs_edits env DecryptFile h (k a)) ->
  backs_edits env DecryptFile h (bind m k).
Proof.
  intros Hm Hk w. unfold bind. destruct (Hm w) as (a1 & E1 & F1).
  destruct (m w) as [[r|a] w1]; simpl in *.
  - exists a1. split; [done|by left].
  - destruct (Hk a w1) as (a2 & E2 & S2). exists (a1 ++ a2)%list.
    split; [by rewrite E2, E1, app_assoc|].
    destruct S2 as [F2|(pre & u & rest & data & -> & Fpre & Hfrom & Hplaced)].
    + left. by apply Forall_app.
    + right. exists (a1 ++ pre)%list, u, rest, data. rewrite !app_assoc in *.
      split; [done|]. split; [by apply Forall_app|]. by rewrite <- E1.
Qed.

Lemma backs_func {R} (b : Code R R) :
  backs_edits env DecryptFile h b -> backs_edits env DecryptFile h (func b).
Proof.
  intros Hb w. unfold func. destruct (Hb w) as (a1 & E1 & F1).
  destruct (b w) as [[r|r] w1]; by exists a1.
Qed.

Lemma places_quiet data {X} (m : World -> X * World) :
  emits not_sending m -> places_edit env h data m.
Proof. intros Hm w. destruct (Hm w) as (added & E & F). exists added. split; [done|by left]. Qed.

Lemma places_after_quiet data {R A B} (m : Code R A) (k : A -> Code R B) :
  emits not_sending m -> (forall a, places_edit env h data (k a)) ->
  places_edit env h data (bind m k).
Proof.
  intros Hm Hk w. unfold bind. destruct (Hm w) as (a1 & E1 & F1).
  destruct (m w) as [[r|a] w1]; simpl in *.
  - exists a1. split; [done|by left].
  - destruct (Hk a w1) as (a2 & E2 & S2). exists (a1 ++ a2)%list.
    split; [by rewrite E2, E1, app_assoc|].
    destruct S2 as [F2|(mid & sender & room & content & post & fp & fn & mime
                        & -> & Fm & Fp & Hst & Hurl)].
    + left. by apply Forall_app.
    + right. exists (a1 ++ mid)%list, sender, room, content, post, fp, fn, mime.
      rewrite app_assoc. split; [done|]. split; [by apply Forall_app|]. split; [done|].
      split; [|done]. apply stored_at_later. by rewrite <- E1.
Qed.

(** Where the placement step leaves the content. *)
Lemma place_and_upload_stored p f data w fp fn w' :
  place_and_upload env p f data w = (inr (fp, fn), w') ->
  exists added,
    trace w' = (trace w ++ added)%list
    /\ Forall not_sending added
    /\ stored_at env (trace w) added fp data.
Proof.
  intros Hrun.
  destruct (place_and_upload_emits env not_sending ltac:(by intros []) p f data w)
    as (added & E & F).
  rewrite Hrun in E. cbn [snd] in E. exists added. split; [done|]. split; [done|].
  rewrite place_and_upload_run in Hrun. cbv zeta in Hrun.
  destruct (place env p f _ w) as [[e|[[fp' fn'] [|]]] w1] eqn:Hplace; [done| |].
  - destruct (place_last _ _ _ _ _ _ _ _ Hplace) as (pre & E' & _ & Habs).
    destruct (upload_outcome _) eqn:Hup; [done|]. injection Hrun as -> -> <-.
    right. exists pre. cbn [trace after] in E. rewrite E', <- !app_assoc in E.
    apply app_inv_head in E. split; [done|]. split; [done|]. by rewrite <- E'.
  - injection Hrun as -> -> ->. rewrite place_run in Hplace. cbv zeta in Hplace.
    destruct (is_present _) eqn:Hp.
    + destruct (_ && _) eqn:Hsize.
      * injection Hplace as -> -> <-. cbn [trace after] in E. apply app_inv_head in E.
        left. exists []. rewrite app_nil_r. apply andb_true_iff in Hsize as [Hn Hs].
        split; [done|]. split; [done|]. split; [by apply Z.eqb_eq|by apply Z.ltb_lt].
      * destruct (find_free env 1000 1 p f _) as [[e|[a b]] w2]; [done|].
        by destruct (String.eqb a p).
    + by destruct (is_absent _).
Qed.

Lemma send_then {R A} (c : Call) (k : Response -> Code R A) w :
  (forall resp, emits not_sending (k resp)) ->
  exists post,
    trace (snd (bind (lift (request env c)) k w)) = (trace w ++ c :: post)%list
    /\ Forall not_sending post.
Proof.
  intros Hk. unfold bind, lift. rewrite request_run.
  destruct (Hk (env (trace w) c) (after w [c])) as (post & E & F).
  exists post. split; [|done]. rewrite E. cbn [trace after]. by rewrite <- app_assoc.
Qed.

Lemma snd_then_Return {R A B} (m : Code R A) (r : R) w :
  snd (bind m (fun _ => @Return R B r) w) = snd (m w).
Proof. unfold bind, Return. by destruct (m w) as [[e|a] w1]. Qed.

(** The edit: its URL holds the media id of the final path. *)
Lemma rewrite_sends evt msg filename fp fn mime n uri w :
  exists content post,
    trace (snd (rewrite env h evt msg filename fp fn mime n uri w))
    = (trace w ++ SendMessageEvent (evSender evt) (evRoomID evt) content :: post)%list
    /\ Forall not_sending post
    /\ URL content
       = "mxc://" +:+ MediaProxyServerName (config h) +:+ "/"
         +:+ EncodeMediaID (mediaIDSecret h) (mkMediaRef (TrimLeft fp "/") fn mime).
Proof.
  unfold rewrite. cbv zeta.
  match goal with
  | |- context [request env (SendMessageEvent _ _ ?c)] => exists c
  end.
  match goal with
  | |- context [bind (lift (request env ?c)) ?k w] =>
    destruct (send_then c k w) as (post & E & F)
  end.
  { intros resp. unfold storeMediaState, deleteLocalMedia. repeat emits_step. }
  exists post. split; [exact E|]. split; [done|]. reflexivity.
Qed.

Lemma places_place_and_rewrite evt msg filename p data mime uri :
  places_edit env h data
    (bind (place_and_upload env p filename data)
       (fun placed =>
          let '(finalPath, finalFilename) := placed in
          bind (rewrite env h evt msg filename finalPath finalFilename mime
                  (Z.of_nat (String.length data)) uri)
            (fun _ => @Return (option goerror) (option goerror) None))).
Proof.
  intros w. unfold bind at 1.
  destruct (place_and_upload env p filename data w) as [[e|[fp fn]] w1] eqn:Hrun.
  - destruct (place_and_upload_emits env not_sending ltac:(by intros []) p filename data w)
      as (added & E & F).
    rewrite Hrun in E. exists added. split; [done|by left].
  - destruct (place_and_upload_stored _ _ _ _ _ _ _ Hrun) as (a1 & E1 & F1 & Hst).
    destruct (rewrite_sends evt msg filename fp fn mime (Z.of_nat (String.length data)) uri w1)
      as (content & post & E2 & F2 & Hurl).
    exists (a1 ++ SendMessageEvent (evSender evt) (evRoomID evt) content :: post)%list.
    split.
    + rewrite snd_then_Return, E2, E1. by rewrite <- app_assoc.
    + right. by exists a1, (evSender evt), (evRoomID evt), content, post, fp, fn, mime.
Qed.

End Backed.

Section Acquire.
Variable env : Env.
Variable ParseContentURI : string -> option ContentURI.
Variable PrepareForDecryption : EncryptedFileInfo -> bool.
Variable DecryptFile : EncryptedFileInfo -> string -> option string.

Lemma acquire_run h evt msg w data uri mime w1 :
  acquire env ParseContentURI PrepareForDecryption DecryptFile h evt msg w
  = (inr (data, uri, mime), w1) ->
  trace w1 = (trace w ++ [Download uri])%list
  /\ came_from DecryptFile (env (trace w) (Download uri)) data.
Proof.
  unfold acquire, bind, lift, when, Return, ret, came_from.
  destruct (File msg) as [file|].
  - destruct (negb (cryptoHelper h)); [done|].
    destruct (ParseContentURI (efURL file)) as [u|]; [|done]. rewrite request_run.
    destruct (failed _); [done|]. destruct (bodyFailed _); [done|].
    destruct (negb (PrepareForDecryption file)); [done|].
    destruct (DecryptFile file _) as [d|] eqn:Hd; [|done]. intros [= <- <- _ <-].
    split; [done|]. right. by exists file.
  - destruct (String.eqb (URL msg) ""); [done|].
    destruct (ParseContentURI (URL msg)) as [u|]; [|done].
    destruct (_ && _); [done|]. rewrite request_run.
    destruct (failed _); [done|]. destruct (bodyFailed _); [done|]. intros [= <- <- _ <-].
    split; [done|]. by left.
Qed.

End Acquire.

End EditFacts.

(** * The state record and the redaction *)

Module RecordFacts.
Import GoStrings GoTime Utils Handlers Props HandlerProps EditProps RecordProps.
Import NumberFacts StringFacts PathFacts CodecFacts HandlerFacts TraceFacts RequestFacts EditFacts.
Local Open Scope Z_scope.

Section Records.
Variable env : Env.
Variable h : MediaHandler.
Variable evt : Event.

Local Abbreviation plain := (fun c => plain_call c = true).

Lemma plain_no_record added :
  Forall plain added ->
  Forall (fun c => match c with SendStateEvent _ _ _ => False | _ => True end) added.
Proof. intros H. eapply Forall_impl; [exact H|]. by intros []. Qed.

Lemma records_quiet {X} (m : World -> X * World) : emits plain m -> records h evt m.
Proof.
  intros Hm w. destruct (Hm w) as (added & E & F). exists added. split; [done|].
  left. by apply plain_no_record.
Qed.

Lemma records_after_quiet {R A B} (m : Code R A) (k : A -> Code R B) :
  emits plain m -> (forall a, records h evt (k a)) -> records h evt (bind m k).
Proof.
  intros Hm Hk w. unfold bind. destruct (Hm w) as (a1 & E1 & F1).
  destruct (m w) as [[r|a] w1]; simpl in *.
  - exists a1. split; [done|]. left. by apply plain_no_record.
  - destruct (Hk a w1) as (a2 & E2 & S2). exists (a1 ++ a2)%list.
    split; [by rewrite E2, E1, app_assoc|].
    destruct S2 as [F2|(pre & content & post & fp & fn & mime & -> & Fpre & Fpost & Hne & Hurl)].
    + left. apply Forall_app. split; [by apply plain_no_record|done].
    + right. exists (a1 ++ pre)%list, content, post, fp, fn, mime. rewrite app_assoc.
      split; [done|]. split; [by apply Forall_app|]. done.
Qed.

Lemma records_func {R} (b : Code R R) : records h evt b -> records h evt (func b).
Proof.
  intros Hb w. unfold func. destruct (Hb w) as (a1 & E1 & F1).
  destruct (b w) as [[r|r] w1]; by exists a1.
Qed.

(** The path the placement step settles on is the path it was given or
    one of its candidates. *)
Lemma find_free_result remaining : forall i p f w r w',
  find_free env remaining i p f w = (inr r, w') ->
  fst r = p \/ exists j, fst r = candidate p j.
Proof.
  induction remaining as [|k IH]; intros i p f w r w' H.
  - cbn in H. injection H as <- _. by left.
  - rewrite find_free_step in H. cbv zeta in H.
    destruct (is_present _); [by apply IH in H|].
    destruct (is_absent _); [|done]. injection H as <- _. right. by exists i.
Qed.

Lemma place_and_upload_result p f data w fp fn w' :
  place_and_upload env p f data w = (inr (fp, fn), w') ->
  fp = p \/ exists j, fp = candidate p j.
Proof.
  rewrite place_and_upload_run. cbv zeta. rewrite place_run. cbv zeta.
  destruct (is_present _).
  - destruct (_ && _); [intros [= <- _ _]; by left|].
    destruct (find_free env 1000 1 p f _) as [[e|[a b]] w1] eqn:Hf; [done|].
    apply find_free_result in Hf. cbn [fst] in Hf.
    destruct (String.eqb a p); [done|]. destruct (upload_outcome _); [done|].
    by intros [= <- _ _].
  - destruct (is_absent _); [|done]. destruct (upload_outcome _); [done|].
    intros [= <- _ _]. by left.
Qed.

Lemma candidate_not_empty p i : candidate p i <> "".
Proof.
  destruct (candidate_shape p i) as (X & nb & _ & Hne & _ & _ & ->).
  by apply append_not_empty.
Qed.

(** The edit and the record that follows it. *)
Lemma rewrite_records msg filename fp fn mime n uri w :
  exists content rest,
    trace (snd (rewrite env h evt msg filename fp fn mime n uri w))
    = (trace w ++ SendMessageEvent (evSender evt) (evRoomID evt) content :: rest)%list
    /\ URL content
       = "mxc://" +:+ MediaProxyServerName (config h) +:+ "/"
         +:+ EncodeMediaID (mediaIDSecret h) (mkMediaRef (TrimLeft fp "/") fn mime)
    /\ (rest = []
        \/ exists post,
             rest = SendStateEvent (evRoomID evt) (evID evt) (record_of h fp fn (URL content))
                    :: post
             /\ Forall plain post).
Proof.
  unfold rewrite. cbv zeta.
  match goal with
  | |- context [request env (SendMessageEvent _ _ ?c)] => exists c
  end.
  unfold bind at 1. unfold lift at 1. rewrite request_run.
  unfold bind at 1. unfold when at 1.
  destruct (failed _).
  - exists []. cbn [Return snd trace after]. split; [done|]. split; [done|by left].
  - cbn [ret]. unfold bind at 1. unfold lift at 1.
    match goal with
    | |- context [storeMediaState env h ?r ?e ?p ?f ?m ?w0] =>
      assert (Hs : storeMediaState env h r e p f m w0
                   = (tt, after w0 [SendStateEvent r e (record_of h p f m)])) by reflexivity;
      rewrite Hs; clear Hs
    end.
    match goal with
    | |- context [bind ?m ?k ?w0] =>
      assert (Hk : emits plain (bind m k))
        by (unfold deleteLocalMedia; repeat emits_step);
      destruct (Hk w0) as (post & Ep & Fp)
    end.
    eexists. split; [|split; [reflexivity|right; exists post; split; [reflexivity|exact Fp]]].
    rewrite Ep. cbn [trace after]. by rewrite <- !app_assoc.
Qed.

Lemma records_place_and_rewrite msg filename p data mime uri :
  p <> "" ->
  records h evt
    (bind (place_and_upload env p filename data)
       (fun placed =>
          let '(finalPath, finalFilename) := placed in
          bind (rewrite env h evt msg filename finalPath finalFilename mime
                  (Z.of_nat (String.length data)) uri)
            (fun _ => @Return (option goerror) (option goerror) None))).
Proof.
  intros Hp w. unfold bind at 1.
  destruct (place_and_upload_emits env plain ltac:(by intros []) p filename data w)
    as (a1 & E1 & F1).
  destruct (place_and_upload env p filename data w) as [[e|[fp fn]] w1] eqn:Hrun.
  - exists a1. split; [done|]. left. by apply plain_no_record.
  - assert (Hfp : fp <> "").
    { destruct (place_and_upload_result _ _ _ _ _ _ _ Hrun) as [->|[j ->]];
        [done|apply candidate_not_empty]. }
    destruct (rewrite_records msg filename fp fn mime (Z.of_nat (String.length data)) uri w1)
      as (content & rest & E2 & Hurl & Hrest).
    exists (a1 ++ SendMessageEvent (evSender evt) (evRoomID evt) content :: rest)%list.
    cbn [snd] in E1. split; [rewrite snd_then_Return, E2, E1; by rewrite <- app_assoc|].
    destruct Hrest as [->|(post & -> & Fpost)].
    + left. apply Forall_app. split; [by apply plain_no_record|]. by repeat constructor.
    + right. by exists a1, content, post, fp, fn, mime.
Qed.

End Records.

End RecordFacts.

(** * The claims *)

Section Claims.
Import GoStrings GoTime Utils Handlers Props NumberFacts StringFacts PathFacts CodecFacts TrimFacts HandlerFacts TraceFacts.
Import Scenario.
Local Open Scope Z_scope.

(** C8: [SanitizePathSegment] trims surrounding white space (what
    [TrimSpace] cuts off each end is a run of white space runes, and what
    it leaves neither begins nor ends with one), replaces every '/', '\'
    and ':' and then every occurrence of ".." by '_', and gives "unknown"
    when nothing is left; so its result is never empty and never contains
    '/', '\', ':' or "..". *)
Theorem C8_sanitize_path_segment (value : string) :
  let replaced :=
    ReplaceAll
      (subst_byte ":" "_" (subst_byte "\" "_" (subst_byte "/" "_" (TrimSpace value))))
      ".." "_" in
  SanitizePathSegment value = (if String.eqb replaced "" then "unknown" else replaced)
  /\ (exists l r,
        value = l +:+ TrimSpace value +:+ r /\ white l /\ white r
        /\ leads_space (TrimSpace value) = false
        /\ trails_space (TrimSpace value) = false)
  /\ SanitizePathSegment value <> ""
  /\ Contains (SanitizePathSegment value) "/" = false
  /\ Contains (SanitizePathSegment value) "\" = false
  /\ Contains (SanitizePathSegment value) ":" = false
  /\ Contains (SanitizePathSegment value) ".." = false.
Proof.
  intros replaced.
  assert (Heq : SanitizePathSegment value
                = if String.eqb replaced "" then "unknown" else replaced).
  { unfold SanitizePathSegment, replaced. by rewrite !replace_byte. }
  assert (Hbytes : forall c,
             c = "/"%char \/ c = "\"%char \/ c = ":"%char ->
             all_bytes (fun a => negb (ascii_eqb a c)) replaced = true).
  { intros c Hc. unfold replaced, ReplaceAll. apply replace_from_bytes.
    - destruct Hc as [-> | [-> | ->]].
      + do 2 (apply subst_byte_keeps; [done|]). apply subst_byte_bytes; [|done].
        intros a Ha. by rewrite Ha.
      + apply subst_byte_keeps; [done|]. apply subst_byte_bytes; [|done].
        intros a Ha. by rewrite Ha.
      + apply subst_byte_bytes; [|done]. intros a Ha. by rewrite Ha.
    - by destruct Hc as [-> | [-> | ->]]. }
  split; [exact Heq|]. split; [apply TrimSpace_spec|]. rewrite Heq.
  destruct (String.eqb_spec replaced "") as [He|Hne].
  - repeat split; done.
  - split; [done|].
    repeat split; try (apply all_bytes_no_byte, Hbytes; auto).
    apply replace_dots_none.
Qed.

(** C9 (the code departs from it): [RenderPathTemplate] ranges over a Go
    map, so the order of the substitutions is not fixed.  With a file
    name that holds a placeholder (sanitizing leaves it as it is), two
    iteration orders of the same map render the same inputs to different
    paths.  The rest of the claim holds: with an event time that is not
    zero the clock is not read, and year, month and day are those of the
    event time, month and day with two digits. *)
Theorem C9_render_depends_on_iteration_order :
  let t := Date 2024 5 20 12 0 0 in
  let clock := Date 2026 1 1 0 0 0 in
  is_range_order (fun entries => entries)
  /\ is_range_order last_first
  /\ IsZero t = false
  /\ SanitizePathSegment "${room}.jpg" = "${room}.jpg"
  /\ RenderPathTemplate (fun entries => entries) clock
       "/media/${year}/${room}/${file}" "room1" "alice" "${room}.jpg" t
     = "/media/2024/room1/${room}.jpg"
  /\ RenderPathTemplate last_first clock
       "/media/${year}/${room}/${file}" "room1" "alice" "${room}.jpg" t
     = "/media/2024/room1/room1.jpg"
  /\ (forall range_order now now' template roomName user filename eventTime,
        IsZero eventTime = false ->
        RenderPathTemplate range_order now template roomName user filename eventTime
        = RenderPathTemplate range_order now' template roomName user filename eventTime)
  /\ RenderPathTemplate (fun entries => entries) clock
       "/${year}/${month}/${day}" "room1" "alice" "a.jpg" (Date 2024 5 7 23 59 59)
     = "/2024/05/07".
Proof.
  intros t clock.
  split; [by intros entries|].
  split; [apply last_first_is_order|].
  do 4 (split; [vm_compute; reflexivity|]).
  split; [|vm_compute; reflexivity].
  intros range_order now now' template roomName user filename eventTime Hzero.
  unfold RenderPathTemplate. by rewrite Hzero.
Qed.

(** C1 (the code departs from it): the base64url alphabet contains '_', the
    separator of the token.  For every secret and reference, decoding the
    minted token fails when the encoded payload holds a '_' (decoding
    splits there, and what follows is longer than a signature), and gives
    what the JSON decoder makes of the payload when it holds none.  The
    encoded payloads of the two references below hold one: their paths
    are not empty, the JSON decoder gives them back, and the round trip
    fails.  The handler mints such a token for an attachment named
    ok?.jpg. *)
Theorem C1_round_trip_fails_on_underscore_in_payload :
  (forall secret ref,
     DecodeMediaID secret (EncodeMediaID secret ref)
     = if Contains (Base64.EncodeToString (marshal_MediaRef ref)) "_"
       then inl ErrInvalidMediaID
       else match unmarshal_MediaRef (marshal_MediaRef ref) with
            | Some decoded =>
              if String.eqb (Path decoded) "" then inl ErrInvalidMediaID else inr decoded
            | None => inl ErrInvalidMediaID
            end)
  /\ (let ref := mkMediaRef "media/2024/ostsee/alice/noël.jpg" "noël.jpg" "image/jpeg" in
      Path ref <> ""
      /\ unmarshal_MediaRef (marshal_MediaRef ref) = Some ref
      /\ EncodeMediaID "secret" ref
         = "eyJwYXRoIjoibWVkaWEvMjAyNC9vc3RzZWUvYWxpY2Uvbm_Dq2wuanBnIiwiZmlsZV9uYW1lIjoibm_Dq2wuanBnIiwibWltZV90eXBlIjoiaW1hZ2UvanBlZyJ9_1AHTENsXBpg1e0i4xwx3WK8cgp0-eaP8kjiv6vrx7Ic"
      /\ DecodeMediaID "secret" (EncodeMediaID "secret" ref) = inl ErrInvalidMediaID)
  /\ (let ref :=
        mkMediaRef "media/2024/roomid_example.com/alice/ok?.jpg" "ok?.jpg" "image/jpeg" in
      let run :=
        handle (dav (homeserver "file-bytes" "image/jpeg")) handler (image_event "ok?.jpg")
          start in
      Path ref <> ""
      /\ unmarshal_MediaRef (marshal_MediaRef ref) = Some ref
      /\ Contains (Base64.EncodeToString (marshal_MediaRef ref)) "_" = true
      /\ EncodeMediaID "secret" ref
         = "eyJwYXRoIjoibWVkaWEvMjAyNC9yb29taWRfZXhhbXBsZS5jb20vYWxpY2Uvb2s_LmpwZyIsImZpbGVfbmFtZSI6Im9rPy5qcGciLCJtaW1lX3R5cGUiOiJpbWFnZS9qcGVnIn0__jyvfeh7gwGEBmitYd-0DFBebzT7A5-6EciW_4wCD6g"
      /\ fst run = None
      /\ minted "media.example.com" (trace (snd run)) = [EncodeMediaID "secret" ref]
      /\ DecodeMediaID "secret" (EncodeMediaID "secret" ref) = inl ErrInvalidMediaID).
Proof.
  split; [exact decode_encode_cases|]. split.
  - intros ref. split; [done|]. split; [vm_compute; reflexivity|].
    split; vm_compute; reflexivity.
  - intros ref run. split; [done|]. do 5 (split; [vm_compute; reflexivity|]).
    vm_compute; reflexivity.
Qed.

(** C5: [DecodeMediaID] fails closed.  It returns a reference with a
    non-empty path or the invalid-media-id error, and it returns the error
    when the token has no two parts, when the signature of the first part
    is not the second part, when the first part is not base64url, when the
    payload is not the JSON of a reference, and when the path is empty; a
    reference it returns has passed all of these checks. *)
Theorem C5_decode_fails_closed (secret mediaID : string) :
  ((exists ref, DecodeMediaID secret mediaID = inr ref /\ Path ref <> "")
   \/ DecodeMediaID secret mediaID = inl ErrInvalidMediaID)
  /\ (length (SplitN mediaID "_" 2) <> 2%nat ->
      DecodeMediaID secret mediaID = inl ErrInvalidMediaID)
  /\ (forall part0 part1,
        SplitN mediaID "_" 2 = [part0; part1] ->
        signMediaID secret part0 <> part1
        \/ Base64.DecodeString part0 = None
        \/ (exists payload, Base64.DecodeString part0 = Some payload
                            /\ unmarshal_MediaRef payload = None)
        \/ (exists payload ref, Base64.DecodeString part0 = Some payload
                                /\ unmarshal_MediaRef payload = Some ref
                                /\ Path ref = "") ->
        DecodeMediaID secret mediaID = inl ErrInvalidMediaID)
  /\ (forall ref,
        DecodeMediaID secret mediaID = inr ref ->
        exists part0 payload,
          SplitN mediaID "_" 2 = [part0; signMediaID secret part0]
          /\ Base64.DecodeString part0 = Some payload
          /\ unmarshal_MediaRef payload = Some ref
          /\ Path ref <> "").
Proof.
  unfold DecodeMediaID, Sha256.Equal.
  destruct (SplitN mediaID "_" 2) as [|part0 [|part1 [|? ?]]] eqn:Hsplit;
    try (repeat split; [by right|done..]).
  destruct (String.eqb_spec (signMediaID secret part0) part1) as [Hsig|Hsig]; simpl;
    [|repeat split; [by right|done..]].
  destruct (Base64.DecodeString part0) as [payload|] eqn:Hb64;
    [|repeat split; [by right|done..]].
  destruct (unmarshal_MediaRef payload) as [ref|] eqn:Hjson;
    [|repeat split; [by right|done..]].
  destruct (String.eqb_spec (Path ref) "") as [Hp|Hp];
    [repeat split; [by right|done..]|].
  repeat split.
  - left. by exists ref.
  - simpl. done.
  - intros p0 p1 [= <- <-] [H|[H|[(pl & H1 & H2)|(pl & r & H1 & H2 & H3)]]]; simplify_eq.
  - intros r [= <-]. exists part0, payload. by subst.
Qed.

(** C10: a record whose signature field is set to [signMediaState] of it
    verifies, and the signature does not depend on what the signature
    field held before: signing and verification both clear the field
    before the record is encoded. *)
Theorem C10_signed_state_verifies (h : MediaHandler) (st : mediaState) (previous : string) :
  let signed :=
    mkMediaState (msPath st) (msFileName st) (msMXC st) (signMediaState h st) in
  verifyMediaState h signed = true
  /\ signMediaState h (mkMediaState (msPath st) (msFileName st) (msMXC st) previous)
     = signMediaState h st
  /\ signMediaState h st
     = SignBytes (mediaIDSecret h)
         (marshal_mediaState (mkMediaState (msPath st) (msFileName st) (msMXC st) "")).
Proof.
  intros signed. repeat split.
  unfold verifyMediaState, signed. cbn [msSignature].
  destruct (String.eqb_spec (signMediaState h st) "") as [He|_].
  - by apply SignBytes_not_empty in He.
  - apply VerifyBytes_iff. reflexivity.
Qed.

(** C3 (amended): in the placement step, when the rendered path is there
    with a size equal to the length of the new content and the content is
    not empty, nothing is uploaded and the path and file name are kept.
    So with a storage server that keeps what it is sent, placing the same
    non-empty content twice at a path that was free uploads once: the
    second run only asks for the file, and the store holds the one file.
    Handling the event of the repository's test twice uploads once and
    leaves the one file. *)
Theorem C3_same_size_skips_upload (env other : Env) (p f data : string) (w : World) :
  let n := Z.of_nat (String.length data) in
  0 < n ->
  (is_present (env (trace w) (HEAD p)) = true ->
   reported_size (env (trace w) (HEAD p)) = n ->
   place_and_upload env p f data w = (inr (p, f), after w [HEAD p]))
  /\ (n < 2 ^ 63 ->
      dav_files (trace w) !! storage_key p = None ->
      let first := place_and_upload (dav other) p f data w in
      let second := place_and_upload (dav other) p f data (snd first) in
      first = (inr (p, f), after w [HEAD p; PUT p data n])
      /\ second = (inr (p, f), after w [HEAD p; PUT p data n; HEAD p])
      /\ dav_files (trace (snd second)) = <[storage_key p := data]> (dav_files (trace w)))
  /\ (let home := dav (homeserver "file-bytes" "image/jpeg") in
      let once := handle home handler (image_event "image.jpg") start in
      let twice := handle home handler (image_event "image.jpg") (snd once) in
      fst twice = None
      /\ filter is_PUT (trace (snd twice)) = [PUT stored_path "file-bytes" 10]
      /\ map_to_list (dav_files (trace (snd twice)))
         = [(storage_key stored_path, "file-bytes")]).
Proof.
  intros n Hn. split; [intros; by apply place_and_upload_reuse|].
  split; [|intros home once twice; repeat split; vm_compute; reflexivity].
  intros Hmax Hfree first second.
  assert (H1 : first = (inr (p, f), after w [HEAD p; PUT p data n])).
  { unfold first. rewrite place_and_upload_fresh.
    - cbn zeta. unfold dav at 1. rewrite dav_files_snoc. cbn [dav_step]. by rewrite Hfree.
    - unfold dav. by rewrite Hfree. }
  assert (Hfiles : dav_files (trace w ++ [HEAD p; PUT p data n])%list
                   = <[storage_key p := data]> (dav_files (trace w))).
  { change [HEAD p; PUT p data n] with ([HEAD p] ++ [PUT p data n])%list.
    by rewrite app_assoc, !dav_files_snoc. }
  assert (H2 : second = (inr (p, f), after w [HEAD p; PUT p data n; HEAD p])).
  { unfold second. rewrite H1. cbn [snd]. rewrite place_and_upload_reuse.
    - by rewrite after_after.
    - cbn [trace after]. unfold dav. rewrite Hfiles, lookup_insert_eq. done.
    - cbn [trace after]. unfold dav. rewrite Hfiles, lookup_insert_eq.
      unfold reported_size. cbn [hdrContentLength http].
      rewrite ParseInt64_itoa; [done|]. fold n. lia.
    - done. }
  repeat split; [done..|].
  rewrite H2. cbn [snd trace after].
  change [HEAD p; PUT p data n; HEAD p] with ([HEAD p; PUT p data n] ++ [HEAD p])%list.
  by rewrite app_assoc, dav_files_snoc, Hfiles.
Qed.

(** The claim C3 as stated fails for empty content: the file is there with
    size 0, the new content has length 0, and yet a numbered copy is
    uploaded. *)
Lemma C3_counterexample_empty_content :
  let env := dav (homeserver "" "") in
  let w := mkWorld [PUT "/media/a.jpg" "" 0] ∅ in
  is_present (env (trace w) (HEAD "/media/a.jpg")) = true
  /\ reported_size (env (trace w) (HEAD "/media/a.jpg")) = Z.of_nat (String.length "")
  /\ place_and_upload env "/media/a.jpg" "a.jpg" "" w
     = (inr ("/media/a_1.jpg", "a_1.jpg"),
        after w [HEAD "/media/a.jpg"; HEAD "/media/a_1.jpg"; PUT "/media/a_1.jpg" "" 0]).
Proof. repeat split; vm_compute; reflexivity. Qed.

Lemma C3_witness :
  let env := dav (homeserver "" "") in
  let w := mkWorld [PUT "/media/a.jpg" "file-bytes" 10] ∅ in
  place_and_upload env "/media/a.jpg" "a.jpg" "file-bytes" w
  = (inr ("/media/a.jpg", "a.jpg"), after w [HEAD "/media/a.jpg"]).
Proof.
  intros env w.
  apply (proj1 (C3_same_size_skips_upload env env "/media/a.jpg" "a.jpg" "file-bytes" w
                  ltac:(simpl; lia))); vm_compute; reflexivity.
Defined.

(** C4: when the rendered path is there with a size that differs from the
    length of the new content, the candidates name_1.ext, name_2.ext, ...
    are asked for in order; the content is uploaded to the first one that
    is reported absent, and when all 1000 are reported present the step
    fails with an error and uploads nothing.  No candidate is the rendered
    path itself.  Handling the event of the repository's test a second
    time with other content uploads it as image_1.jpg and keeps the first
    file. *)
Theorem C4_collision_takes_first_free_candidate (env : Env) (p f data : string) (w : World) :
  let n := Z.of_nat (String.length data) in
  let w0 := after w [HEAD p] in
  let present (j : nat) :=
    is_present (env (probing w0 p 1 j) (HEAD (candidate p (1 + Z.of_nat j)))) = true in
  is_present (env (trace w) (HEAD p)) = true ->
  reported_size (env (trace w) (HEAD p)) <> n ->
  (forall k,
     (k < 1000)%nat ->
     (forall j, (j < k)%nat -> present j) ->
     is_absent (env (probing w0 p 1 k) (HEAD (candidate p (1 + Z.of_nat k)))) = true ->
     let target := candidate p (1 + Z.of_nat k) in
     let w1 := after w0 (map HEAD (candidates p 1 (S k))) in
     place_and_upload env p f data w
     = (match upload_outcome (env (trace w1) (PUT target data n)) with
        | Some e => inl (Some (Wrapped "failed to upload to nextcloud" e))
        | None => inr (target, candidate_name p (1 + Z.of_nat k))
        end,
        after w1 [PUT target data n]))
  /\ ((forall j, (j < 1000)%nat -> present j) ->
      place_and_upload env p f data w
      = (inl (Some (NoFreeName p)), after w0 (map HEAD (candidates p 1 1000))))
  /\ (forall i, candidate p i <> p
                /\ candidate_name p i
                   = TrimSuffix (GoPath.Base p) (GoPath.Ext (GoPath.Base p)) +:+ "_"
                     +:+ Fmt.itoa i +:+ GoPath.Ext (GoPath.Base p))
  /\ map (addCounterSuffix "/media/2024/room/alice/image.jpg") [1; 2; 1000]
     = [ ("/media/2024/room/alice/image_1.jpg", "image_1.jpg");
         ("/media/2024/room/alice/image_2.jpg", "image_2.jpg");
         ("/media/2024/room/alice/image_1000.jpg", "image_1000.jpg") ]
  /\ (let once :=
        handle (dav (homeserver "file-bytes" "image/jpeg")) handler
          (image_event "image.jpg") start in
      let again :=
        handle (dav (homeserver "other content" "image/jpeg")) handler
          (image_event "image.jpg") (snd once) in
      fst again = None
      /\ filter is_PUT (trace (snd again))
         = [ PUT stored_path "file-bytes" 10;
             PUT "/media/2024/roomid_example.com/alice/image_1.jpg" "other content" 13 ]
      /\ map_to_list (dav_files (trace (snd again)))
         ≡ₚ [ (storage_key stored_path, "file-bytes");
              ("media/2024/roomid_example.com/alice/image_1.jpg", "other content") ]).
Proof.
  intros n w0 present Hp Hsize.
  assert (Hplace : place env p f n w
            = match find_free env 1000 1 p f w0 with
              | (inl e, w') => (inl e, w')
              | (inr (finalPath, finalFilename), w') =>
                if String.eqb finalPath p then (inl (Some (NoFreeName p)), w')
                else (inr (finalPath, finalFilename, true), w')
              end).
  { rewrite place_run. cbn zeta. rewrite Hp.
    destruct (Z.eqb_spec (reported_size (env (trace w) (HEAD p))) n); [done|].
    by rewrite andb_false_r. }
  split; [|split; [|split; [|split]]].
  - intros k Hk Hpre Habs target w1.
    rewrite place_and_upload_run. cbn zeta. fold n. rewrite Hplace.
    rewrite (find_free_found env 1000 1 p f w0 k Hk Hpre Habs).
    fold target. destruct (String.eqb_spec target p) as [Heq|_].
    + by apply candidate_neq in Heq.
    + fold w1. by destruct (upload_outcome _).
  - intros Hall. rewrite place_and_upload_run. cbn zeta. fold n. rewrite Hplace.
    rewrite (find_free_exhausted env 1000 1 p f w0 Hall).
    by rewrite String.eqb_refl.
  - intros i. split; [apply candidate_neq|].
    unfold candidate_name, addCounterSuffix.
    by destruct (String.eqb (GoPath.Dir p) ".").
  - vm_compute. reflexivity.
  - intros once again. split; [vm_compute; reflexivity|].
    split; [vm_compute; reflexivity|].
    match goal with
    | |- ?l ≡ₚ _ => let v := eval vm_compute in l in
                    replace l with v by (vm_compute; reflexivity)
    end.
    first [reflexivity | apply perm_swap].
Qed.

Lemma C4_witness :
  let env := dav (homeserver "" "") in
  let w := mkWorld [PUT "/media/a.jpg" "old" 3; PUT "/media/a_1.jpg" "older" 5] ∅ in
  is_present (env (trace w) (HEAD "/media/a.jpg")) = true
  /\ reported_size (env (trace w) (HEAD "/media/a.jpg")) = 3
  /\ place_and_upload env "/media/a.jpg" "a.jpg" "new!" w
     = (inr ("/media/a_2.jpg", "a_2.jpg"),
        after w [HEAD "/media/a.jpg"; HEAD "/media/a_1.jpg"; HEAD "/media/a_2.jpg";
                 PUT "/media/a_2.jpg" "new!" 4]).
Proof.
  intros env w. split; [vm_compute; reflexivity|]. split; [vm_compute; reflexivity|].
  assert (Hp : is_present (env (trace w) (HEAD "/media/a.jpg")) = true)
    by (vm_compute; reflexivity).
  assert (Hs : reported_size (env (trace w) (HEAD "/media/a.jpg"))
               <> Z.of_nat (String.length "new!"))
    by (vm_compute; discriminate).
  destruct (C4_collision_takes_first_free_candidate env "/media/a.jpg" "a.jpg" "new!" w Hp Hs)
    as [Hfound _].
  rewrite (Hfound 1%nat).
  - vm_compute. reflexivity.
  - lia.
  - intros j Hj. assert (j = 0%nat) as -> by lia. vm_compute. reflexivity.
  - vm_compute. reflexivity.
Defined.

Section Orchestrator.
Variable env : Env.
Variable IsMedia : string -> bool.
Variable ParseContentURI : string -> option ContentURI.
Variable PrepareForDecryption : EncryptedFileInfo -> bool.
Variable DecryptFile : EncryptedFileInfo -> string -> option string.
Variable now : GoTime.Time.
Variable range_order : list (string * string) -> list (string * string).

Let handle_event :=
  HandleMatrixEvent env IsMedia ParseContentURI PrepareForDecryption DecryptFile now range_order.

(** C2: on a redaction event the storage delete is called exactly when the
    state record of the redacted event is there, has a path and a
    signature, and the signature is the HMAC of the record's other fields;
    then it is the only storage call, a "not found" answer (like 200 and
    204) makes the run return no error, and any error it returns is the
    wrapped error of the delete.  In every other case no storage call is
    made and the run returns no error. *)
Theorem C2_redaction_deletes_only_with_verified_record
    (h : MediaHandler) (evt : Event) (w : World) :
  evType evt = EventRedaction ->
  match redaction_target evt with
  | None => handle_event h evt w = (None, w)
  | Some target =>
    let lookup := StateEvent (evRoomID evt) target in
    let answer := env (trace w) lookup in
    let path := msPath (state answer) in
    let deleted := env (trace w ++ [lookup])%list (DELETE path) in
    (valid_record h answer ->
     snd (handle_event h evt w) = after w [lookup; DELETE path]
     /\ (failed deleted = false ->
         status deleted = 404 \/ status deleted = 200 \/ status deleted = 204 ->
         fst (handle_event h evt w) = None)
     /\ (fst (handle_event h evt w) = None
         \/ exists e, fst (handle_event h evt w)
                      = Some (Wrapped ("failed to delete Nextcloud file " +:+ path) e)))
    /\ (~ valid_record h answer -> handle_event h evt w = (None, after w [lookup]))
  end.
Proof.
  intros Htype.
  assert (Hrun : handle_event h evt w = handleRedactionEvent env h evt w).
  { unfold handle_event, HandleMatrixEvent, func, bind at 1, when at 1. rewrite Htype.
    unfold bind, lift, Return. by destruct (handleRedactionEvent env h evt w). }
  rewrite Hrun, handleRedactionEvent_run.
  destruct (redaction_target evt) as [target|]; [|done].
  intros lookup answer path deleted. rewrite deleteFromStateEvent_run. cbn zeta.
  fold lookup answer path deleted. split.
  - intros Hvalid. apply record_verifies_iff in Hvalid. rewrite Hvalid. cbn [fst snd].
    split; [done|]. unfold delete_outcome. split.
    + intros -> Hs. by destruct Hs as [->|[->| ->]].
    + destruct (failed deleted); [right; by eexists|].
      destruct (_ || _); [by left|right; by eexists].
  - intros Hinvalid. destruct (record_verifies h answer) eqn:E; [|done].
    by apply record_verifies_iff in E.
Qed.

(** C6: when the edit of the original message fails, the run returns no
    error and makes no request after it; the requests before it only
    fetched the media and placed it, so no state record is stored, nothing
    is deleted from storage and no media is deleted on the homeserver. *)
Theorem C6_failed_edit_stops_processing
    (h : MediaHandler) (evt : Event) (w : World)
    (pre post : list Call) (sender roomID : string) (content : MessageEventContent) :
  trace (snd (handle_event h evt w))
  = (trace w ++ pre ++ SendMessageEvent sender roomID content :: post)%list ->
  failed (env (trace w ++ pre)%list (SendMessageEvent sender roomID content)) = true ->
  fst (handle_event h evt w) = None
  /\ post = []
  /\ Forall (fun c => is_fetch_or_place c = true) pre
  /\ Forall (fun c => is_cleanup_or_record c = false) (pre ++ post)%list.
Proof.
  intros Htrace Hfailed.
  destruct (HandleMatrixEvent_body_shaped env IsMedia ParseContentURI PrepareForDecryption
              DecryptFile now range_order h evt w) as (added & E & S).
  fold handle_event in E, S. rewrite E in Htrace. apply app_inv_head in Htrace. subst added.
  destruct S as [F|(pre0 & c0 & post0 & Heq & Hc0 & Fpre & Fpost & Hstop)].
  - apply Forall_app in F as [_ F]. by apply Forall_cons in F as [F _].
  - symmetry in Heq.
    assert (Fpre' : Forall not_sending pre0).
    { eapply Forall_impl; [exact Fpre|]. apply fetching_not_sending. }
    destruct (unique_edit _ _ _ _ _ _ Heq Hc0 eq_refl Fpre' Fpost) as (-> & <- & ->).
    destruct (Hstop Hfailed) as [-> Hnone].
    split; [done|]. split; [done|]. split; [done|].
    rewrite app_nil_r. eapply Forall_impl; [exact Fpre|]. apply fetching_not_cleanup.
Qed.

End Orchestrator.

Lemma C2_witness :
  let env := holding_state signed_record (dav (homeserver "" "")) in
  valid_record handler (env [] (StateEvent room "$original"))
  /\ handle env handler redaction_event start
     = (None, mkWorld [StateEvent room "$original"; DELETE stored_path] ∅).
Proof.
  intros env.
  assert (Hvalid : valid_record handler (env [] (StateEvent room "$original")))
    by (repeat split; vm_compute; (reflexivity || discriminate)).
  split; [exact Hvalid|].
  pose proof (C2_redaction_deletes_only_with_verified_record env IsMedia ParseContentURI
                (fun _ => true) (fun _ data => Some data) clock (fun entries => entries)
                handler redaction_event start eq_refl) as H.
  change (redaction_target redaction_event) with (Some "$original") in H.
  destruct H as [H _]. destruct (H Hvalid) as (Hworld & Hok & _).
  unfold handle. rewrite (surjective_pairing (HandleMatrixEvent _ _ _ _ _ _ _ _ _ _)).
  rewrite Hworld, Hok; [reflexivity|vm_compute; reflexivity|left; vm_compute; reflexivity].
Defined.

Lemma C6_witness :
  let env := refusing_edits (dav (homeserver "file-bytes" "image/jpeg")) in
  let run := handle env handler (image_event "image.jpg") start in
  fst run = None
  /\ map is_SendMessageEvent (trace (snd run))
     = [false; false; false; false; false; false; false; true]
  /\ filter is_PUT (trace (snd run)) = [PUT stored_path "file-bytes" 10].
Proof.
  intros env run. split; [|split; vm_compute; reflexivity].
  pose (tr := trace (snd run)).
  pose (content := match tr !! 7%nat with
                   | Some (SendMessageEvent _ _ c) => c
                   | _ => mkContent "" "" "" "" None None None None
                   end).
  apply (C6_failed_edit_stops_processing env IsMedia ParseContentURI
           (fun _ => true) (fun _ data => Some data) clock (fun entries => entries)
           handler (image_event "image.jpg") start (take 7 tr) []
           "@alice:example.com" room content); vm_compute; reflexivity.
Defined.

(** The path of the scenario does not depend on the order in which the
    replacements are visited: its labels hold no placeholder. *)
Lemma scenario_path_any_order (range_order : list (string * string) -> list (string * string)) :
  is_range_order range_order ->
  RenderPathTemplate range_order clock template
    (SanitizePathSegment (getRoomName room))
    (SanitizePathSegment (MatrixUserLocalpart "@alice:example.com"))
    (SanitizePathSegment "image.jpg")
    (UTC (UnixMilli (evTimestamp (image_event "image.jpg"))))
  = stored_path.
Proof.
  intros Horder. unfold RenderPathTemplate.
  set (entries := replacements _ _ _ _).
  assert (Hin : range_order entries ∈ permutations entries).
  { apply permutations_Permutation. symmetry. apply Horder. }
  revert Hin. generalize (range_order entries). intros order Hin.
  assert (Hall : forallb (fun order =>
             String.eqb (GoPath.Clean (fold_left replace_entry order template)) stored_path)
           (permutations entries) = true) by (vm_compute; reflexivity).
  rewrite forallb_forall in Hall. apply String.eqb_eq, Hall.
  by apply list_elem_of_In.
Qed.

(** The same for the room whose label holds a question mark. *)
Lemma odd_room_path_any_order (range_order : list (string * string) -> list (string * string)) :
  is_range_order range_order ->
  RenderPathTemplate range_order clock template
    (SanitizePathSegment (getRoomName odd_room))
    (SanitizePathSegment (MatrixUserLocalpart "@alice:example.com"))
    (SanitizePathSegment "image.jpg")
    (UTC (UnixMilli (evTimestamp (attachment odd_room "image.jpg" "image/jpeg"))))
  = "/media/2024/roo?_example.com/alice/image.jpg".
Proof.
  intros Horder. unfold RenderPathTemplate.
  set (entries := replacements _ _ _ _).
  assert (Hin : range_order entries ∈ permutations entries).
  { apply permutations_Permutation. symmetry. apply Horder. }
  revert Hin. generalize (range_order entries). intros order Hin.
  assert (Hall : forallb (fun order =>
             String.eqb (GoPath.Clean (fold_left replace_entry order template))
               "/media/2024/roo?_example.com/alice/image.jpg")
           (permutations entries) = true) by (vm_compute; reflexivity).
  rewrite forallb_forall in Hall. apply String.eqb_eq, Hall.
  by apply list_elem_of_In.
Qed.

(** C7 (the code departs from it): the scenario of the specification
    (attachment image.jpg, template /media/${year}/${room}/${user}/${file},
    sender @alice:example.com, 2024-05-20 12:00 UTC, declared type
    image/jpeg), in two rooms and whatever the order in which the
    replacements are visited.

    In the room of the repository's test, !roomid:example.com with the
    label roomid_example.com, [RenderPathTemplate] gives
    /media/2024/roomid_example.com/alice/image.jpg, the run returns no
    error, the storage server holds the content under that path without
    its leading slash and nothing else, and the one token sent to the
    room decodes to that path without its leading slash, the file name
    and the declared type.

    In the room !roo?:example.com, with the label roo?_example.com, the
    path is /media/2024/roo?_example.com/alice/image.jpg, the run returns
    no error, the content is stored, one token is sent to the room, and
    it is the encoding of that path, the file name and the declared type;
    but decoding it fails: the encoded payload holds the separator '_'.

    For every label, declared type and secret, decoding the encoded
    reference of media/2024/<label>/alice/image.jpg fails when the
    encoded payload holds '_', and gives the reference back when label
    and type are made of safe bytes. *)
Theorem C7_end_to_end_token_fails_for_some_rooms
    (range_order : list (string * string) -> list (string * string)) :
  is_range_order range_order ->
  (let run :=
     HandleMatrixEvent (dav (homeserver "file-bytes" "image/jpeg")) IsMedia ParseContentURI
       (fun _ => true) (fun _ data => Some data) clock range_order handler
       (image_event "image.jpg") start in
   let ref :=
     mkMediaRef "media/2024/roomid_example.com/alice/image.jpg" "image.jpg" "image/jpeg" in
   SanitizePathSegment (getRoomName room) = "roomid_example.com"
   /\ RenderPathTemplate range_order clock template
        (SanitizePathSegment (getRoomName room))
        (SanitizePathSegment (MatrixUserLocalpart "@alice:example.com"))
        (SanitizePathSegment "image.jpg")
        (UTC (UnixMilli (evTimestamp (image_event "image.jpg"))))
      = "/" +:+ Path ref
   /\ Year (UTC (UnixMilli (evTimestamp (image_event "image.jpg")))) = 2024
   /\ fst run = None
   /\ map_to_list (dav_files (trace (snd run))) = [(Path ref, "file-bytes")]
   /\ minted "media.example.com" (trace (snd run)) = [EncodeMediaID "secret" ref]
   /\ DecodeMediaID "secret" (EncodeMediaID "secret" ref) = inr ref)
  /\ (let run :=
        HandleMatrixEvent (dav (homeserver "file-bytes" "image/jpeg")) IsMedia ParseContentURI
          (fun _ => true) (fun _ data => Some data) clock range_order
          (handler_of "secret" odd_room) (attachment odd_room "image.jpg" "image/jpeg")
          start in
      let ref :=
        mkMediaRef "media/2024/roo?_example.com/alice/image.jpg" "image.jpg" "image/jpeg" in
      SanitizePathSegment (getRoomName odd_room) = "roo?_example.com"
      /\ RenderPathTemplate range_order clock template
           (SanitizePathSegment (getRoomName odd_room))
           (SanitizePathSegment (MatrixUserLocalpart "@alice:example.com"))
           (SanitizePathSegment "image.jpg")
           (UTC (UnixMilli (evTimestamp (attachment odd_room "image.jpg" "image/jpeg"))))
         = "/" +:+ Path ref
      /\ fst run = None
      /\ map_to_list (dav_files (trace (snd run))) = [(Path ref, "file-bytes")]
      /\ minted "media.example.com" (trace (snd run)) = [EncodeMediaID "secret" ref]
      /\ EncodeMediaID "secret" ref
         = "eyJwYXRoIjoibWVkaWEvMjAyNC9yb28_X2V4YW1wbGUuY29tL2FsaWNlL2ltYWdlLmpwZyIsImZpbGVfbmFtZSI6ImltYWdlLmpwZyIsIm1pbWVfdHlwZSI6ImltYWdlL2pwZWcifQ_S4WN7LWP51VEE7s6NZFYOVM0Q66_rKEacg2jMapIy-k"
      /\ Contains (Base64.EncodeToString (marshal_MediaRef ref)) "_" = true
      /\ DecodeMediaID "secret" (EncodeMediaID "secret" ref) = inl ErrInvalidMediaID)
  /\ (forall secret label mime,
        let ref :=
          mkMediaRef ("media/2024/" +:+ label +:+ "/alice/image.jpg") "image.jpg" mime in
        (Contains (Base64.EncodeToString (marshal_MediaRef ref)) "_" = true ->
         DecodeMediaID secret (EncodeMediaID secret ref) = inl ErrInvalidMediaID)
        /\ (safe label = true -> safe mime = true ->
            DecodeMediaID secret (EncodeMediaID secret ref) = inr ref)).
Proof.
  intros Horder. split; [|split].
  - intros run ref.
    split; [vm_compute; reflexivity|].
    split; [exact (scenario_path_any_order range_order Horder)|].
    split; [vm_compute; reflexivity|].
    subst run. unfold HandleMatrixEvent.
    replace (MatrixRoomPathTemplate (Handlers.config handler)
               !! evRoomID (image_event "image.jpg"))
      with (Some template) by (vm_compute; reflexivity).
    cbn [evContent image_event AsMessage].
    match goal with
    | |- context [RenderPathTemplate range_order ?n ?t ?r ?u ?f ?e] =>
      replace (RenderPathTemplate range_order n t r u f e) with stored_path
        by (symmetry; exact (scenario_path_any_order range_order Horder))
    end.
    match goal with
    | |- context [func ?b ?w] =>
      let v := eval vm_compute in (func b w) in
      replace (func b w) with v by (vm_compute; reflexivity)
    end.
    split; [vm_compute; reflexivity|].
    split; [vm_compute; reflexivity|].
    split; vm_compute; reflexivity.
  - intros run ref.
    split; [vm_compute; reflexivity|].
    split; [exact (odd_room_path_any_order range_order Horder)|].
    subst run. unfold HandleMatrixEvent.
    replace (MatrixRoomPathTemplate (Handlers.config (handler_of "secret" odd_room))
               !! evRoomID (attachment odd_room "image.jpg" "image/jpeg"))
      with (Some template) by (vm_compute; reflexivity).
    cbn [evContent attachment AsMessage].
    match goal with
    | |- context [RenderPathTemplate range_order ?n ?t ?r ?u ?f ?e] =>
      replace (RenderPathTemplate range_order n t r u f e)
        with "/media/2024/roo?_example.com/alice/image.jpg"
        by (symmetry; exact (odd_room_path_any_order range_order Horder))
    end.
    match goal with
    | |- context [func ?b ?w] =>
      let v := eval vm_compute in (func b w) in
      replace (func b w) with v by (vm_compute; reflexivity)
    end.
    do 4 (split; [vm_compute; reflexivity|]).
    split; vm_compute; reflexivity.
  - intros secret label mime ref. split.
    + intros Hsep. by rewrite decode_encode_cases, Hsep.
    + intros Hlabel Hmime. apply decode_encode_safe; [|done|done|].
      * cbn [Path ref]. unfold safe in *. rewrite !all_bytes_append, Hlabel. done.
      * cbn [Path ref]. done.
Qed.

Lemma C7_witness :
  is_range_order last_first
  /\ (let run :=
        HandleMatrixEvent (dav (homeserver "file-bytes" "image/jpeg")) IsMedia ParseContentURI
          (fun _ => true) (fun _ data => Some data) clock last_first
          (handler_of "secret" odd_room) (attachment odd_room "image.jpg" "image/jpeg")
          start in
      let ref :=
        mkMediaRef "media/2024/roo?_example.com/alice/image.jpg" "image.jpg" "image/jpeg" in
      fst run = None
      /\ minted "media.example.com" (trace (snd run)) = [EncodeMediaID "secret" ref]
      /\ DecodeMediaID "secret" (EncodeMediaID "secret" ref) = inl ErrInvalidMediaID).
Proof.
  split; [apply last_first_is_order|].
  destruct (C7_end_to_end_token_fails_for_some_rooms last_first last_first_is_order)
    as (_ & H & _).
  intros run ref. destruct H as (_ & _ & Hok & _ & Hminted & _ & _ & Hfail). by repeat split.
Defined.

End Claims.

(** * Further properties of the orchestrator and the storage client *)

Section Coverage.
Import GoStrings GoTime Utils Handlers Props HandlerProps StorageProps.
Import NumberFacts StringFacts PathFacts CodecFacts HandlerFacts TraceFacts.
Import RequestFacts StorageFacts CandidateFacts.
Import Url NextcloudClient MediaProxy UrlProps ProxyProps UrlFacts ProxyFacts.
Import GoOs ConfigPkg CacheProps ConfigProps EditProps RecordProps.
Import CacheFacts ConfigFacts EditFacts RecordFacts.
Import Scenario.
Local Open Scope Z_scope.

Section Orchestrator.
Variable env : Env.
Variable IsMedia : string -> bool.
Variable ParseContentURI : string -> option ContentURI.
Variable PrepareForDecryption : EncryptedFileInfo -> bool.
Variable DecryptFile : EncryptedFileInfo -> string -> option string.
Variable now : GoTime.Time.
Variable range_order : list (string * string) -> list (string * string).

Let handle_event :=
  HandleMatrixEvent env IsMedia ParseContentURI PrepareForDecryption DecryptFile now range_order.

(** X1: what an event never leads to.  A message event leads to no
    deletion from storage and to no lookup of a state record, and to the
    deletion of media on the homeserver only when the admin API is
    enabled with a token; a redaction leads to nothing but the lookup of
    a state record and the deletion of a file; an event of another type
    leads to no request at all. *)
Theorem X1_requests_by_event_type (h : MediaHandler) (evt : Event) (w : World) :
  exists added,
    trace (snd (handle_event h evt w)) = (trace w ++ added)%list
    /\ Forall (fun c => permitted h evt c = true) added.
Proof.
  revert w. change (emits (fun c => permitted h evt c = true) (handle_event h evt)).
  unfold handle_event, HandleMatrixEvent, permitted.
  destruct (evType evt).
  - apply emits_func. apply emits_exit.
    + cbn [when]. apply emits_bind; [|intros; apply emits_Return].
      apply emits_lift. unfold handleRedactionEvent, deleteFromStateEvent.
      repeat emits_step.
    + intros w. unfold when, bind, lift, Return.
      destruct (handleRedactionEvent env h evt w). by eexists.
  - apply emits_func. cbv iota. unfold when at 1 2. 
    apply emits_bind; [apply emits_ret|]. intros _.
    apply emits_bind; [apply emits_ret|]. intros _.
    apply emits_bind; [repeat emits_step|]. intros _.
    destruct (_ !! _); [|apply emits_Return].
    apply emits_bind; [repeat emits_step|]. intros _.
    destruct (AsMessage _) as [msg|]; [|apply emits_Return].
    apply emits_bind; [repeat emits_step|]. intros _.
    apply emits_bind; [repeat emits_step|]. intros _.
    apply emits_bind; [unfold acquire; repeat emits_step|]. intros [[data uri] mime].
    apply emits_bind; [apply emits_lift, EnsureDirectories_emits; by intros []|].
    intros [e|]; [apply emits_Return|].
    apply emits_bind; [apply place_and_upload_emits; by intros []|]. intros [fp fn].
    apply emits_bind; [|intros; apply emits_Return].
    unfold rewrite. cbv zeta.
    apply emits_bind; [repeat emits_step|]. intros resp.
    apply emits_bind; [repeat emits_step|]. intros _.
    apply emits_bind; [unfold storeMediaState; repeat emits_step|]. intros _.
    apply emits_bind; [|intros; apply emits_ret].
    apply emits_when. apply emits_bind; [|intros; apply emits_ret].
    apply emits_lift, deleteLocalMedia_gated.
  - apply emits_func. cbv iota. unfold when at 1 2.
    apply emits_bind; [apply emits_ret|]. intros _.
    apply emits_exit; [apply emits_Return|]. intros w. by eexists.
Qed.


(** X3: the handler ignores the edits it sends: when such an edit comes
    back as a message event, handling it makes no request and returns no
    error, whatever its id and time. *)
Theorem X3_own_edit_is_ignored (h : MediaHandler) (evt : Event) (w : World)
    (added : list Call) (sender roomID : string) (content : MessageEventContent) :
  trace (snd (handle_event h evt w)) = (trace w ++ added)%list ->
  SendMessageEvent sender roomID content ∈ added ->
  forall eventID timestamp redacts w',
    handle_event h (mkEvent EventMessage sender roomID eventID timestamp redacts
                      (Message content)) w'
    = (None, w').
Proof.
  intros Htrace Hin eventID timestamp redacts w'.
  destruct (HandleMatrixEvent_replaces env IsMedia ParseContentURI PrepareForDecryption
              DecryptFile now range_order h evt w) as (added' & E & F).
  unfold handle_event in Htrace. rewrite E in Htrace. apply app_inv_head in Htrace. subst added'.
  rewrite Forall_forall in F. specialize (F _ Hin). cbn [edit_of] in F.
  unfold handle_event, HandleMatrixEvent, func, bind, when, Return, ret.
  cbn [evType evSender evRoomID evContent AsMessage].
  destruct (String.eqb sender (BotMXID h)); [done|].
  destruct (_ !! _); [|done].
  destruct (negb (IsMedia (MsgType content))); [done|].
  by rewrite F.
Qed.

(** X4: the record [storeMediaState] stores is one that
    [deleteFromStateEvent] accepts: it holds the path, the name and the
    URL it was given and verifies, and when the homeserver answers the
    lookup with it, the file at its path is deleted. *)
Theorem X4_stored_record_authorizes_delete (h : MediaHandler)
    (roomID eventID filePath filename mxc : string) (w : World) :
  filePath <> "" ->
  exists st,
    snd (storeMediaState env h roomID eventID filePath filename mxc w)
    = after w [SendStateEvent roomID eventID st]
    /\ msPath st = filePath /\ msFileName st = filename /\ msMXC st = mxc
    /\ verifyMediaState h st = true
    /\ forall w',
         failed (env (trace w') (StateEvent roomID eventID)) = false ->
         state (env (trace w') (StateEvent roomID eventID)) = st ->
         snd (deleteFromStateEvent env h roomID eventID w')
         = after w' [StateEvent roomID eventID; DELETE filePath].
Proof.
  intros Hpath.
  exists (mkMediaState filePath filename mxc
            (signMediaState h (mkMediaState filePath filename mxc ""))).
  split; [reflexivity|]. split; [reflexivity|]. split; [reflexivity|]. split; [reflexivity|].
  split; [apply signed_record_verifies|].
  intros w' Hok Hst. rewrite deleteFromStateEvent_run. cbv zeta.
  assert (Hv : record_verifies h (env (trace w') (StateEvent roomID eventID)) = true).
  { unfold record_verifies. rewrite Hok, Hst. cbn [msPath msSignature negb andb].
    destruct (String.eqb_spec filePath "") as [|_]; [done|].
    destruct (String.eqb_spec (signMediaState h (mkMediaState filePath filename mxc "")) "")
      as [He|_]; [by apply SignBytes_not_empty in He|].
    cbn [negb andb]. apply signed_record_verifies. }
  rewrite Hv, Hst. reflexivity.
Qed.

(** X5: an event leads to at most one upload, and the upload goes to a
    path that the storage server reported absent in the request just
    before it: the handler overwrites no file it has seen. *)
Theorem X5_uploads_once_to_absent_path (h : MediaHandler) (evt : Event) (w : World) :
  exists added,
    trace (snd (handle_event h evt w)) = (trace w ++ added)%list
    /\ upload_shape env (trace w) added.
Proof.
  revert w. change (uploads_carefully env (handle_event h evt)).
  unfold handle_event, HandleMatrixEvent.
  destruct (evType evt).
  - apply careful_quiet, emits_func, emits_exit.
    + cbn [when]. apply emits_bind; [|intros; apply emits_Return].
      apply emits_lift. unfold handleRedactionEvent, deleteFromStateEvent.
      repeat emits_step.
    + intros w. unfold when, bind, lift, Return.
      destruct (handleRedactionEvent env h evt w). by eexists.
  - apply careful_func. cbv iota. unfold when at 1 2.
    apply careful_after_quiet; [apply emits_ret|]. intros _.
    apply careful_after_quiet; [apply emits_ret|]. intros _.
    apply careful_after_quiet; [repeat emits_step|]. intros _.
    destruct (_ !! _); [|apply careful_quiet, emits_Return].
    apply careful_after_quiet; [repeat emits_step|]. intros _.
    destruct (AsMessage _) as [msg|]; [|apply careful_quiet, emits_Return].
    apply careful_after_quiet; [repeat emits_step|]. intros _.
    apply careful_after_quiet; [repeat emits_step|]. intros _.
    apply careful_after_quiet; [unfold acquire; repeat emits_step|].
    intros [[data uri] mime].
    apply careful_after_quiet.
    { by apply emits_lift, EnsureDirectories_asks. }
    intros [e|]; [apply careful_quiet, emits_Return|].
    apply careful_then_quiet; [apply careful_place_and_upload|]. intros [fp fn].
    apply emits_bind; [|intros; apply emits_Return].
    unfold rewrite, storeMediaState, deleteLocalMedia. cbv zeta. repeat emits_step.
  - apply careful_quiet, emits_func. cbv iota. unfold when at 1 2.
    apply emits_bind; [apply emits_ret|]. intros _.
    apply emits_exit; [apply emits_Return|]. intros w. by eexists.
Qed.

(** X6: an error is returned only before the message is edited: when
    handling an event returns an error, it has sent no message, stored no
    state record and deleted nothing on the homeserver. *)
Theorem X6_error_only_before_edit (h : MediaHandler) (evt : Event) (w : World) :
  exists added,
    trace (snd (handle_event h evt w)) = (trace w ++ added)%list
    /\ (fst (handle_event h evt w) = None
        \/ Forall (fun c => before_edit c = true) added).
Proof.
  unfold handle_event, HandleMatrixEvent.
  match goal with |- exists added, trace (snd (func ?b w)) = _ /\ _ =>
    assert (Hb : fails_early b) end.
  { destruct (evType evt).
    - apply early_quiet, emits_exit.
      + cbn [when]. apply emits_bind; [|intros; apply emits_Return].
        apply emits_lift. unfold handleRedactionEvent, deleteFromStateEvent.
        repeat emits_step.
      + intros w0. unfold when, bind, lift, Return.
        destruct (handleRedactionEvent env h evt w0). by eexists.
    - cbv iota. unfold when at 1 2.
      apply early_bind; [apply emits_ret|]. intros _.
      apply early_bind; [apply emits_ret|]. intros _.
      apply early_bind; [repeat emits_step|]. intros _.
      destruct (_ !! _); [|apply early_quiet, emits_Return].
      apply early_bind; [repeat emits_step|]. intros _.
      destruct (AsMessage _) as [msg|]; [|apply early_quiet, emits_Return].
      apply early_bind; [repeat emits_step|]. intros _.
      apply early_bind; [repeat emits_step|]. intros _.
      apply early_bind; [unfold acquire; repeat emits_step|]. intros [[data uri] mime].
      apply early_bind; [apply emits_lift, EnsureDirectories_emits; by intros []|].
      intros [e|]; [apply early_quiet, emits_Return|].
      apply early_bind; [apply place_and_upload_emits; by intros []|]. intros [fp fn].
      intros w0.
      pose proof (rewrite_returns_no_error env h evt msg
        (if String.eqb (GetFileName msg) "" then "file_" +:+ Fmt.itoa (unixSec now)
         else GetFileName msg) fp fn mime (Z.of_nat (String.length data)) uri w0) as Hr.
      assert (He : emits (fun _ => True)
                (bind (rewrite env h evt msg
                   (if String.eqb (GetFileName msg) "" then "file_" +:+ Fmt.itoa (unixSec now)
                    else GetFileName msg) fp fn mime (Z.of_nat (String.length data)) uri)
                   (fun _ => @Return (option goerror) (option goerror) None))).
      { unfold rewrite, storeMediaState, deleteLocalMedia. cbv zeta. repeat emits_step. }
      destruct (He w0) as (added & E & _). exists added. split; [done|by left].
    - cbv iota. unfold when at 1 2.
      apply early_bind; [apply emits_ret|]. intros _.
      apply early_quiet, emits_exit; [apply emits_Return|]. intros w0. by eexists. }
  destruct (Hb w) as (added & E & S). exists added. unfold func.
  match type of E with trace (snd (?b w)) = _ => destruct (b w) as [[r|r] w1] end;
    simpl in *; (split; [done|]); destruct S as [S|S]; [left; congruence|by right|done|by right].
Qed.

(** X7: when the directories of a file have been ensured without an
    error, ensuring the directories of a file below the same directories
    makes no request and returns no error. *)
Theorem X7_directories_requested_once (p q : string) (w : World) :
  fst (EnsureDirectories env p w) = None ->
  (forall d, d ∈ ancestors q -> d ∈ ancestors p) ->
  EnsureDirectories env q (snd (EnsureDirectories env p w))
  = (None, snd (EnsureDirectories env p w)).
Proof.
  rewrite !EnsureDirectories_run. intros Hok Hsub.
  destruct (create_all env (ancestors p) w) as [r w'] eqn:E. cbn [fst snd] in *. subst r.
  apply create_all_cached. intros d Hd.
  by apply (create_all_success env _ _ _ E), Hsub.
Qed.

(** X8: the directories above a file are asked for from the top down:
    for a path /d1/.../dn/f of names, the requests are an initial part
    of d1, d1/d2, ..., left out those in the cache; all of them when no
    error is returned, and no error is returned when the server accepts
    every request. *)
Theorem X8_directories_top_down (ds : list string) (f : string) (w : World) :
  Forall (fun d => is_name d = true) ds -> is_name f = true ->
  let run := EnsureDirectories env ("/" +:+ GoStrings.Join (ds ++ [f]) "/") w in
  let fresh := filter (fun d => d ∉ dirCache w) (nested ds) in
  exists k,
    (k <= length fresh)%nat
    /\ trace (snd run) = (trace w ++ map MKCOL (take k fresh))%list
    /\ (fst run = None -> k = length fresh)
    /\ ((forall history d, mkcol_ok (env history (MKCOL d)) = true) -> fst run = None).
Proof.
  intros Hall Hf run fresh. unfold run, fresh.
  rewrite EnsureDirectories_run, <- (ancestors_names ds f Hall Hf).
  apply create_all_requests. apply prefixes_NoDup.
Qed.

End Orchestrator.

Lemma X3_witness :
  let env := dav (homeserver "file-bytes" "image/jpeg") in
  let run := handle env handler (image_event "image.jpg") start in
  exists content,
    trace (snd run) !! 7%nat = Some (SendMessageEvent "@alice:example.com" room content)
    /\ handle env handler
         (mkEvent EventMessage "@alice:example.com" room "$edit" 0 "" (Message content))
         (snd run)
       = (None, snd run).
Proof.
  intros env run.
  pose (tr := trace (snd run)).
  pose (content := match tr !! 7%nat with
                   | Some (SendMessageEvent _ _ c) => c
                   | _ => mkContent "" "" "" "" None None None None
                   end).
  exists content. split; [vm_compute; reflexivity|].
  apply (X3_own_edit_is_ignored env IsMedia ParseContentURI
           (fun _ => true) (fun _ data => Some data) clock (fun entries => entries)
           handler (image_event "image.jpg") start tr "@alice:example.com" room content).
  - vm_compute. reflexivity.
  - apply (list_elem_of_lookup_2 _ 7%nat). vm_compute. reflexivity.
Defined.

Lemma X4_witness :
  let env := holding_state signed_record (dav (homeserver "" "")) in
  stored_path <> ""
  /\ snd (storeMediaState env handler room "$original" stored_path "image.jpg"
            "mxc://media.example.com/token" start)
     = after start [SendStateEvent room "$original" signed_record]
  /\ snd (deleteFromStateEvent env handler room "$original" start)
     = after start [StateEvent room "$original"; DELETE stored_path].
Proof.
  intros env.
  assert (Hpath : stored_path <> "") by discriminate.
  split; [exact Hpath|].
  destruct (X4_stored_record_authorizes_delete env handler room "$original" stored_path
              "image.jpg" "mxc://media.example.com/token" start Hpath)
    as (st & Hstore & _ & _ & _ & _ & Hdelete).
  assert (Hst : st = signed_record).
  { assert (E : snd (storeMediaState env handler room "$original" stored_path "image.jpg"
                       "mxc://media.example.com/token" start)
                = after start [SendStateEvent room "$original" signed_record])
      by (vm_compute; reflexivity).
    rewrite E in Hstore. unfold after in Hstore. by injection Hstore as <-. }
  subst st. split; [exact Hstore|].
  apply Hdelete; vm_compute; reflexivity.
Defined.

Lemma X7_witness :
  let env := dav (homeserver "" "") in
  let w := snd (EnsureDirectories env "/media/2024/room/alice/a.jpg" start) in
  trace w = [MKCOL "media"; MKCOL "media/2024"; MKCOL "media/2024/room";
             MKCOL "media/2024/room/alice"]
  /\ EnsureDirectories env "/media/2024/room/b.jpg" w = (None, w).
Proof.
  intros env w. split; [vm_compute; reflexivity|].
  apply (X7_directories_requested_once env "/media/2024/room/alice/a.jpg"
           "/media/2024/room/b.jpg" start).
  - vm_compute. reflexivity.
  - intros d.
    replace (ancestors "/media/2024/room/b.jpg")
      with ["media"; "media/2024"; "media/2024/room"] by (vm_compute; reflexivity).
    replace (ancestors "/media/2024/room/alice/a.jpg")
      with ["media"; "media/2024"; "media/2024/room"; "media/2024/room/alice"]
      by (vm_compute; reflexivity).
    set_solver.
Defined.

Lemma X8_witness :
  let env := dav (homeserver "" "") in
  let w := mkWorld [] {[ "media" ]} in
  Forall (fun d => is_name d = true) ["media"; "2024"; "room"] /\ is_name "a.jpg" = true
  /\ EnsureDirectories env "/media/2024/room/a.jpg" w
     = (None, mkWorld [MKCOL "media/2024"; MKCOL "media/2024/room"]
                {[ "media"; "media/2024"; "media/2024/room" ]}).
Proof.
  intros env w.
  assert (Hds : Forall (fun d => is_name d = true) ["media"; "2024"; "room"])
    by (repeat constructor).
  assert (Hf : is_name "a.jpg" = true) by reflexivity.
  split; [exact Hds|]. split; [exact Hf|].
  destruct (X8_directories_top_down env ["media"; "2024"; "room"] "a.jpg" w Hds Hf)
    as (k & _ & Htrace & _ & Hok).
  assert (Hnone : fst (EnsureDirectories env "/media/2024/room/a.jpg" w) = None).
  { apply Hok. intros history d. reflexivity. }
  vm_compute. reflexivity.
Defined.

(** X9: the round trip of the codec holds for references with safe
    fields: when the path, the file name and the MIME type are made of
    printable ASCII without the quote, the backslash, '<', '>', '&' and
    '?', and the path is not empty, decoding the encoded reference gives
    the reference back. *)
Theorem X9_round_trip_for_safe_references (secret : string) (ref : MediaRef) :
  safe (Path ref) = true -> safe (Utils.FileName ref) = true -> safe (MimeType ref) = true ->
  Path ref <> "" ->
  DecodeMediaID secret (EncodeMediaID secret ref) = inr ref.
Proof.
  intros Hp Hf Hm Hne.
  apply decode_encode; [|by apply unmarshal_marshal_plain; apply safe_plain|done].
  apply all_bytes_no_byte, EncodeToString_low. by apply marshal_MediaRef_low.
Qed.

Lemma X9_witness :
  let ref := mkMediaRef "media/2024/roomid_example.com/alice/image.jpg" "image.jpg"
               "image/jpeg" in
  DecodeMediaID "secret" (EncodeMediaID "secret" ref) = inr ref.
Proof.
  intros ref.
  apply (X9_round_trip_for_safe_references "secret" ref); (reflexivity || discriminate).
Defined.

Section Storage.
Variable BaseURL : string.

(** X10: two remote paths are sent to the same URL exactly when they
    are the same up to leading slashes: the escape of the segments loses
    nothing. *)
Theorem X10_buildURL_injective (p q : string) :
  buildURL BaseURL p = buildURL BaseURL q <-> TrimLeft p "/" = TrimLeft q "/".
Proof.
  split; [|unfold buildURL; by intros ->].
  unfold buildURL. cbv zeta. rewrite !Split_slash.
  set (b := TrimRight BaseURL "/"). set (t := TrimLeft p "/"). set (u := TrimLeft q "/").
  assert (Hlen : forall r, b <> b +:+ "/" +:+ r).
  { intros r H. apply (f_equal String.length) in H. rewrite !length_append in H.
    cbn in H. lia. }
  destruct (String.eqb_spec t ""), (String.eqb_spec u ""); intros H.
  - congruence.
  - by apply Hlen in H.
  - symmetry in H. by apply Hlen in H.
  - apply append_inv_l, append_inv_l in H.
    apply (f_equal (split_on "/")) in H.
    rewrite !split_on_Join in H.
    + apply map_PathEscape_inj in H. by rewrite <- (Join_split_on t), H, Join_split_on.
    + pose proof (split_on_not_nil "/" u). by destruct (split_on "/" u).
    + apply Forall_map, Forall_forall. intros e _. apply PathEscape_no_slash.
    + pose proof (split_on_not_nil "/" t). by destruct (split_on "/" t).
    + apply Forall_map, Forall_forall. intros e _. apply PathEscape_no_slash.
Qed.

(** X11: the URL of a remote path is the base without its trailing
    slashes, followed by nothing when the path is empty or made of
    slashes, and else by bytes that need no escape in a path: letters,
    digits, "-_.~$&+:=@", the '%' of an escape and the '/' between
    segments.  A name cannot end the path with '?' or '#'. *)
Theorem X11_buildURL_escapes (p : string) :
  exists rest,
    buildURL BaseURL p = TrimRight BaseURL "/" +:+ rest
    /\ all_bytes url_byte rest = true
    /\ (rest = "" <-> TrimLeft p "/" = "").
Proof.
  unfold buildURL. cbv zeta. destruct (String.eqb_spec (TrimLeft p "/") "") as [He|Hne].
  - exists "". by rewrite append_nil_r.
  - exists ("/" +:+ GoStrings.Join (map PathEscape (Split (TrimLeft p "/") "/")) "/").
    split; [done|]. split; [|done].
    change ("/" +:+ ?s) with (String "/" s). cbn [all_bytes].
    rewrite Join_bytes; [done|done|].
    apply Forall_map, Forall_forall. intros e _. apply PathEscape_bytes, escape_byte_url.
Qed.

End Storage.

(** X12: two candidates of a path with different counters are
    different paths, the name of a candidate is not the name of the
    path, and the path and its candidates 1 to 1000 are pairwise
    different: the loop of the placement step never asks for the same
    path twice. *)
Theorem X12_candidates_distinct (p : string) (i j : Z) :
  0 <= i < 2 ^ 63 -> 0 <= j < 2 ^ 63 ->
  (candidate p i = candidate p j -> i = j)
  /\ GoPath.Base (candidate p i) <> GoPath.Base p
  /\ NoDup (p :: candidates p 1 1000).
Proof.
  assert (Hinj : forall i j, 0 <= i < 2 ^ 63 -> 0 <= j < 2 ^ 63 ->
                   candidate p i = candidate p j -> i = j).
  { clear i j. intros i j Hi Hj H. destruct (candidate_form p) as (s & e & Hform).
    destruct (Hform i) as (X & HX & N1 & N2 & Ei), (Hform j) as (Y & HY & M1 & M2 & Ej).
    apply (f_equal GoPath.Base) in H. rewrite Ei, Ej, !Base_append in H by done.
    apply append_inv_l, (append_inv_l "_"), append_inv_r in H. by apply itoa_inj. }
  intros Hi Hj. split; [by apply Hinj|]. split.
  { destruct (candidate_shape p i) as (X & nb & HX & N1 & N2 & N3 & ->).
    by rewrite Base_append. }
  constructor.
  - intros (k & _ & Hk)%candidates_spec. symmetry in Hk. by apply candidate_neq in Hk.
  - assert (Hall : forall n a, 0 <= a -> a + Z.of_nat n <= 2 ^ 63 -> NoDup (candidates p a n)).
    { induction n as [|n IH]; intros a Ha Hn; cbn [candidates]; [constructor|].
      constructor; [|apply IH; lia].
      intros (k & Hk & Heq)%candidates_spec. apply Hinj in Heq; lia. }
    apply Hall; lia.
Qed.

Lemma X12_witness :
  0 <= 1 < 2 ^ 63 /\ 0 <= 2 < 2 ^ 63
  /\ NoDup ("/media/a.jpg" :: candidates "/media/a.jpg" 1 1000).
Proof.
  assert (H1 : 0 <= 1 < 2 ^ 63) by lia. assert (H2 : 0 <= 2 < 2 ^ 63) by lia.
  split; [exact H1|]. split; [exact H2|].
  apply (X12_candidates_distinct "/media/a.jpg" 1 2 H1 H2).
Defined.

Section Proxy.
Variable secretKey BaseURL : string.
Variable GET : Server.

(** X13: the media proxy fails closed: it asks the storage server for
    nothing unless the media id is a payload followed by its signature
    under the secret, holding a reference with a path, and then it asks
    once, for the path of that reference; for every other media id it
    returns the error of a bad media id. *)
Theorem X13_proxy_fails_closed (mediaID : string) :
  let run := getMedia secretKey BaseURL GET mediaID in
  (fst run = [] /\ snd run = inl ErrInvalidMediaIDSyntax
   /\ DecodeMediaID secretKey mediaID = inl ErrInvalidMediaID)
  \/ exists part0 payload ref,
       SplitN mediaID "_" 2 = [part0; signMediaID secretKey part0]
       /\ Base64.DecodeString part0 = Some payload
       /\ unmarshal_MediaRef payload = Some ref
       /\ Path ref <> ""
       /\ fst run = [buildURL BaseURL (Path ref)]
       /\ snd run = served ref (GET (buildURL BaseURL (Path ref))).
Proof.
  intros run. unfold run.
  destruct (DecodeMediaID secretKey mediaID) as [[]|ref] eqn:Hdec.
  - left. unfold getMedia. by rewrite Hdec.
  - right. rewrite (getMedia_decoded _ _ _ _ _ Hdec).
    unfold DecodeMediaID, Sha256.Equal in Hdec.
    destruct (SplitN mediaID "_" 2) as [|part0 [|part1 [|? ?]]] eqn:Hsplit; try done.
    destruct (String.eqb_spec (signMediaID secretKey part0) part1) as [E|]; [subst part1|done].
    cbn [negb] in Hdec.
    destruct (Base64.DecodeString part0) as [payload|] eqn:Hb64; [|done].
    destruct (unmarshal_MediaRef payload) as [r|] eqn:Hjson; [|done].
    destruct (String.eqb_spec (Path r) "") as [|Hne]; [done|]. injection Hdec as ->.
    by exists part0, payload, ref.
Qed.

(** X14: the media proxy serves what the handler stored: for the media
    id the handler mints for a file it put at [finalPath] (with safe
    fields), the proxy asks once, for the URL the file was put to, and
    answers with the body and the length of the answer and with the MIME
    type of the reference, or the Content-Type of the answer when the
    reference has none. *)
Theorem X14_proxy_serves_minted_reference (finalPath finalFilename mimeType : string) :
  let ref := mkMediaRef (TrimLeft finalPath "/") finalFilename mimeType in
  safe (TrimLeft finalPath "/") = true -> safe finalFilename = true -> safe mimeType = true ->
  TrimLeft finalPath "/" <> "" ->
  getMedia secretKey BaseURL GET (EncodeMediaID secretKey ref)
  = ([buildURL BaseURL finalPath], served ref (GET (buildURL BaseURL finalPath))).
Proof.
  intros ref Hp Hf Hm Hne.
  assert (Hurl : buildURL BaseURL (Path ref) = buildURL BaseURL finalPath).
  { unfold buildURL. cbn [Path ref]. by rewrite TrimLeft_idem. }
  rewrite <- Hurl. apply getMedia_decoded.
  apply decode_encode; [|by apply unmarshal_marshal_plain; apply safe_plain|done].
  apply all_bytes_no_byte, EncodeToString_low. by apply marshal_MediaRef_low.
Qed.

End Proxy.

Lemma X14_witness :
  let GET := fun _ : string => mkAnswer false 200 "application/octet-stream" 10 "file-bytes" in
  getMedia "secret" "https://cloud.example.com/dav/" GET
    (EncodeMediaID "secret" (mkMediaRef (TrimLeft stored_path "/") "image.jpg" "image/jpeg"))
  = (["https://cloud.example.com/dav/media/2024/roomid_example.com/alice/image.jpg"],
     inr (mkGetMediaResponseData "file-bytes" "image/jpeg" 10)).
Proof.
  intros GET.
  rewrite (X14_proxy_serves_minted_reference "secret" "https://cloud.example.com/dav/" GET
             stored_path "image.jpg" "image/jpeg")
    by (reflexivity || discriminate).
  reflexivity.
Defined.

(** X15: the local part of a user id "@local:server" that does not end
    in white space, with a non-empty local part that holds no colon, is
    [local]. *)
Theorem X15_localpart_of_user_id (localpart server : string) :
  localpart <> "" -> Contains localpart ":" = false ->
  trails_space ("@" +:+ localpart +:+ ":" +:+ server) = false ->
  MatrixUserLocalpart ("@" +:+ localpart +:+ ":" +:+ server) = localpart.
Proof.
  intros Hne Hcolon Htrail. unfold MatrixUserLocalpart. cbv zeta.
  rewrite TrimSpace_fixed by done.
  change ("@" +:+ ?s) with (String "@" s). unfold TrimPrefix, HasPrefix.
  cbn [String.prefix]. destruct (ascii_dec "@" "@"); [|done]. rewrite prefix_empty.
  cbn [String.length drop_str].
  change (":" +:+ server) with (String ":" server).
  rewrite SplitN_first by (by apply Contains_none_bytes).
  destruct (String.eqb_spec localpart ""); done.
Qed.

Lemma X15_witness : MatrixUserLocalpart "@alice:example.com" = "alice".
Proof.
  apply (X15_localpart_of_user_id "alice" "example.com"); (reflexivity || discriminate).
Defined.

Section Cache.
Variable env : Env.
Variable IsMedia : string -> bool.
Variable ParseContentURI : string -> option ContentURI.
Variable PrepareForDecryption : EncryptedFileInfo -> bool.
Variable DecryptFile : EncryptedFileInfo -> string -> option string.
Variable now : GoTime.Time.
Variable range_order : list (string * string) -> list (string * string).

Let handle_event :=
  HandleMatrixEvent env IsMedia ParseContentURI PrepareForDecryption DecryptFile now range_order.

(** X16: the cache of directories holds only directories the server
    has accepted (it answered a MKCOL for them with 201, 405 or 409):
    [EnsureDirectories] keeps this, and so does handling an event,
    whatever the servers answer. *)
Theorem X16_cache_holds_accepted_directories (h : MediaHandler) (evt : Event) (p : string)
    (w : World) :
  cache_sound env w ->
  cache_sound env (snd (EnsureDirectories env p w))
  /\ cache_sound env (snd (handle_event h evt w)).
Proof.
  intros Hw. split.
  { rewrite EnsureDirectories_run. by apply create_all_sound. }
  revert w Hw. change (keeps_cache env (handle_event h evt)).
  unfold handle_event, HandleMatrixEvent.
  destruct (evType evt).
  - apply keeps_func, keeps_exit.
    + cbn [when]. apply keeps_bind; [|intros; apply keeps_Return].
      apply keeps_lift. unfold handleRedactionEvent, deleteFromStateEvent, DeleteFile.
      repeat keeps_step.
    + intros w. unfold when, bind, lift, Return.
      destruct (handleRedactionEvent env h evt w). by eexists.
  - apply keeps_func. cbv iota. unfold when at 1 2.
    apply keeps_bind; [apply keeps_ret|]. intros _.
    apply keeps_bind; [apply keeps_ret|]. intros _.
    apply keeps_bind; [repeat keeps_step|]. intros _.
    destruct (_ !! _); [|apply keeps_Return].
    apply keeps_bind; [repeat keeps_step|]. intros _.
    destruct (AsMessage _) as [msg|]; [|apply keeps_Return].
    apply keeps_bind; [repeat keeps_step|]. intros _.
    apply keeps_bind; [repeat keeps_step|]. intros _.
    apply keeps_bind; [unfold acquire; repeat keeps_step|]. intros [[data uri] mime].
    apply keeps_bind; [apply keeps_lift, keeps_EnsureDirectories|].
    intros [e|]; [apply keeps_Return|].
    apply keeps_bind; [apply keeps_place_and_upload|]. intros [fp fn].
    apply keeps_bind; [|intros; apply keeps_Return].
    unfold rewrite, storeMediaState, deleteLocalMedia. cbv zeta. repeat keeps_step.
  - apply keeps_func. cbv iota. unfold when at 1 2.
    apply keeps_bind; [apply keeps_ret|]. intros _.
    apply keeps_exit; [apply keeps_Return|]. intros w. by eexists.
Qed.

End Cache.

Lemma X16_witness :
  let env := dav (homeserver "file-bytes" "image/jpeg") in
  cache_sound env start
  /\ cache_sound env (snd (handle env handler (image_event "image.jpg") start)).
Proof.
  intros env.
  assert (H0 : cache_sound env start) by (intros d Hd; set_solver).
  split; [exact H0|].
  apply (X16_cache_holds_accepted_directories env IsMedia ParseContentURI
           (fun _ => true) (fun _ data => Some data) clock (fun entries => entries)
           handler (image_event "image.jpg") "" start H0).
Defined.

Section Config.
Variable LookupEnv : string -> option string.

(** X17: [expandEnvPreserveUnknown] leaves a text without '$' as it is,
    and after such a text it replaces "${name}" (a non-empty name without
    '}') by the value of the variable when it is set and leaves it as it
    is when it is not; what follows is expanded in the same way. *)
Theorem X17_expand_preserves_unknown (pre name post : string) :
  without "$" pre = true -> name <> "" -> without "}" name = true ->
  expandEnvPreserveUnknown LookupEnv pre = pre
  /\ expandEnvPreserveUnknown LookupEnv (pre +:+ "${" +:+ name +:+ "}" +:+ post)
     = pre
       +:+ match LookupEnv name with
           | Some envValue => envValue
           | None => "${" +:+ name +:+ "}"
           end
       +:+ expandEnvPreserveUnknown LookupEnv post.
Proof.
  intros Hpre Hne Hname. unfold expandEnvPreserveUnknown, Expand. split.
  - rewrite <- (append_nil_r pre) at 1. rewrite expand_from_plain by done.
    cbn [expand_from]. by rewrite append_nil_r.
  - rewrite expand_from_plain by done. f_equal.
    change ("${" +:+ ?s) with (String "$" (String "{" s)).
    change ("}" +:+ post) with (String "}" post).
    cbn [expand_from]. change (ascii_eqb "$" "$") with true. cbn [String.eqb andb negb].
    rewrite getShellName_braced by done.
    destruct (String.eqb_spec name "") as [|_]; [done|].
    f_equal. apply expand_from_braced.
Qed.

End Config.

Lemma X17_witness :
  expandEnvPreserveUnknown test_environ "/vup/${year}/x: ${NEXTCLOUD_PASSWORD}"
  = "/vup/${year}/x: secret".
Proof.
  change (expandEnvPreserveUnknown test_environ
            ("/vup/" +:+ "${" +:+ "year" +:+ "}" +:+ "/x: ${NEXTCLOUD_PASSWORD}")
          = "/vup/${year}/x: secret").
  rewrite (proj2 (X17_expand_preserves_unknown test_environ "/vup/" "year"
                    "/x: ${NEXTCLOUD_PASSWORD}" eq_refl ltac:(discriminate) eq_refl)).
  change "/x: ${NEXTCLOUD_PASSWORD}"
    with ("/x: " +:+ "${" +:+ "NEXTCLOUD_PASSWORD" +:+ "}" +:+ "").
  rewrite (proj2 (X17_expand_preserves_unknown test_environ "/x: " "NEXTCLOUD_PASSWORD"
                    "" eq_refl ltac:(discriminate) eq_refl)).
  reflexivity.
Defined.

(** X18: the room templates are read back from their text: for entries
    whose keys hold no ',' and no '=' and whose templates hold no ',',
    the text "k1=t1,k2=t2,..." is parsed to the map of the entries, keys
    and templates trimmed, a later entry for a key replacing an earlier
    one. *)
Theorem X18_parse_room_templates (entries : list (string * string)) :
  Forall (fun e => without "," (fst e) = true /\ without "=" (fst e) = true
                   /\ without "," (snd e) = true) entries ->
  parseRoomPathTemplate (GoStrings.Join (map entry_text entries) ",")
  = fold_left (fun result e => <[TrimSpace (fst e) := TrimSpace (snd e)]> result) entries ∅.
Proof.
  intros Hall. unfold parseRoomPathTemplate.
  destruct entries as [|e0 rest]; [done|].
  assert (Hne : GoStrings.Join (map entry_text (e0 :: rest)) "," <> "").
  { cbn [map]. destruct (map entry_text rest).
    - cbn [GoStrings.Join]. unfold entry_text. destruct (fst e0); done.
    - rewrite Join_cons_sep. unfold entry_text. destruct (fst e0); done. }
  destruct (String.eqb_spec (GoStrings.Join (map entry_text (e0 :: rest)) ",") "") as [|_];
    [done|].
  rewrite Split_Join; [|done|].
  - generalize (∅ : gmap string string). revert Hall. generalize (e0 :: rest).
    intros l. induction l as [|[k v] l IH]; intros Hall acc; [done|].
    apply Forall_cons in Hall as [(_ & Hk & _) Hall]. cbn [map fold_left fst snd].
    change (entry_text (k, v)) with (k +:+ String "=" v).
    rewrite SplitN_first by done. by apply IH.
  - apply Forall_map. eapply Forall_impl; [exact Hall|]. intros [k v] (Hk & _ & Hv).
    unfold entry_text. cbn [fst snd] in *.
    change ("=" +:+ v) with (String "=" v).
    unfold without in *. rewrite all_bytes_append. cbn [all_bytes]. by rewrite Hk, Hv.
Qed.

Lemma X18_witness :
  parseRoomPathTemplate "!a:x.org=/m/${year}/${file}, !b:x.org = /n/${file} "
  !! "!b:x.org" = Some "/n/${file}".
Proof.
  change "!a:x.org=/m/${year}/${file}, !b:x.org = /n/${file} "
    with (GoStrings.Join
            (map entry_text [("!a:x.org", "/m/${year}/${file}"); (" !b:x.org ", " /n/${file} ")])
            ",").
  rewrite X18_parse_room_templates by (repeat constructor).
  vm_compute. reflexivity.
Defined.

Section Edits.
Variable env : Env.
Variable IsMedia : string -> bool.
Variable ParseContentURI : string -> option ContentURI.
Variable PrepareForDecryption : EncryptedFileInfo -> bool.
Variable DecryptFile : EncryptedFileInfo -> string -> option string.
Variable now : GoTime.Time.
Variable range_order : list (string * string) -> list (string * string).

Let handle_event :=
  HandleMatrixEvent env IsMedia ParseContentURI PrepareForDecryption DecryptFile now range_order.


End Edits.

Section Lifecycle.
Variable env : Env.
Variable IsMedia : string -> bool.
Variable ParseContentURI : string -> option ContentURI.
Variable PrepareForDecryption : EncryptedFileInfo -> bool.
Variable DecryptFile : EncryptedFileInfo -> string -> option string.
Variable now : GoTime.Time.
Variable range_order : list (string * string) -> list (string * string).

Let handle_event :=
  HandleMatrixEvent env IsMedia ParseContentURI PrepareForDecryption DecryptFile now range_order.


End Lifecycle.


End Coverage.
